(** * Registration and payment handlers over a Notion store

    A shallow embedding of the serverless handlers of the repository, and
    the properties of the specification proved or refuted on it.

    - [Register]: the registration handler with the availability gate
      ([checkCohortAvailability]) and the upsert ([findExistingRecord],
      [updateExistingRecord]);
    - [RegisterBasic]: the registration handler of [register-fn.js], a
      document that does not parse;
    - [RegisterClassDate]: the older registration handler, keyed on
      [class_date];
    - [Webhook]: the minimal Stripe webhook of [webhook-fn.js];
    - [StripeWebhook]: the webhook that also records the Stripe session.

    JavaScript values are an inductive type and an exception is an explicit
    outcome. The Notion database is a list of pages; it is threaded through
    a state monad together with what the network will answer to the calls to
    come, the log of the calls made, and the console. *)

From Stdlib Require Import ZArith NArith Lia Ascii String.
From Stdlib Require QArith DecimalString.
From stdpp Require Import base option list strings gmap fin_maps.

Set Warnings "-register-all".

Local Open Scope Z_scope.

(** ** JavaScript strings, values and expressions *)

Module Js.

(** A string is its sequence of UTF-16 code units. *)
Definition jstring := list N.

Definition lit (s : string) : jstring :=
  map (fun a => N_of_ascii a) (list_ascii_of_string s).

Definition jstring_eqb (s t : jstring) : bool := bool_decide (s = t).

(** [\s] of a regular expression, which is also what [trim] removes:
    WhiteSpace and LineTerminator of ECMAScript. *)
Definition is_space (c : N) : bool :=
  ((9 <=? c) && (c <=? 13) || (c =? 32) || (c =? 160) || (c =? 5760)
   || (8192 <=? c) && (c <=? 8202) || (c =? 8232) || (c =? 8233)
   || (c =? 8239) || (c =? 8287) || (c =? 12288) || (c =? 65279))%N.

Definition is_digit (c : N) : bool := ((48 <=? c) && (c <=? 57))%N.

Fixpoint trimStart (s : jstring) : jstring :=
  match s with
  | c :: t => if is_space c then trimStart t else s
  | [] => []
  end.

Definition trim (s : jstring) : jstring :=
  rev (trimStart (rev (trimStart s))).

(** *** Regular expressions

    The two patterns of the handlers are anchored at both ends and use only
    character classes, sequencing and [+]; they are matched by derivatives. *)

Inductive Re : Type :=
| Void
| Eps
| Class (p : N -> bool)
| Seq (r s : Re)
| Alt (r s : Re)
| Star (r : Re).

Definition Plus (r : Re) : Re := Seq r (Star r).
Definition Chr (c : N) : Re := Class (N.eqb c).

Fixpoint nullable (r : Re) : bool :=
  match r with
  | Void => false
  | Eps => true
  | Class _ => false
  | Seq r s => nullable r && nullable s
  | Alt r s => nullable r || nullable s
  | Star _ => true
  end.

Fixpoint deriv (c : N) (r : Re) : Re :=
  match r with
  | Void => Void
  | Eps => Void
  | Class p => if p c then Eps else Void
  | Seq r s =>
      if nullable r then Alt (Seq (deriv c r) s) (deriv c s)
      else Seq (deriv c r) s
  | Alt r s => Alt (deriv c r) (deriv c s)
  | Star r => Seq (deriv c r) (Star r)
  end.

(** [/^r$/.test(s)] *)
Fixpoint test (r : Re) (s : jstring) : bool :=
  match s with
  | [] => nullable r
  | c :: t => test (deriv c r) t
  end.

(** [[^\s@]] *)
Definition not_space_or_at (c : N) : bool := negb (is_space c || (c =? 64)%N).

(** [/^[^\s@]+@[^\s@]+\.[^\s@]+$/] *)
Definition EMAIL_RE : Re :=
  Seq (Plus (Class not_space_or_at))
      (Seq (Chr 64)
           (Seq (Plus (Class not_space_or_at))
                (Seq (Chr 46) (Plus (Class not_space_or_at))))).

(** [/^\d{4}-\d{2}-\d{2}$/] *)
Definition ISO_DATE_RE : Re :=
  let d := Class is_digit in
  Seq d (Seq d (Seq d (Seq d
    (Seq (Chr 45) (Seq d (Seq d (Seq (Chr 45) (Seq d d)))))))).

(** *** Values

    The values a request can carry are those of JSON plus [undefined].
    Numbers are the integers: amounts in cents, Unix timestamps, counts.
    An object is the list of its properties, each key once. *)

Inductive JVal : Type :=
| JUndef
| JNull
| JBool (b : bool)
| JNum (z : Z)
| JStr (s : jstring)
| JArr (items : list JVal)
| JObj (fields : list (string * JVal)).

Definition truthy (v : JVal) : bool :=
  match v with
  | JUndef | JNull => false
  | JBool b => b
  | JNum z => negb (z =? 0)
  | JStr s => negb (jstring_eqb s [])
  | JArr _ | JObj _ => true
  end.

Fixpoint lookup_field (k : string) (fs : list (string * JVal)) : JVal :=
  match fs with
  | [] => JUndef
  | (k', v) :: fs' => if String.eqb k k' then v else lookup_field k fs'
  end.

(** Strict equality, on the values the handlers compare: nested values
    are compared structurally, as the store does for a filter operand. *)
Fixpoint jval_eqb (a b : JVal) : bool :=
  match a, b with
  | JUndef, JUndef => true
  | JNull, JNull => true
  | JBool x, JBool y => Bool.eqb x y
  | JNum x, JNum y => (x =? y)
  | JStr x, JStr y => jstring_eqb x y
  | JArr l, JArr m =>
      (fix go (l m : list JVal) : bool :=
         match l, m with
         | [], [] => true
         | x :: l', y :: m' => jval_eqb x y && go l' m'
         | _, _ => false
         end) l m
  | JObj l, JObj m =>
      (fix go (l m : list (string * JVal)) : bool :=
         match l, m with
         | [], [] => true
         | (k, x) :: l', (k', y) :: m' =>
             String.eqb k k' && jval_eqb x y && go l' m'
         | _, _ => false
         end) l m
  | _, _ => false
  end.

(** [v === "text"] *)
Definition is_str (v : JVal) (s : string) : bool :=
  match v with
  | JStr t => jstring_eqb t (lit s)
  | _ => false
  end.

(** An object has a property of its own with the given name. *)
Definition has_own (k : string) (fs : list (string * JVal)) : bool :=
  existsb (fun kv => String.eqb k (fst kv)) fs.

(** *** Numbers

    What arithmetic makes of a value: a rational, [NaN] or an infinity.
    A number is the rational it denotes, in lowest terms; the rounding of
    IEEE-754 doubles is not modelled. *)

Inductive Number : Type :=
| Rat (q : QArith_base.Q)
| NaN
| Infinite (negative : bool).

Definition of_int (z : Z) : Number := Rat (QArith_base.inject_Z z).

(** [n / 100] *)
Definition div100 (n : Number) : Number :=
  match n with
  | Rat q => Rat (Qreduction.Qred (QArith_base.Qdiv q (QArith_base.Qmake 100 1)))
  | NaN => NaN
  | Infinite negative => Infinite negative
  end.

(** [n * 1000] *)
Definition times1000 (n : Number) : Number :=
  match n with
  | Rat q => Rat (Qreduction.Qred (QArith_base.Qmult q (QArith_base.Qmake 1000 1)))
  | NaN => NaN
  | Infinite negative => Infinite negative
  end.

(** *** Exceptions and expression evaluation *)

Inductive ErrKind : Type := PlainError | TypeError | RangeError | SyntaxError.

Record JsError : Type := mkError { kind : ErrKind; message : jstring }.

Inductive Outcome (A : Type) : Type :=
| Return (a : A)
| Throw (e : JsError).
Arguments Return {A} a.
Arguments Throw {A} e.

Definition obind {A B} (o : Outcome A) (k : A -> Outcome B) : Outcome B :=
  match o with
  | Return a => k a
  | Throw e => Throw e
  end.

(** [v.k]: reading a property of [undefined] or [null] throws. *)
Definition get (v : JVal) (k : string) : Outcome JVal :=
  match v with
  | JUndef | JNull =>
      Throw (mkError TypeError (lit "Cannot read properties of undefined or null"))
  | JObj fs => Return (lookup_field k fs)
  | _ => Return JUndef
  end.

(** Expressions are evaluated left to right; [&&] and [||] return one of
    their operands and evaluate the right one only when needed. *)
Definition Expr := Outcome JVal.

Definition val (v : JVal) : Expr := Return v.
Definition member (e : Expr) (k : string) : Expr := obind e (fun v => get v k).
Definition and_then (a b : Expr) : Expr :=
  obind a (fun v => if truthy v then b else Return v).
Definition or_else (a b : Expr) : Expr :=
  obind a (fun v => if truthy v then Return v else b).

(** [e.trim()] *)
Definition call_trim (e : Expr) : Outcome jstring :=
  obind e (fun v =>
    match v with
    | JStr s => Return (trim s)
    | JUndef | JNull =>
        Throw (mkError TypeError (lit "Cannot read properties of undefined or null"))
    | _ => Throw (mkError TypeError (lit "trim is not a function"))
    end).

End Js.

Export Js.

Declare Scope js_scope.
Delimit Scope js_scope with js.
Notation "e .> k" := (member e k) (at level 12, left associativity) : js_scope.
Infix "&&&" := and_then (at level 40, left associativity) : js_scope.
Infix "|||" := or_else (at level 50, left associativity) : js_scope.

(** ** The Notion database and the calls made to it

    The database is the list of its pages, in the order in which a query
    lists them. A query returns every page that satisfies its filter, a
    creation adds a page with a new identifier at the end, and a patch
    replaces the properties it names in the page with the given identifier.
    A filter condition holds for a page when the page has the named property,
    of the type of the condition, with the given value. *)

Module Notion.

(** A property of a page, as the payloads of the handlers write it. *)
Inductive PropVal : Type :=
| PTitle (content : JVal)
| PRichText (content : JVal)
| PEmail (email : JVal)
| PDate (start : JVal)
| PSelect (name : JVal)
| PUrl (url : JVal)
| PNumber (number : Number).

Record Page : Type := mkPage {
  page_id : jstring;
  properties : gmap string PropVal
}.

(** The equality filters of a database query. *)
Inductive CondType : Type := rich_text | select | email | date.

Record Cond : Type := mkCond {
  property : string;
  cond_type : CondType;
  equals : JVal
}.

Inductive Filter : Type :=
| FAnd (conds : list Cond)
| FOne (cond : Cond).

Definition cond_holds (c : Cond) (p : Page) : bool :=
  match properties p !! property c, cond_type c with
  | Some (PRichText v), rich_text => jval_eqb v (equals c)
  | Some (PSelect v), select => jval_eqb v (equals c)
  | Some (PEmail v), email => jval_eqb v (equals c)
  | Some (PDate v), date => jval_eqb v (equals c)
  | _, _ => false
  end.

Definition filter_holds (f : Filter) (p : Page) : bool :=
  match f with
  | FAnd cs => forallb (fun c => cond_holds c p) cs
  | FOne c => cond_holds c p
  end.

(** The three calls a handler makes: [POST /databases/<db>/query],
    [POST /pages] and [PATCH /pages/<id>]. *)
Inductive Request : Type :=
| Query (f : Filter)
| Create (props : gmap string PropVal)
| Patch (pageId : jstring) (props : gmap string PropVal).

(** What the network and the store do with one call: the store serves it,
    the store answers with an error status and an error object, or
    [fetch] (or reading the reply with [resp.json()]) throws. *)
Inductive Reply : Type :=
| Served
| Refused (json : JVal)
| Failed (msg : jstring).

Inductive Payload : Type :=
| Results (results : list Page)
| PageObject (page : Page).

(** [resp.ok] with the decoded body, or [!resp.ok] with the error object. *)
Inductive HttpResponse : Type :=
| RespOk (json : Payload)
| RespNotOk (json : JVal).

(** The world a handler runs in: the pages of the database, the replies to
    the calls to come (one per call; when the list is used up every call is
    served), the calls made so far, and the lines of [console.error]. *)
Record World : Type := mkWorld {
  store : list Page;
  replies : list Reply;
  calls : list Request;
  console : list (string * jstring)
}.

(** A patch replaces the properties it names and keeps the others. *)
Definition patch_page (pid : jstring) (props : gmap string PropVal) (p : Page) : Page :=
  if bool_decide (page_id p = pid)
  then mkPage (page_id p) (props ∪ properties p)
  else p.

Definition find_page (pid : jstring) (st : list Page) : option Page :=
  find (fun p => bool_decide (page_id p = pid)) st.

Definition object_not_found : JVal :=
  JObj [("object", JStr (lit "error")); ("status", JNum 404);
        ("code", JStr (lit "object_not_found"))].

End Notion.

Export Notion.

(** The parts of the JavaScript runtime and of the store that the handlers
    use as given: JSON serialisation, the text of a number and the number of
    a text, [toFixed], the calendar of [Date], and the identifier the store
    gives a new page. None of them throws. *)
Record Env : Type := mkEnv {
  (** [JSON.stringify(v)] *)
  stringify : JVal -> jstring;
  (** [String(n)] for an integer [n] *)
  number_text : Z -> jstring;
  (** [Number(s)] for a string [s] *)
  string_number : jstring -> Number;
  (** [n.toFixed(2)] *)
  toFixed2 : Number -> jstring;
  (** [new Date(ms).toISOString().split('T')[0]] for a finite [ms], [None]
      when [ms] is outside the range of [Date] *)
  iso_day : QArith_base.Q -> option jstring;
  (** the identifier of a page created in the given store *)
  new_id : list Page -> jstring
}.

(** ** Conversions

    [ToString] and [ToNumber] on the values a request can carry. A value
    parsed from JSON has no callable property. So an object is converted by
    [Object.prototype.toString], to [[object Object]], unless it has a
    property [toString] of its own: that property is not callable,
    [Object.prototype.valueOf] returns the object itself, and
    [OrdinaryToPrimitive] throws a [TypeError]. An array is converted by
    [Array.prototype.join], which converts its elements in turn. *)

Definition cannot_convert : JsError :=
  mkError TypeError (lit "Cannot convert object to primitive value").

Section Conversions.
Variable env : Env.

(** [items.join()]: the texts of the elements, separated by commas, with
    the empty text for [null] and [undefined]. *)
Definition join (text : JVal -> Outcome jstring)
    : list JVal -> bool -> Outcome jstring :=
  fix join (items : list JVal) (first : bool) : Outcome jstring :=
    match items with
    | [] => Return []
    | x :: rest =>
        obind match x with
              | JUndef | JNull => Return []
              | _ => text x
              end (fun s =>
        obind (join rest false) (fun t =>
        Return ((if first then [] else lit ",") ++ s ++ t)))
    end.

(** [`${v}`] *)
Fixpoint to_text (v : JVal) : Outcome jstring :=
  match v with
  | JUndef => Return (lit "undefined")
  | JNull => Return (lit "null")
  | JBool b => Return (lit (if b then "true" else "false"))
  | JNum z => Return (number_text env z)
  | JStr s => Return s
  | JArr items => join to_text items true
  | JObj fs =>
      if has_own "toString" fs then Throw cannot_convert
      else Return (lit "[object Object]")
  end.

(** [Number(v)], as the operators [/] and [*] apply it to an operand. *)
Definition to_number (v : JVal) : Outcome Number :=
  match v with
  | JUndef => Return NaN
  | JNull => Return (of_int 0)
  | JBool b => Return (of_int (if b then 1 else 0))
  | JNum z => Return (of_int z)
  | JStr s => Return (string_number env s)
  | JArr _ => obind (to_text v) (fun s => Return (string_number env s))
  | JObj fs => if has_own "toString" fs then Throw cannot_convert else Return NaN
  end.

End Conversions.

(** ** The handler monad: a world, and a value or an exception *)

Module Run.

Definition M (A : Type) : Type := World -> Outcome A * World.

Definition ret {A} (a : A) : M A := fun w => (Return a, w).
Definition throw {A} (e : JsError) : M A := fun w => (Throw e, w).
Definition bind {A B} (m : M A) (k : A -> M B) : M B :=
  fun w =>
    match m w with
    | (Return a, w') => k a w'
    | (Throw e, w') => (Throw e, w')
    end.
Definition eval {A} (o : Outcome A) : M A := fun w => (o, w).

(** [try { m } catch (err) { h err }] *)
Definition try_catch {A} (m : M A) (h : JsError -> M A) : M A :=
  fun w =>
    match m w with
    | (Return a, w') => (Return a, w')
    | (Throw e, w') => h e w'
    end.

(** [console.error(label, msg)] *)
Definition console_error (label : string) (msg : jstring) : M unit :=
  fun w => (Return tt,
            mkWorld (store w) (replies w) (calls w) (console w ++ [(label, msg)])).

Definition next_reply (w : World) : Reply :=
  match replies w with
  | [] => Served
  | r :: _ => r
  end.

Section Fetch.
Variable env : Env.

(** [await fetch(...)] followed by [await resp.json()]. *)
Definition fetch (rq : Request) : M HttpResponse :=
  fun w =>
    let rest := tail (replies w) in
    let log := calls w ++ [rq] in
    match next_reply w with
    | Failed msg =>
        (Throw (mkError TypeError msg), mkWorld (store w) rest log (console w))
    | Refused json =>
        (Return (RespNotOk json), mkWorld (store w) rest log (console w))
    | Served =>
        match rq with
        | Query f =>
            (Return (RespOk (Results (List.filter (filter_holds f) (store w)))),
             mkWorld (store w) rest log (console w))
        | Create props =>
            let p := mkPage (new_id env (store w)) props in
            (Return (RespOk (PageObject p)),
             mkWorld (store w ++ [p]) rest log (console w))
        | Patch pid props =>
            match find_page pid (store w) with
            | Some p =>
                (Return (RespOk (PageObject (patch_page pid props p))),
                 mkWorld (patch_page pid props <$> store w) rest log (console w))
            | None =>
                (Return (RespNotOk object_not_found),
                 mkWorld (store w) rest log (console w))
            end
        end
    end.
End Fetch.

End Run.

Export Run.

Declare Scope run_scope.
Delimit Scope run_scope with run.
Notation "x <- m ;; k" := (bind m (fun x => k))
  (at level 100, m at next level, right associativity) : run_scope.
Notation "m ;; k" := (bind m (fun _ => k))
  (at level 100, right associativity) : run_scope.

Local Open Scope js_scope.
Local Open Scope run_scope.

(** ** The OpenWhisk invocation record and the HTTP response *)

(** What [Buffer.from(args.__ow_body, "base64").toString("utf8")] followed by
    [JSON.parse] makes of the body: there is none (absent or empty, hence
    falsy), decoding or parsing throws, the decoded text is empty, or the
    text parses to a value. *)
Inductive OwBody : Type :=
| NoBody
| Malformed
| Blank
| Parsed (v : JVal).

Record Args : Type := mkArgs {
  params : list (string * JVal);
  ow_body : OwBody
}.

Definition args_value (args : Args) : JVal := JObj (params args).
Definition ow_method (args : Args) : JVal := lookup_field "__ow_method" (params args).

(** The response of a handler; [body] is the object given to
    [JSON.stringify]. *)
Record Response : Type := mkResponse {
  statusCode : Z;
  headers : list (string * string);
  body : option JVal
}.

Definition json_header : list (string * string) :=
  [("Content-Type", "application/json")].

(** [json.results] and [json.id] of a decoded reply. *)
Definition results_of (json : Payload) : Outcome (list Page) :=
  match json with
  | Results l => Return l
  | PageObject _ =>
      Throw (mkError TypeError (lit "Cannot read properties of undefined or null"))
  end.

Definition id_of (json : Payload) : JVal :=
  match json with
  | PageObject p => JStr (page_id p)
  | Results _ => JUndef
  end.

Definition rich (content : JVal) : PropVal := PRichText content.

(** ** The registration handler with the availability gate and the upsert *)

Module Register.

Definition parseBody (args : Args) : JVal :=
  if is_str (ow_method args) "post" then
    match ow_body args with
    | NoBody => args_value args
    | Parsed v => v
    | Blank => JObj []
    | Malformed => JObj []
    end
  else args_value args.

Definition validEmail (v : JVal) : Outcome bool :=
  obind (call_trim (val v ||| val (JStr []))) (fun s => Return (test EMAIL_RE s)).

Record Availability : Type := mkAvailability {
  isAvailable : bool;
  spotsLeft : Z;
  paidCount : Z
}.

(** The five fields of a registration after [(data.f || default).trim()]. *)
Record Fields : Type := mkFields {
  name : jstring;
  email : jstring;
  start_date : jstring;
  cohort : jstring;
  goal : jstring
}.

Section Handler.
Variable env : Env.

Definition gate_filter (cohort startDate : JVal) : Filter :=
  FAnd ([mkCond "cohort" rich_text cohort; mkCond "status" select (JStr (lit "paid"))]
        ++ (if truthy startDate then [mkCond "start_date" date startDate] else [])).

Definition checkCohortAvailability (cohort startDate : JVal) : M Availability :=
  let startDate := match startDate with JUndef => JNull | v => v end in
  try_catch
    (resp <- fetch env (Query (gate_filter cohort startDate)) ;;
     match resp with
     | RespNotOk json =>
         throw (mkError PlainError (lit "Notion API error: " ++ stringify env json))
     | RespOk json =>
         results <- eval (results_of json) ;;
         let paidCount := Z.of_nat (length results) in
         ret (mkAvailability (paidCount <? 10) (Z.max 0 (10 - paidCount)) paidCount)
     end)
    (fun err =>
       throw (mkError PlainError (lit "Failed to check availability: " ++ message err))).

Definition triple_filter (email cohort startDate : JVal) : Filter :=
  FAnd [mkCond "email" Notion.email email;
        mkCond "cohort" rich_text cohort;
        mkCond "start_date" date startDate].

Definition findExistingRecord (email cohort startDate : JVal) : M (option Page) :=
  try_catch
    (resp <- fetch env (Query (triple_filter email cohort startDate)) ;;
     match resp with
     | RespNotOk json =>
         throw (mkError PlainError (lit "Notion API error: " ++ stringify env json))
     | RespOk json =>
         results <- eval (results_of json) ;;
         ret (head results)
     end)
    (fun err =>
       throw (mkError PlainError (lit "Failed to find existing record: " ++ message err))).

Definition goal_patch (goal : JVal) : gmap string PropVal :=
  {[ "expectation" := rich goal ]}.

Definition updateExistingRecord (pageId : jstring) (goal : JVal) : M Payload :=
  try_catch
    (resp <- fetch env (Patch pageId (goal_patch goal)) ;;
     match resp with
     | RespNotOk json =>
         throw (mkError PlainError (lit "Notion API error: " ++ stringify env json))
     | RespOk json => ret json
     end)
    (fun err =>
       throw (mkError PlainError (lit "Failed to update existing record: " ++ message err))).

(** The availability-check request: [?check-avail=<cohort>]. *)
Definition check_availability (checkAvail checkDate : JVal) : M Response :=
  try_catch
    (availability <- checkCohortAvailability checkAvail checkDate ;;
     ret (mkResponse 200 json_header
            (Some (JObj [("ok", JBool true);
                         ("cohort", checkAvail);
                         ("startDate", checkDate);
                         ("isAvailable", JBool (isAvailable availability));
                         ("spotsLeft", JNum (spotsLeft availability));
                         ("paidCount", JNum (paidCount availability))]))))
    (fun err =>
       ret (mkResponse 500 json_header
              (Some (JObj [("ok", JBool false); ("error", JStr (message err))])))).

(** [const name = (data.name || "").trim(); ...] *)
Definition read_fields (data : JVal) : Outcome Fields :=
  obind (call_trim (val data .> "name" ||| val (JStr []))) (fun name =>
  obind (call_trim (val data .> "email" ||| val (JStr []))) (fun email =>
  obind (call_trim (val data .> "start_date" ||| val (JStr []))) (fun start_date =>
  obind (call_trim (val data .> "cohort" ||| val (JStr (lit "unknown")))) (fun cohort =>
  obind (call_trim (val data .> "goal" ||| val (JStr (lit "unknown")))) (fun goal =>
  Return (mkFields name email start_date cohort goal)))))).

Definition cohort_full (f : Fields) : Response :=
  mkResponse 409 json_header
    (Some (JObj [("ok", JBool false);
                 ("error", JStr (lit "Cohort is full"));
                 ("cohort", JStr (cohort f));
                 ("startDate", JStr (start_date f));
                 ("spotsLeft", JNum 0)])).

(** "Check availability before allowing registration": [Some r] is the
    early [return r] of the [try] block. *)
Definition gate (f : Fields) : M (option Response) :=
  try_catch
    (availability <- checkCohortAvailability (JStr (cohort f)) (JStr (start_date f)) ;;
     if negb (isAvailable availability) then ret (Some (cohort_full f)) else ret None)
    (fun err =>
       console_error "Availability check failed:" (message err) ;; ret None).

(** "Basic validation" *)
Definition validate (f : Fields) : Outcome (list string) :=
  let errors := [] in
  let errors := if negb (truthy (JStr (name f)))
                then errors ++ ["name is required"%string] else errors in
  obind (validEmail (JStr (email f))) (fun valid =>
  let errors := if negb valid
                then errors ++ ["valid email is required"%string] else errors in
  let errors := if negb (test ISO_DATE_RE (start_date f))
                then errors ++ ["start_date must be ISO yyyy-mm-dd"%string] else errors in
  Return errors).

Definition invalid (errors : list string) : Response :=
  mkResponse 400 json_header
    (Some (JObj [("ok", JBool false);
                 ("errors", JArr (map (fun e => JStr (lit e)) errors))])).

(** "Check if record already exists for this email + cohort + date" *)
Definition upsert_existing (f : Fields) : M (option Response) :=
  try_catch
    (existingRecord <- findExistingRecord (JStr (email f)) (JStr (cohort f)) (JStr (start_date f)) ;;
     match existingRecord with
     | Some record =>
         updated <- updateExistingRecord (page_id record) (JStr (goal f)) ;;
         ret (Some (mkResponse 200 json_header
                (Some (JObj [("ok", JBool true);
                             ("pageId", JStr (page_id record));
                             ("updated", JBool true);
                             ("message", JStr (lit "Updated existing registration"))]))))
     | None => ret None
     end)
    (fun err =>
       console_error "Failed to check/update existing record:" (message err) ;; ret None).

(** "Build Notion page payload" *)
Definition payload (f : Fields) : gmap string PropVal :=
  {[ "name" := PTitle (JStr (name f));
     "email" := PEmail (JStr (email f));
     "start_date" := PDate (JStr (start_date f));
     "cohort" := rich (JStr (cohort f));
     "expectation" := rich (JStr (goal f));
     "status" := PSelect (JStr (lit "registered")) ]}.

Definition create (f : Fields) : M Response :=
  try_catch
    (resp <- fetch env (Create (payload f)) ;;
     match resp with
     | RespNotOk json =>
         ret (mkResponse 502 json_header
                (Some (JObj [("ok", JBool false); ("error", json)])))
     | RespOk json =>
         ret (mkResponse 200 json_header
                (Some (JObj [("ok", JBool true);
                             ("pageId", id_of json);
                             ("created", JBool true);
                             ("message", JStr (lit "Created new registration"))])))
     end)
    (fun err =>
       ret (mkResponse 500 json_header
              (Some (JObj [("ok", JBool false); ("error", JStr (message err))])))).

(** The registration flow, in the order of the statements of [main]: the
    gate, then what follows it (validation, the existing record, creation). *)
Definition after_gate (f : Fields) : M Response :=
  errors <- eval (validate f) ;;
  match errors with
  | _ :: _ => ret (invalid errors)
  | [] =>
      existing <- upsert_existing f ;;
      match existing with
      | Some response => ret response
      | None => create f
      end
  end.

Definition register (f : Fields) : M Response :=
  full <- gate f ;;
  match full with
  | Some response => ret response
  | None => after_gate f
  end.

Definition main (args : Args) : M Response :=
  if is_str (ow_method args) "options" then ret (mkResponse 204 [] None)
  else
    let data := parseBody args in
    checkAvail <- eval (val data .> "check-avail" ||| val data .> "checkAvail") ;;
    checkDate <- eval (val data .> "check-date" ||| val data .> "checkDate") ;;
    if truthy checkAvail then check_availability checkAvail checkDate
    else
      f <- eval (read_fields data) ;;
      register f.

End Handler.
End Register.

(** ** The registration handlers without gate and upsert *)

Definition corsHeaders : list (string * string) :=
  [("Access-Control-Allow-Origin", "*");
   ("Access-Control-Allow-Methods", "GET,POST,OPTIONS");
   ("Access-Control-Allow-Headers", "Content-Type, Authorization")].

(** [register-fn.js], the document of the registration handler. It does
    not parse: at lines 63-64 the payload reads [database_id: process.env.]
    and the next token is [}], where an identifier must follow the dot. So
    the module throws a [SyntaxError] when it is loaded, [exports.main] is
    never defined, and an invocation ends with that error before any
    statement of the handler runs. *)
Module RegisterBasic.

Definition main (env : Env) (args : Args) : M Response :=
  throw (mkError SyntaxError (lit "Unexpected token '}'")).

End RegisterBasic.

(** The older handler: the date is [class_date], the page has the
    properties [Name], [Email], [Class Date] and [Cohort], and no status.
    [parseBody] and [validEmail] are the functions of [Register], word for
    word. The payload is the [properties] object of the source; its [parent]
    names the database, which is the one store here. *)
Module RegisterClassDate.
Section Handler.
Variable env : Env.

Definition validate (name email class_date : jstring) : Outcome (list string) :=
  let errors := [] in
  let errors := if negb (truthy (JStr name))
                then errors ++ ["name is required"%string] else errors in
  obind (Register.validEmail (JStr email)) (fun valid =>
  let errors := if negb valid
                then errors ++ ["valid email is required"%string] else errors in
  let errors := if negb (test ISO_DATE_RE class_date)
                then errors ++ ["class_date must be ISO yyyy-mm-dd"%string] else errors in
  Return errors).

Definition payload (name email class_date cohort : jstring) : gmap string PropVal :=
  {[ "Name" := PTitle (JStr name);
     "Email" := PEmail (JStr email);
     "Class Date" := PDate (JStr class_date);
     "Cohort" := PSelect (JStr cohort) ]}.

Definition create (props : gmap string PropVal) : M Response :=
  try_catch
    (resp <- fetch env (Create props) ;;
     match resp with
     | RespNotOk json =>
         ret (mkResponse 502 (json_header ++ corsHeaders)
                (Some (JObj [("ok", JBool false); ("error", json)])))
     | RespOk json =>
         ret (mkResponse 200 (json_header ++ corsHeaders)
                (Some (JObj [("ok", JBool true); ("pageId", id_of json)])))
     end)
    (fun err =>
       ret (mkResponse 500 (json_header ++ corsHeaders)
              (Some (JObj [("ok", JBool false); ("error", JStr (message err))])))).

Definition main (args : Args) : M Response :=
  if is_str (ow_method args) "options" then ret (mkResponse 204 corsHeaders None)
  else
    let data := Register.parseBody args in
    name <- eval (call_trim (val data .> "name" ||| val (JStr []))) ;;
    email <- eval (call_trim (val data .> "email" ||| val (JStr []))) ;;
    class_date <- eval (call_trim (val data .> "class_date" ||| val (JStr []))) ;;
    cohort <- eval (call_trim (val data .> "cohort" ||| val (JStr (lit "unknown")))) ;;
    errors <- eval (validate name email class_date) ;;
    match errors with
    | _ :: _ =>
        ret (mkResponse 400 (json_header ++ corsHeaders)
               (Some (JObj [("ok", JBool false);
                            ("errors", JArr (map (fun e => JStr (lit e)) errors))])))
    | [] => create (payload name email class_date cohort)
    end.

End Handler.
End RegisterClassDate.

(** ** The payment webhooks *)

Definition cors : list (string * string) :=
  [("Access-Control-Allow-Origin", "*");
   ("Access-Control-Allow-Methods", "POST,OPTIONS");
   ("Access-Control-Allow-Headers", "Content-Type")].

Definition bad (status : Z) (body : list (string * JVal)) : Response :=
  mkResponse status (json_header ++ cors) (Some (JObj (("ok", JBool false) :: body))).

Definition ok (body : list (string * JVal)) : Response :=
  mkResponse 200 (json_header ++ cors) (Some (JObj (("ok", JBool true) :: body))).

Definition parseEvent (args : Args) : JVal :=
  match ow_body args with
  | Parsed v => v
  | Blank => JNull
  | Malformed => JNull
  | NoBody =>
      match val (args_value args) .> "type" &&& val (args_value args) .> "data" with
      | Return v => if truthy v then args_value args else JNull
      | Throw _ => JNull
      end
  end.

(** [event.data && event.data.object] *)
Definition session_of (event : JVal) : Expr :=
  val event .> "data" &&& val event .> "data" .> "object".

(** [session && session.payment_status === "paid"] *)
Definition paid_of (session : JVal) : Expr :=
  val session &&&
  obind (val session .> "payment_status") (fun v => Return (JBool (is_str v "paid"))).

(** [(session && session.customer_details && session.customer_details.email)
     || session.customer_email || null] *)
Definition email_of (session : JVal) : Expr :=
  val session &&& val session .> "customer_details"
    &&& val session .> "customer_details" .> "email"
  ||| val session .> "customer_email"
  ||| val JNull.

Definition paid_status : PropVal := PSelect (JStr (lit "paid")).

Section FindPages.
Variable env : Env.

Definition findPagesByEmail (email : JVal) : M (list Page) :=
  resp <- fetch env (Query (FOne (mkCond "email" Notion.email email))) ;;
  match resp with
  | RespNotOk json =>
      throw (mkError PlainError (lit "Notion query failed: " ++ stringify env json))
  | RespOk (Results l) => ret l
  | RespOk (PageObject _) => ret []
  end.
End FindPages.

(** [webhook-fn.js]: marks the status of the matching pages as paid. *)
Module Webhook.
Section Handler.
Variable env : Env.

Definition markPaid (pageId : jstring) : M Payload :=
  resp <- fetch env (Patch pageId {[ "status" := paid_status ]}) ;;
  match resp with
  | RespNotOk json =>
      throw (mkError PlainError (lit "Notion update failed: " ++ stringify env json))
  | RespOk json => ret json
  end.

(** [for (const p of pages) { await markPaid(p.id); updated++; }] *)
Fixpoint mark_each (pages : list Page) (updated : Z) : M Z :=
  match pages with
  | [] => ret updated
  | p :: rest => markPaid (page_id p) ;; mark_each rest (updated + 1)
  end.

Definition process (email : JVal) : M Response :=
  try_catch
    (pages <- findPagesByEmail env email ;;
     match pages with
     | [] => ret (ok [("updated", JNum 0);
                      ("note", JStr (lit "no_matching_email"));
                      ("email", email)])
     | _ :: _ =>
         updated <- mark_each pages 0 ;;
         ret (ok [("updated", JNum updated); ("email", email)])
     end)
    (fun err => ret (bad 502 [("error", JStr (message err))])).

Definition main (args : Args) : M Response :=
  if is_str (ow_method args) "options" then ret (mkResponse 204 cors None)
  else if negb (is_str (ow_method args) "post")
  then ret (bad 405 [("error", JStr (lit "Method not allowed"))])
  else
    let event := parseEvent args in
    if negb (truthy event)
    then ret (bad 400 [("error", JStr (lit "Empty or invalid body"))])
    else
      type <- eval (val event .> "type") ;;
      if negb (is_str type "checkout.session.completed")
      then ret (ok [("ignored", JBool true);
                    ("reason", JStr (lit "unhandled_event_type"))])
      else
        session <- eval (session_of event) ;;
        paid <- eval (paid_of session) ;;
        email <- eval (email_of session) ;;
        if negb (truthy paid)
        then ret (ok [("ignored", JBool true); ("reason", JStr (lit "not_paid"))])
        else if negb (truthy email)
        then ret (bad 400 [("error", JStr (lit "No email in event"))])
        else process email.

End Handler.
End Webhook.

(** The webhook of [register-fn.js]: it also records the Stripe session. *)
Module StripeWebhook.

Record StripeData : Type := mkStripeData {
  sessionId : JVal;
  amountPaid : JVal;
  paymentDate : jstring;
  customerName : JVal;
  currency : JVal
}.

Section Handler.
Variable env : Env.

(** [`https://dashboard.stripe.com/payments/${sessionId}`] *)
Definition stripe_url (sessionId : JVal) : Outcome jstring :=
  obind (to_text env sessionId) (fun text =>
  Return (lit "https://dashboard.stripe.com/payments/" ++ text)).

(** The [properties] object that [markPaidWithStripeInfo] builds before it
    calls the store. *)
Definition stripe_properties (stripeData : StripeData) : Outcome (gmap string PropVal) :=
  let properties := {[ "status" := paid_status ]} in
  let properties :=
    if truthy (sessionId stripeData)
    then <[ "stripe_session_id" := rich (sessionId stripeData) ]> properties
    else properties in
  obind (if truthy (sessionId stripeData)
         then obind (stripe_url (sessionId stripeData)) (fun stripeUrl =>
              Return (<[ "stripe_link" := PUrl (JStr stripeUrl) ]> properties))
         else Return properties) (fun properties =>
  obind (if negb (jval_eqb (amountPaid stripeData) JUndef)
         then obind (to_number env (amountPaid stripeData)) (fun amount =>
              Return (<[ "amount_paid" := PNumber (div100 amount) ]> properties))
         else Return properties) (fun properties =>
  let properties :=
    if truthy (JStr (paymentDate stripeData))
    then <[ "payment_date" := PDate (JStr (paymentDate stripeData)) ]> properties
    else properties in
  Return properties)).

Definition markPaidWithStripeInfo (pageId : jstring) (stripeData : StripeData) : M Payload :=
  properties <- eval (stripe_properties stripeData) ;;
  resp <- fetch env (Patch pageId properties) ;;
  match resp with
  | RespNotOk json =>
      throw (mkError PlainError (lit "Notion update failed: " ++ stringify env json))
  | RespOk json => ret json
  end.

(** [new Date(seconds * 1000).toISOString().split('T')[0]]: [toISOString]
    throws a [RangeError] when the time value is not finite or out of
    range. *)
Definition payment_day (seconds : Number) : Outcome jstring :=
  match times1000 seconds with
  | Rat ms =>
      match iso_day env ms with
      | Some day => Return day
      | None => Throw (mkError RangeError (lit "Invalid time value"))
      end
  | _ => Throw (mkError RangeError (lit "Invalid time value"))
  end.

(** "Extract Stripe session data for storage" *)
Definition extract (session : JVal) : Outcome StripeData :=
  obind (val session .> "id") (fun sessionId =>
  obind (val session .> "amount_total" ||| val session .> "amount_subtotal") (fun amountPaid =>
  obind (val session .> "created") (fun created =>
  obind (to_number env created) (fun seconds =>
  obind (payment_day seconds) (fun paymentDate =>
  obind (obind (val session .> "customer_details") (fun details =>
           match details with
           | JUndef | JNull => Return JUndef
           | _ => get details "name"
           end) ||| val JNull) (fun customerName =>
  obind (val session .> "currency" ||| val (JStr (lit "usd"))) (fun currency =>
  Return (mkStripeData sessionId amountPaid paymentDate customerName currency)))))))).

(** [`$${(amountPaid / 100).toFixed(2)}`] *)
Definition amount_text (amountPaid : JVal) : Outcome jstring :=
  obind (to_number env amountPaid) (fun amount =>
  Return (lit "$" ++ toFixed2 env (div100 amount))).

(** [for (const p of pages) { await markPaidWithStripeInfo(p.id, stripeData);
     updated++; updatedPages.push({pageId: p.id, stripeLink: ...}); }] *)
Fixpoint mark_each (stripeData : StripeData) (pages : list Page)
    (updated : Z) (updatedPages : list JVal) : M (Z * list JVal) :=
  match pages with
  | [] => ret (updated, updatedPages)
  | p :: rest =>
      markPaidWithStripeInfo (page_id p) stripeData ;;
      stripeLink <- eval (stripe_url (sessionId stripeData)) ;;
      mark_each stripeData rest (updated + 1)
        (updatedPages ++
           [JObj [("pageId", JStr (page_id p)); ("stripeLink", JStr stripeLink)]])
  end.

Definition process (email : JVal) (stripeData : StripeData) : M Response :=
  try_catch
    (pages <- findPagesByEmail env email ;;
     match pages with
     | [] => ret (ok [("updated", JNum 0);
                      ("note", JStr (lit "no_matching_email"));
                      ("email", email);
                      ("stripeSessionId", sessionId stripeData)])
     | _ :: _ =>
         marked <- mark_each stripeData pages 0 [] ;;
         stripeLink <- eval (stripe_url (sessionId stripeData)) ;;
         amount <- eval (amount_text (amountPaid stripeData)) ;;
         ret (ok [("updated", JNum (fst marked));
                  ("email", email);
                  ("stripeSessionId", sessionId stripeData);
                  ("stripeLink", JStr stripeLink);
                  ("amountPaid", JStr amount);
                  ("pages", JArr (snd marked))])
     end)
    (fun err => ret (bad 502 [("error", JStr (message err))])).

Definition main (args : Args) : M Response :=
  if is_str (ow_method args) "options" then ret (mkResponse 204 cors None)
  else if negb (is_str (ow_method args) "post")
  then ret (bad 405 [("error", JStr (lit "Method not allowed"))])
  else
    let event := parseEvent args in
    if negb (truthy event)
    then ret (bad 400 [("error", JStr (lit "Empty or invalid body"))])
    else
      type <- eval (val event .> "type") ;;
      if negb (is_str type "checkout.session.completed")
      then ret (ok [("ignored", JBool true);
                    ("reason", JStr (lit "unhandled_event_type"))])
      else
        session <- eval (session_of event) ;;
        paid <- eval (paid_of session) ;;
        email <- eval (email_of session) ;;
        if negb (truthy paid)
        then ret (ok [("ignored", JBool true); ("reason", JStr (lit "not_paid"))])
        else if negb (truthy email)
        then ret (bad 400 [("error", JStr (lit "No email in event"))])
        else
          stripeData <- eval (extract session) ;;
          process email stripeData.

End Handler.
End StripeWebhook.

(** * The vocabulary of the properties *)

(** ** Equality of values is decidable *)

Lemma JVal_nested_ind (P : JVal -> Prop) :
  P JUndef -> P JNull -> (forall b, P (JBool b)) -> (forall z, P (JNum z)) ->
  (forall s, P (JStr s)) ->
  (forall l, Forall P l -> P (JArr l)) ->
  (forall l, Forall (fun kv => P (snd kv)) l -> P (JObj l)) ->
  forall v, P v.
Proof.
  intros Hu Hn Hb Hz Hs Ha Ho.
  fix IH 1.
  intros [ | | b | z | s | l | l];
    [exact Hu | exact Hn | apply Hb | apply Hz | apply Hs | | ].
  - apply Ha. induction l as [|x l IHl]; constructor; [apply IH | exact IHl].
  - apply Ho. induction l as [|[k x] l IHl]; constructor; [apply IH | exact IHl].
Qed.

Lemma jstring_eqb_eq (s t : jstring) : jstring_eqb s t = true <-> s = t.
Proof. unfold jstring_eqb. apply bool_decide_eq_true. Qed.

Lemma jval_eqb_refl (v : JVal) : jval_eqb v v = true.
Proof.
  induction v as [ | | b | z | s | l IH | l IH] using JVal_nested_ind; simpl; auto.
  - destruct b; reflexivity.
  - apply Z.eqb_refl.
  - apply jstring_eqb_eq. reflexivity.
  - induction IH as [|x l Hx _ IHl]; [reflexivity|]. rewrite Hx. exact IHl.
  - induction IH as [|[k x] l Hx _ IHl]; [reflexivity|].
    simpl in Hx. rewrite String.eqb_refl, Hx. exact IHl.
Qed.

Lemma jval_eqb_eq (a b : JVal) : jval_eqb a b = true <-> a = b.
Proof.
  split; [| intros ->; apply jval_eqb_refl].
  revert b.
  induction a as [ | | x | x | x | l IH | l IH] using JVal_nested_ind;
    intros [ | | y | y | y | m | m]; simpl; try discriminate; auto.
  - intros H. apply Bool.eqb_prop in H. congruence.
  - intros H. apply Z.eqb_eq in H. congruence.
  - intros H. apply jstring_eqb_eq in H. congruence.
  - intros H. f_equal. revert m H.
    induction IH as [|x l Hx _ IHl]; intros [|y m] H; try discriminate; auto.
    apply andb_true_iff in H as [H1 H2].
    f_equal; [apply Hx, H1 | apply IHl, H2].
  - intros H. f_equal. revert m H.
    induction IH as [|[k x] l Hx _ IHl]; intros [|[k' y] m] H; try discriminate; auto.
    apply andb_true_iff in H as [H12 H3]. apply andb_true_iff in H12 as [H1 H2].
    apply String.eqb_eq in H1. simpl in Hx.
    f_equal; [f_equal; [exact H1 | apply Hx, H2] | apply IHl, H3].
Qed.

#[global] Instance JVal_eq_dec : EqDecision JVal.
Proof.
  intros a b. destruct (jval_eqb a b) eqn:E.
  - left. apply jval_eqb_eq, E.
  - right. intros H. apply jval_eqb_eq in H. congruence.
Defined.

#[global] Instance Q_eq_dec : EqDecision QArith_base.Q.
Proof. solve_decision. Defined.

#[global] Instance Number_eq_dec : EqDecision Number.
Proof. solve_decision. Defined.

#[global] Instance PropVal_eq_dec : EqDecision PropVal.
Proof. solve_decision. Defined.

(** ** The store and the network *)

(** The store answers every call that is still to come. *)
Definition reliable (w : World) : Prop := Forall (fun r => r = Served) (replies w).

(** The world after one call that left the store as it was. *)
Definition after_call (w : World) (rq : Request) : World :=
  mkWorld (store w) (tail (replies w)) (calls w ++ [rq]) (console w).

Definition logged (w : World) (label : string) (msg : jstring) : World :=
  mkWorld (store w) (replies w) (calls w) (console w ++ [(label, msg)]).

(** A field of the object a response carries as its body. *)
Definition body_field (r : Response) (k : string) : JVal :=
  match body r with
  | Some v => lookup_field k match v with JObj fs => fs | _ => [] end
  | None => JUndef
  end.

(** ** The availability gate *)

(** A record counts for a cohort and an optional start date when its cohort
    is the given one, its status is paid and, when a date is supplied, its
    start date is that date. *)
Definition paid_for (cohort startDate : JVal) (p : Page) : Prop :=
  properties p !! "cohort" = Some (PRichText cohort)
  /\ properties p !! "status" = Some (PSelect (JStr (lit "paid")))
  /\ (truthy startDate = true -> properties p !! "start_date" = Some (PDate startDate)).

#[global] Instance paid_for_dec cohort startDate p : Decision (paid_for cohort startDate p).
Proof. unfold paid_for. apply _. Defined.

Definition paid_count (cohort startDate : JVal) (st : list Page) : Z :=
  Z.of_nat (length (filter (paid_for cohort startDate) st)).

(** What the gate answers for a count of paid records. *)
Definition availability_of (n : Z) : Register.Availability :=
  Register.mkAvailability (n <? 10) (Z.max 0 (10 - n)) n.

(** ** The validator *)

(** The three tests of the validator, as it makes them. *)
Definition name_missing (f : Register.Fields) : bool :=
  jstring_eqb (Register.name f) [].
Definition email_malformed (f : Register.Fields) : bool :=
  negb (test EMAIL_RE (trim (Register.email f))).
Definition date_malformed (f : Register.Fields) : bool :=
  negb (test ISO_DATE_RE (Register.start_date f)).

Definition entry_if (violated : bool) (entry : string) : list string :=
  if violated then [entry] else [].

(** The rules of the validator, said of the strings themselves. A code
    unit is a decimal digit, [0] to [9]; it is white space when it is one of
    the WhiteSpace and LineTerminator code points of ECMAScript. *)
Definition digit (c : N) : Prop := (48 <= c <= 57)%N.

Definition white_space (c : N) : Prop :=
  (9 <= c <= 13 \/ c = 32 \/ c = 160 \/ c = 5760 \/ 8192 <= c <= 8202
   \/ c = 8232 \/ c = 8233 \/ c = 8239 \/ c = 8287 \/ c = 12288 \/ c = 65279)%N.

(** A part of an address: not empty, with no white space and no [@]. *)
Definition address_part (s : jstring) : Prop :=
  s <> [] /\ Forall (fun c => ~ white_space c /\ c <> 64%N) s.

(** An email the validator accepts: [a@b.c], with white space around it or
    none. *)
Definition well_formed_email (s : jstring) : Prop :=
  exists pre a b c post,
    s = pre ++ (a ++ [64%N] ++ b ++ [46%N] ++ c) ++ post
    /\ Forall white_space pre /\ Forall white_space post
    /\ address_part a /\ address_part b /\ address_part c.

(** A date the validator accepts: four digits, a hyphen, two digits, a
    hyphen, two digits. *)
Definition iso_date_shape (s : jstring) : Prop :=
  exists y1 y2 y3 y4 m1 m2 d1 d2,
    s = [y1; y2; y3; y4; 45%N; m1; m2; 45%N; d1; d2]
    /\ Forall digit [y1; y2; y3; y4; m1; m2; d1; d2].

(** The messages of the validator, in the order of its rules. *)
Definition validator_messages : list string :=
  ["name is required"; "valid email is required"; "start_date must be ISO yyyy-mm-dd"]%string.

(** ** The registration flow *)

Definition gate_query (f : Register.Fields) : Request :=
  Query (Register.gate_filter (JStr (Register.cohort f)) (JStr (Register.start_date f))).

(** The paid records the gate counts for a registration. *)
Definition paid_in_cohort (f : Register.Fields) (st : list Page) : Z :=
  paid_count (JStr (Register.cohort f)) (JStr (Register.start_date f)) st.

(** A request on the write path: not a preflight, not an availability
    check, and its five fields can be read. *)
Definition write_request (args : Args) (f : Register.Fields) : Prop :=
  is_str (ow_method args) "options" = false
  /\ (exists v, (val (Register.parseBody args) .> "check-avail"
                 ||| val (Register.parseBody args) .> "checkAvail") = Return v
                /\ truthy v = false)
  /\ Register.read_fields (Register.parseBody args) = Return f.

(** A record has the triple of a registration. *)
Definition same_triple (f : Register.Fields) (p : Page) : Prop :=
  properties p !! "email" = Some (PEmail (JStr (Register.email f)))
  /\ properties p !! "cohort" = Some (PRichText (JStr (Register.cohort f)))
  /\ properties p !! "start_date" = Some (PDate (JStr (Register.start_date f))).

#[global] Instance same_triple_dec f p : Decision (same_triple f p).
Proof. unfold same_triple. apply _. Defined.

Definition triple_query (f : Register.Fields) : Request :=
  Query (Register.triple_filter (JStr (Register.email f)) (JStr (Register.cohort f))
                                (JStr (Register.start_date f))).

Definition updated_response (p : Page) : Response :=
  mkResponse 200 json_header
    (Some (JObj [("ok", JBool true);
                 ("pageId", JStr (page_id p));
                 ("updated", JBool true);
                 ("message", JStr (lit "Updated existing registration"))])).

Definition created_response (p : Page) : Response :=
  mkResponse 200 json_header
    (Some (JObj [("ok", JBool true);
                 ("pageId", JStr (page_id p));
                 ("created", JBool true);
                 ("message", JStr (lit "Created new registration"))])).

(** ** Relations between the worlds before and after a computation *)

(** Running [m] takes a world to a world related to it. *)
Definition respects (R : relation World) {A} (m : M A) : Prop :=
  forall w, R w (snd (m w)).

(** The log of calls only grows. *)
Definition extends (w w' : World) : Prop := calls w `prefix_of` calls w'.

(** The first call a computation makes is [rq]. *)
Definition starts_with {A} (rq : Request) (m : M A) : Prop :=
  forall w, exists rest, calls (snd (m w)) = calls w ++ rq :: rest.

(** A request to the availability-check endpoint: not a preflight, with a
    truthy [check-avail] (or [checkAvail]) and the date that goes with it. *)
Definition availability_request (args : Args) (checkAvail checkDate : JVal) : Prop :=
  is_str (ow_method args) "options" = false
  /\ (val (Register.parseBody args) .> "check-avail"
      ||| val (Register.parseBody args) .> "checkAvail") = Return checkAvail
  /\ truthy checkAvail = true
  /\ (val (Register.parseBody args) .> "check-date"
      ||| val (Register.parseBody args) .> "checkDate") = Return checkDate.

(** ** The webhooks *)

(** A [checkout.session.completed] event, posted, whose session is paid and
    carries an email ([customer_details.email] or [customer_email]). *)
Definition payment_event (args : Args) (session email : JVal) : Prop :=
  is_str (ow_method args) "post" = true
  /\ truthy (parseEvent args) = true
  /\ (exists type, val (parseEvent args) .> "type" = Return type
                   /\ is_str type "checkout.session.completed" = true)
  /\ session_of (parseEvent args) = Return session
  /\ (exists paid, paid_of session = Return paid /\ truthy paid = true)
  /\ email_of session = Return email
  /\ truthy email = true.

(** A record whose email is the one of the event. *)
Definition has_email (email : JVal) (p : Page) : Prop :=
  properties p !! "email" = Some (PEmail email).

#[global] Instance has_email_dec email p : Decision (has_email email p).
Proof. unfold has_email. apply _. Defined.

(** The creation time of a session converts to a date: [created] converts
    to a number and [toISOString] does not throw. *)
Definition dated_session (env : Env) (session : JVal) : Prop :=
  exists created seconds day,
    val session .> "created" = Return created
    /\ to_number env created = Return seconds
    /\ StripeWebhook.payment_day env seconds = Return day.

(** The properties of the patch for a session, none when building them
    throws (and then no patch is sent). *)
Definition stripe_patch (env : Env) (sd : StripeWebhook.StripeData) : gmap string PropVal :=
  match StripeWebhook.stripe_properties env sd with
  | Return properties => properties
  | Throw _ => ∅
  end.

(** The identifier and the amount of a session convert: building the patch
    does not throw. *)
Definition patch_builds (env : Env) (sd : StripeWebhook.StripeData) : Prop :=
  exists properties, StripeWebhook.stripe_properties env sd = Return properties.

(** The session converts: its creation time to a date, its identifier to
    a text and its amount to a number. *)
Definition convertible_session (env : Env) (session : JVal) : Prop :=
  dated_session env session
  /\ exists id text amount number,
       val session .> "id" = Return id
       /\ to_text env id = Return text
       /\ (val session .> "amount_total" ||| val session .> "amount_subtotal") = Return amount
       /\ to_number env amount = Return number.

(** The properties [props] record the session: they are the patch built
    for it, with the status paid, the identifier and the dashboard link of a
    session that has one, the amount in dollars when there is an amount, and
    the payment date. *)
Definition records_session (env : Env) (sd : StripeWebhook.StripeData)
    (props : gmap string PropVal) : Prop :=
  StripeWebhook.stripe_properties env sd = Return props
  /\ props !! "status" = Some paid_status
  /\ (truthy (StripeWebhook.sessionId sd) = true ->
      props !! "stripe_session_id" = Some (rich (StripeWebhook.sessionId sd))
      /\ exists text,
           to_text env (StripeWebhook.sessionId sd) = Return text
           /\ props !! "stripe_link"
              = Some (PUrl (JStr (lit "https://dashboard.stripe.com/payments/" ++ text))))
  /\ (StripeWebhook.amountPaid sd <> JUndef ->
      exists number,
        to_number env (StripeWebhook.amountPaid sd) = Return number
        /\ props !! "amount_paid" = Some (PNumber (div100 number)))
  /\ (StripeWebhook.paymentDate sd <> [] ->
      props !! "payment_date" = Some (PDate (JStr (StripeWebhook.paymentDate sd)))).

Definition email_query (email : JVal) : Request :=
  Query (FOne (mkCond "email" Notion.email email)).

(** What a series of patches with the same properties makes of a page: the
    pages whose identifier is among the patched ones get the properties. *)
Definition marked (props : gmap string PropVal) (ids : list jstring) (p : Page) : Page :=
  if bool_decide (page_id p ∈ ids)
  then mkPage (page_id p) (props ∪ properties p)
  else p.

(** The entry of [pages] in the response for a page. *)
Definition page_entry (stripeLink : jstring) (p : Page) : JVal :=
  JObj [("pageId", JStr (page_id p)); ("stripeLink", JStr stripeLink)].

(** The world after one served patch. *)
Definition patched (w : World) (pid : jstring) (props : gmap string PropVal) : World :=
  mkWorld (patch_page pid props <$> store w) (tail (replies w))
          (calls w ++ [Patch pid props]) (console w).

(** The world after the served patches of a list of pages. *)
Definition all_marked (w : World) (props : gmap string PropVal) (ps : list Page) : World :=
  mkWorld (marked props (page_id <$> ps) <$> store w) (drop (length ps) (replies w))
          (calls w ++ ((fun p => Patch (page_id p) props) <$> ps)) (console w).

(** The responses of the two webhooks for the pages that were found. *)
Definition webhook_response (email : JVal) (ps : list Page) : Response :=
  match ps with
  | [] => ok [("updated", JNum 0);
              ("note", JStr (lit "no_matching_email"));
              ("email", email)]
  | _ :: _ => ok [("updated", JNum (Z.of_nat (length ps))); ("email", email)]
  end.

Definition stripe_response (email : JVal) (sd : StripeWebhook.StripeData)
    (stripeLink amount : jstring) (ps : list Page) : Response :=
  match ps with
  | [] => ok [("updated", JNum 0);
              ("note", JStr (lit "no_matching_email"));
              ("email", email);
              ("stripeSessionId", StripeWebhook.sessionId sd)]
  | _ :: _ =>
      ok [("updated", JNum (Z.of_nat (length ps)));
          ("email", email);
          ("stripeSessionId", StripeWebhook.sessionId sd);
          ("stripeLink", JStr stripeLink);
          ("amountPaid", JStr amount);
          ("pages", JArr (page_entry stripeLink <$> ps))]
  end.

(** The outcome [r] of a webhook run from the world [w] for an event with
    the given email: a 200 response with [ok: true] and [updated] equal to
    the number of records with that email, the note [no_matching_email] and
    an untouched store when there is none, and every record with that email
    has the status paid afterwards, at the same place and with the same
    identifier. *)
Definition marks_every_match (email : JVal) (w : World)
    (r : Outcome Response * World) : Prop :=
  exists resp,
    fst r = Return resp
    /\ statusCode resp = 200
    /\ body_field resp "ok" = JBool true
    /\ body_field resp "updated"
       = JNum (Z.of_nat (length (filter (has_email email) (store w))))
    /\ (filter (has_email email) (store w) = [] ->
        body_field resp "note" = JStr (lit "no_matching_email")
        /\ store (snd r) = store w)
    /\ length (store (snd r)) = length (store w)
    /\ forall i q, store w !! i = Some q -> has_email email q ->
         exists q', store (snd r) !! i = Some q'
                    /\ page_id q' = page_id q
                    /\ properties q' !! "status" = Some paid_status.

(** ** Replaying an event *)

(** Running the handler [h] a second time, from the world the first run
    left, gives the same outcome, leaves the store as the first run left it,
    and makes the calls [new] of the first run again. *)
Definition replays (h : World -> Outcome Response * World) (w : World)
    (new : list Request) : Prop :=
  fst (h (snd (h w))) = fst (h w)
  /\ store (snd (h (snd (h w)))) = store (snd (h w))
  /\ calls (snd (h w)) = calls w ++ new
  /\ calls (snd (h (snd (h w)))) = calls (snd (h w)) ++ new.

Definition replays_identically (h : World -> Outcome Response * World) (w : World) : Prop :=
  exists new, replays h w new.

(** The calls of a webhook for an event: the query by email, then one patch
    with the same properties for each record found. *)
Definition marking_calls (email : JVal) (props : gmap string PropVal) (st : list Page)
    : list Request :=
  email_query email
  :: ((fun p => Patch (page_id p) props) <$> filter (has_email email) st).

(** An event of type [checkout.session.completed] whose [data] is absent,
    or whose [data] is an object with [object] null or undefined. *)
Definition sessionless_event (event : JVal) : Prop :=
  (exists type, val event .> "type" = Return type
                /\ is_str type "checkout.session.completed" = true)
  /\ (val event .> "data" = Return JUndef
      \/ exists data, val event .> "data" = Return (JObj data)
                      /\ (lookup_field "object" data = JNull
                          \/ lookup_field "object" data = JUndef)).

(** ** The two webhooks side by side *)

(** Two worlds in which the network and the store will answer alike: the
    same replies to come, and pages with the same identifiers. *)
Definition same_shape (w w' : World) : Prop :=
  replies w = replies w' /\ page_id <$> store w = page_id <$> store w'.

(** Two outcomes of the same kind: both return, or both throw the same
    error. *)
Definition agree {A B} (o : Outcome A) (o' : Outcome B) : Prop :=
  match o, o' with
  | Return _, Return _ => True
  | Throw e, Throw e' => e = e'
  | _, _ => False
  end.

(** The response of the webhook that records the Stripe session when
    building the patch throws: the [catch] of [main] answers 502 with the
    message of the [TypeError]. *)
Definition conversion_refused : Response :=
  bad 502 [("error", JStr (message cannot_convert))].

(** The identifier or the amount of the session of the event does not
    convert: building the patch for it throws. *)
Definition unconvertible_event (env : Env) (args : Args) : Prop :=
  exists session sd,
    session_of (parseEvent args) = Return session
    /\ StripeWebhook.extract env session = Return sd
    /\ StripeWebhook.stripe_properties env sd = Throw cannot_convert.

(** ** The status of a record *)

Definition is_paid (p : Page) : Prop := properties p !! "status" = Some paid_status.

(** A call that never takes a record back from paid: a query; a creation,
    with the status registered or with no status; a patch that sets the
    status to paid or does not name the status. *)
Definition forward_write (rq : Request) : Prop :=
  match rq with
  | Query _ => True
  | Create props =>
      props !! "status" = Some (PSelect (JStr (lit "registered")))
      \/ props !! "status" = None
  | Patch _ props =>
      props !! "status" = Some paid_status \/ props !! "status" = None
  end.

(** Every record is still there, with its identifier, and its status is
    what it was or paid. *)
Definition status_forward (st st' : list Page) : Prop :=
  forall i p, st !! i = Some p ->
    exists p', st' !! i = Some p'
               /\ page_id p' = page_id p
               /\ (properties p' !! "status" = properties p !! "status" \/ is_paid p').

(** From [w] to [w'] the status of every record moved forward or stayed,
    and every call made in between is a forward write. *)
Definition forward (w w' : World) : Prop :=
  status_forward (store w) (store w')
  /\ exists new, calls w' = calls w ++ new /\ Forall forward_write new.

(** The handlers of the repository. *)
Definition handlers (env : Env) : list (Args -> M Response) :=
  [Register.main env; RegisterBasic.main env; RegisterClassDate.main env;
   Webhook.main env; StripeWebhook.main env].

(** ** Sample requests and stores *)

(** A runtime for the sample runs. Its [JSON.stringify] answers a fixed
    text; numbers are written in decimal, a text of digits is read as the
    integer it spells (any other text but the empty one as [NaN]), and dates
    follow the proleptic Gregorian calendar. *)
Definition decimal (z : Z) : jstring := lit (DecimalString.NilZero.string_of_int (Z.to_int z)).

Definition digits_value (s : jstring) : Z :=
  fold_left (fun acc c => 10 * acc + (Z.of_N c - 48)) s 0.

Definition sample_number (s : jstring) : Number :=
  if forallb is_digit s then of_int (digits_value s) else NaN.

Definition two_digits (z : Z) : jstring :=
  (if z <? 10 then lit "0" else []) ++ decimal z.

(** [n.toFixed(2)]: the nearest number of hundredths, a tie going away from
    zero. *)
Definition sample_toFixed2 (n : Number) : jstring :=
  match n with
  | Rat q =>
      let num := Z.abs (QArith_base.Qnum q) * 100 in
      let den := Z.pos (QArith_base.Qden q) in
      let hundredths := (2 * num + den) / (2 * den) in
      (if QArith_base.Qnum q <? 0 then lit "-" else [])
      ++ decimal (hundredths / 100) ++ lit "." ++ two_digits (hundredths mod 100)
  | NaN => lit "NaN"
  | Infinite negative => (if negative then lit "-" else []) ++ lit "Infinity"
  end.

(** The day of a time in milliseconds since 1970-01-01, for the years 0 to
    9999. *)
Definition sample_iso_day (ms : QArith_base.Q) : option jstring :=
  let t := Z.quot (QArith_base.Qnum ms) (Z.pos (QArith_base.Qden ms)) in
  let z := t / 86400000 + 719468 in
  let era := z / 146097 in
  let doe := z - era * 146097 in
  let yoe := (doe - doe / 1460 + doe / 36524 - doe / 146096) / 365 in
  let doy := doe - (365 * yoe + yoe / 4 - yoe / 100) in
  let mp := (5 * doy + 2) / 153 in
  let d := doy - (153 * mp + 2) / 5 + 1 in
  let m := if mp <? 10 then mp + 3 else mp - 9 in
  let y := yoe + era * 400 + (if m <=? 2 then 1 else 0) in
  if (0 <=? y) && (y <=? 9999)
  then Some ((if y <? 1000 then lit "0" else []) ++ (if y <? 100 then lit "0" else [])
             ++ (if y <? 10 then lit "0" else []) ++ decimal y
             ++ lit "-" ++ two_digits m ++ lit "-" ++ two_digits d)
  else None.

Definition sample_env : Env :=
  mkEnv (fun _ => lit "{}") decimal sample_number sample_toFixed2 sample_iso_day
        (fun st => lit "page-" ++ repeat 120%N (length st)).

Definition post (v : JVal) : Args :=
  mkArgs [("__ow_method", JStr (lit "post"))] (Parsed v).

Definition world_of (st : list Page) : World := mkWorld st [] [] [].

Definition record (id email cohort start_date goal status : string) : Page :=
  mkPage (lit id)
    {[ "name" := PTitle (JStr (lit "Ana"));
       "email" := PEmail (JStr (lit email));
       "start_date" := PDate (JStr (lit start_date));
       "cohort" := rich (JStr (lit cohort));
       "expectation" := rich (JStr (lit goal));
       "status" := PSelect (JStr (lit status)) ]}.

(** [n] paid records of the cohort [X] starting on 2024-01-01. *)
Definition paid_records_of_X (n : nat) : list Page :=
  (fun i => mkPage (lit "x" ++ repeat 105%N i)
              {[ "cohort" := rich (JStr (lit "X"));
                 "start_date" := PDate (JStr (lit "2024-01-01"));
                 "status" := PSelect (JStr (lit "paid")) ]}) <$> seq 0 n.

(** Ten paid records of the cohort [spring] starting on 2024-03-01. *)
Definition full_cohort : list Page :=
  map (fun id => record id "paid@x.com" "spring" "2024-03-01" "learn" "paid")
      ["p0"; "p1"; "p2"; "p3"; "p4"; "p5"; "p6"; "p7"; "p8"; "p9"]%string.

Definition ana : Register.Fields :=
  Register.mkFields (lit "Ana") (lit "ana@x.com") (lit "2024-03-01") (lit "spring")
                    (lit "learn basics").

Definition ana_request : JVal :=
  JObj [("name", JStr (lit "Ana")); ("email", JStr (lit "ana@x.com"));
        ("start_date", JStr (lit "2024-03-01")); ("cohort", JStr (lit "spring"));
        ("goal", JStr (lit "learn basics"))].

(** Ana registered before, with another goal, in a cohort with three paid
    records. *)
Definition ana_record : Page :=
  record "ana-1" "ana@x.com" "spring" "2024-03-01" "meet people" "registered".

Definition open_cohort : list Page := take 3 full_cohort ++ [ana_record].

(** A request with no name and no email. *)
Definition nameless : Register.Fields :=
  Register.mkFields [] [] (lit "2024-03-01") (lit "spring") (lit "unknown").

Definition nameless_request : JVal :=
  JObj [("start_date", JStr (lit "2024-03-01")); ("cohort", JStr (lit "spring"))].

(** A paid checkout session of Ana, and the event that carries it. *)
Definition ana_session : JVal :=
  JObj [("id", JStr (lit "cs_test_1"));
        ("payment_status", JStr (lit "paid"));
        ("customer_details", JObj [("email", JStr (lit "ana@x.com"));
                                   ("name", JStr (lit "Ana"))]);
        ("amount_total", JNum 4900);
        ("created", JNum 1709337600);
        ("currency", JStr (lit "usd"))].

Definition ana_paid : JVal :=
  JObj [("type", JStr (lit "checkout.session.completed"));
        ("data", JObj [("object", ana_session)])].


(** ** The patterns of the validator *)

(** The strings a regular expression denotes. *)
Inductive matches : Re -> jstring -> Prop :=
| MEps : matches Eps []
| MClass p c : p c = true -> matches (Class p) [c]
| MSeq r s u v : matches r u -> matches s v -> matches (Seq r s) (u ++ v)
| MAltL r s u : matches r u -> matches (Alt r s) u
| MAltR r s u : matches s u -> matches (Alt r s) u
| MStarNil r : matches (Star r) []
| MStarApp r u v : matches r u -> matches (Star r) v -> matches (Star r) (u ++ v).

(** A part of an address: not empty, with no white space and no [@]. *)
Definition email_part (s : jstring) : Prop :=
  s <> [] /\ Forall (fun c => is_space c = false /\ c <> 64%N) s.

Definition all_space (s : jstring) : Prop := Forall (fun c => is_space c = true) s.

(** ** What a computation answers *)

(** Every result the computation returns satisfies [Q]. *)
Definition results {A} (Q : A -> Prop) (m : M A) : Prop :=
  forall w a, fst (m w) = Return a -> Q a.

(** The computation returns whatever the store and the network do, and its
    result satisfies [Q]. *)
Definition returns {A} (Q : A -> Prop) (m : M A) : Prop :=
  forall w, exists a, fst (m w) = Return a /\ Q a.

(** When the computation throws, it has left the world as it was. *)
Definition fails_cleanly {A} (m : M A) : Prop :=
  forall w e, fst (m w) = Throw e -> snd (m w) = w.

Definition status_in (codes : list Z) (r : Response) : Prop := In (statusCode r) codes.

(** The response lets a page of any origin read it. *)
Definition allows_any_origin (r : Response) : Prop :=
  In ("Access-Control-Allow-Origin"%string, "*"%string) (headers r).

(** The response carries no [Access-Control-Allow-Origin] header. *)
Definition names_no_origin (r : Response) : Prop :=
  forall v, ~ In ("Access-Control-Allow-Origin"%string, v) (headers r).

(** ** A webhook that is stopped on the way *)




(** A request that is not an event to act on. *)
Definition no_payment_event (args : Args) : Prop :=
  forall session email, ~ payment_event args session email.

(** From [w] to [w'] no record was added or removed, and every record with
    the email is paid in [w'], at the same place and with the same
    identifier. *)
Definition every_match_paid (email : JVal) (w w' : World) : Prop :=
  length (store w') = length (store w)
  /\ forall i q, store w !! i = Some q -> has_email email q ->
       exists q', store w' !! i = Some q' /\ page_id q' = page_id q /\ is_paid q'.

(** An expression that, when it throws, throws a [TypeError]. *)
Definition throws_type_errors {A} (o : Outcome A) : Prop :=
  match o with
  | Throw e => kind e = TypeError
  | Return _ => True
  end.

(** What a webhook answers to a request it does not act on: 204 to a
    preflight, 405 to another method, 400 to a body that is no event or to a
    paid session without email, and 200 with [ignored: true]. *)
Definition declined (o : Outcome Response) : Prop :=
  match o with
  | Return resp =>
      In (statusCode resp) [204; 405; 400; 200]
      /\ (statusCode resp = 200 -> body_field resp "ignored" = JBool true)
  | Throw e => kind e = TypeError
  end.

(** [customer_details.email] of a session, when [customer_details] is an
    object. *)
Definition details_email (session : list (string * JVal)) : JVal :=
  match lookup_field "customer_details" session with
  | JObj details => lookup_field "email" details
  | _ => JUndef
  end.

(** The first of the values that is truthy, [null] when none is. *)
Definition first_truthy (a b : JVal) : JVal :=
  if truthy a then a else if truthy b then b else JNull.

(** [session.amount_total || session.amount_subtotal] *)
Definition session_amount (session : list (string * JVal)) : JVal :=
  if truthy (lookup_field "amount_total" session)
  then lookup_field "amount_total" session
  else lookup_field "amount_subtotal" session.

(** The amount of a session is [cents]: its [amount_total], or its
    [amount_subtotal] when [amount_total] is zero, null or absent. *)
Definition amount_in_cents (session : list (string * JVal)) (cents : Z) : Prop :=
  (lookup_field "amount_total" session = JNum cents /\ cents <> 0)
  \/ ((lookup_field "amount_total" session = JNum 0
       \/ lookup_field "amount_total" session = JNull
       \/ lookup_field "amount_total" session = JUndef)
      /\ lookup_field "amount_subtotal" session = JNum cents).

(** ** What no handler changes *)

(** The properties that say who registered for what: the availability gate
    and the lookup of an existing record read them. *)
Definition identity_fields : list string := ["name"; "email"; "cohort"; "start_date"]%string.

(** A call that leaves the properties [ks] of every record as they are: a
    query, a creation, or a patch that names none of them. *)
Definition leaves (ks : list string) (rq : Request) : Prop :=
  match rq with
  | Patch _ props => Forall (fun k => props !! k = None) ks
  | _ => True
  end.

(** Every record is still there, at its place and with its identifier, and
    its properties [ks] are what they were. *)
Definition keeps (ks : list string) (w w' : World) : Prop :=
  forall i p, store w !! i = Some p ->
    exists p', store w' !! i = Some p'
               /\ page_id p' = page_id p
               /\ Forall (fun k => properties p' !! k = properties p !! k) ks.

(** The properties the webhook that records the Stripe session writes. *)
Definition payment_properties : list string :=
  ["status"; "stripe_session_id"; "stripe_link"; "amount_paid"; "payment_date"]%string.

(** Every record is still there, at its place and with its identifier, and
    its properties other than [written] are what they were. *)
Definition writes_only (written : list string) (w w' : World) : Prop :=
  forall i p, store w !! i = Some p ->
    exists p', store w' !! i = Some p'
               /\ page_id p' = page_id p
               /\ forall k, k ∉ written -> properties p' !! k = properties p !! k.

(** The same records, by identifier and in the same order. *)
Definition same_ids (w w' : World) : Prop := page_id <$> store w = page_id <$> store w'.

(** The records that were there, followed by at most one new record. *)
Definition at_most_one_more (w w' : World) : Prop :=
  exists extra, page_id <$> store w' = (page_id <$> store w) ++ extra
                /\ (length extra <= 1)%nat.

Definition registrations (env : Env) : list (Args -> M Response) :=
  [Register.main env; RegisterBasic.main env; RegisterClassDate.main env].

Definition webhooks (env : Env) : list (Args -> M Response) :=
  [Webhook.main env; StripeWebhook.main env].

(** ** Requests the handlers cannot read *)

(** A value that is there and is not text: a number other than zero,
    [true], an array or an object. *)
Definition not_a_string (v : JVal) : Prop := truthy v = true /\ forall s, v <> JStr s.

Definition registration_fields : list string :=
  ["name"; "email"; "start_date"; "cohort"; "goal"]%string.

(** The fields the older handler reads. *)
Definition class_date_fields : list string :=
  ["name"; "email"; "class_date"; "cohort"]%string.

(** What [v.trim()] throws when [v] has no method [trim]. *)
Definition trim_is_not_a_function : JsError :=
  mkError TypeError (lit "trim is not a function").

(** The fields the handlers read from a request that carries none. *)
Definition no_fields : Register.Fields :=
  Register.mkFields [] [] [] (lit "unknown") (lit "unknown").

(** A posted body that cannot be decoded or parsed, or that is empty once
    decoded. *)
Definition unreadable_body (args : Args) : Prop :=
  is_str (ow_method args) "post" = true
  /\ (ow_body args = Malformed \/ ow_body args = Blank).

Definition three_errors : list string :=
  ["name is required"; "valid email is required"; "start_date must be ISO yyyy-mm-dd"]%string.

Definition class_date_errors : list string :=
  ["name is required"; "valid email is required"; "class_date must be ISO yyyy-mm-dd"]%string.

(** ** Calls that are not served on the write path *)

(** The reply to the next call, given the replies to come. *)
Definition first_reply (rs : list Reply) : Reply :=
  match rs with
  | [] => Served
  | r :: _ => r
  end.

(** The record a registration creates in a store. *)
Definition new_record (env : Env) (f : Register.Fields) (st : list Page) : Page :=
  mkPage (new_id env st) (Register.payload f).

Definition goal_update (f : Register.Fields) (p : Page) : Request :=
  Patch (page_id p) (Register.goal_patch (JStr (Register.goal f))).

(** A registration that passes the validator, for a cohort that is not
    full. *)
Definition admissible (args : Args) (f : Register.Fields) (w : World) : Prop :=
  write_request args f
  /\ Register.validate f = Return []
  /\ paid_in_cohort f (store w) < 10.


(** ** One request after another *)

(** The four fields of a request to the older handler. *)
Definition class_date_request (args : Args) (name email class_date cohort : jstring)
    : Prop :=
  is_str (ow_method args) "options" = false
  /\ call_trim (val (Register.parseBody args) .> "name" ||| val (JStr [])) = Return name
  /\ call_trim (val (Register.parseBody args) .> "email" ||| val (JStr [])) = Return email
  /\ call_trim (val (Register.parseBody args) .> "class_date" ||| val (JStr []))
     = Return class_date
  /\ call_trim (val (Register.parseBody args) .> "cohort" ||| val (JStr (lit "unknown")))
     = Return cohort.

(** The record the older handler creates in a store. *)
Definition class_date_record (env : Env) (name email class_date cohort : jstring)
    (st : list Page) : Page :=
  mkPage (new_id env st) (RegisterClassDate.payload name email class_date cohort).

(** Two registrations of the same person for the same cohort and date. *)
Definition same_registration (f f' : Register.Fields) : Prop :=
  Register.email f' = Register.email f
  /\ Register.cohort f' = Register.cohort f
  /\ Register.start_date f' = Register.start_date f.

(** The store holds a paid record of the registration, which the gate
    counts for its cohort and start date. *)
Definition holds_paid_record (f : Register.Fields) (w : World) : Prop :=
  exists i p,
    store w !! i = Some p
    /\ same_triple f p
    /\ is_paid p
    /\ paid_for (JStr (Register.cohort f)) (JStr (Register.start_date f)) p.

(** ** Further sample requests and stores *)

(** A second record of Ana, in another cohort. *)
Definition ana_fall_record : Page :=
  record "ana-2" "ana@x.com" "fall" "2024-09-01" "ship it" "registered".

(** An event of a type the webhooks do not handle. *)
Definition invoice_event : JVal :=
  JObj [("type", JStr (lit "invoice.paid"));
        ("data", JObj [("object", ana_session)])].

(** Two records of Ana in a store that serves two calls and then times
    out. *)
Definition timeout_after_two : World :=
  mkWorld [ana_record; ana_fall_record] [Served; Served; Failed (lit "timeout")] [] [].

(** Ana registers again for the same cohort, with another goal. *)
Definition ana_again : Register.Fields :=
  Register.mkFields (lit "Ana") (lit "ana@x.com") (lit "2024-03-01") (lit "spring")
                    (lit "build an app").

Definition ana_again_request : JVal :=
  JObj [("name", JStr (lit "Ana")); ("email", JStr (lit "ana@x.com"));
        ("start_date", JStr (lit "2024-03-01")); ("cohort", JStr (lit "spring"));
        ("goal", JStr (lit "build an app"))].

(** A paid session of Ana with no creation time. *)
Definition undated_session : JVal :=
  JObj [("id", JStr (lit "cs_test_2"));
        ("payment_status", JStr (lit "paid"));
        ("customer_email", JStr (lit "ana@x.com"));
        ("amount_total", JNum 0);
        ("amount_subtotal", JNum 4900)].

Definition undated_paid : JVal :=
  JObj [("type", JStr (lit "checkout.session.completed"));
        ("data", JObj [("object", undated_session)])].

(** A session of 49.99 dollars. *)
Definition odd_cents_session : list (string * JVal) :=
  [("id", JStr (lit "cs_test_3"));
   ("payment_status", JStr (lit "paid"));
   ("customer_email", JStr (lit "ana@x.com"));
   ("amount_total", JNum 4999);
   ("created", JNum 1709337600)].

(** A paid session of Ana whose creation time is an object with a property
    [toString] of its own, and the event that carries it. *)
Definition object_created_session : JVal :=
  JObj [("id", JStr (lit "cs_test_4"));
        ("payment_status", JStr (lit "paid"));
        ("customer_email", JStr (lit "ana@x.com"));
        ("amount_total", JNum 4900);
        ("created", JObj [("valueOf", JNum 1); ("toString", JNum 1)])].

Definition object_created_paid : JVal :=
  JObj [("type", JStr (lit "checkout.session.completed"));
        ("data", JObj [("object", object_created_session)])].

(** Ana's request to the older handler. *)
Definition ana_class_date_request : JVal :=
  JObj [("name", JStr (lit "Ana")); ("email", JStr (lit "ana@x.com"));
        ("class_date", JStr (lit "2024-03-01")); ("cohort", JStr (lit "spring"))].

(** A paid session of Ana whose identifier is an object with a property
    [toString] of its own, and the event that carries it. *)
Definition object_id_session : JVal :=
  JObj [("id", JObj [("toString", JNum 1)]);
        ("payment_status", JStr (lit "paid"));
        ("customer_details", JObj [("email", JStr (lit "ana@x.com"))]);
        ("amount_total", JNum 4900);
        ("created", JNum 1709337600)].

Definition object_id_paid : JVal :=
  JObj [("type", JStr (lit "checkout.session.completed"));
        ("data", JObj [("object", object_id_session)])].

(** Ana's record, paid. *)
Definition ana_paid_record : Page :=
  record "ana-1" "ana@x.com" "spring" "2024-03-01" "meet people" "paid".

(** * Properties *)

(** ** The store *)

Lemma reliable_next (w : World) : reliable w -> next_reply w = Served.
Proof.
  unfold reliable, next_reply. destruct (replies w); [reflexivity|].
  intros H. inversion H; assumption.
Qed.

Lemma reliable_tail st (w : World) cs co :
  reliable w -> reliable (mkWorld st (tail (replies w)) cs co).
Proof.
  unfold reliable. simpl. destruct (replies w); simpl; [auto|].
  intros H. inversion H; assumption.
Qed.

Section FetchFacts.
Variable env : Env.

Lemma fetch_query (f : Filter) (w : World) :
  next_reply w = Served ->
  fetch env (Query f) w =
    (Return (RespOk (Results (List.filter (filter_holds f) (store w)))),
     mkWorld (store w) (tail (replies w)) (calls w ++ [Query f]) (console w)).
Proof. intros H. unfold fetch. rewrite H. reflexivity. Qed.

Lemma fetch_create (props : gmap string PropVal) (w : World) :
  next_reply w = Served ->
  fetch env (Create props) w =
    (Return (RespOk (PageObject (mkPage (new_id env (store w)) props))),
     mkWorld (store w ++ [mkPage (new_id env (store w)) props])
             (tail (replies w)) (calls w ++ [Create props]) (console w)).
Proof. intros H. unfold fetch. rewrite H. reflexivity. Qed.

Lemma fetch_patch (pid : jstring) (props : gmap string PropVal) (p : Page) (w : World) :
  next_reply w = Served ->
  find_page pid (store w) = Some p ->
  fetch env (Patch pid props) w =
    (Return (RespOk (PageObject (patch_page pid props p))),
     mkWorld (patch_page pid props <$> store w)
             (tail (replies w)) (calls w ++ [Patch pid props]) (console w)).
Proof. intros H Hp. unfold fetch. rewrite H, Hp. reflexivity. Qed.

Lemma fetch_not_served (rq : Request) (w : World) :
  next_reply w <> Served ->
  exists o, fetch env rq w =
    (o, mkWorld (store w) (tail (replies w)) (calls w ++ [rq]) (console w))
    /\ (forall json, o <> Return (RespOk json)).
Proof.
  intros H. unfold fetch. destruct (next_reply w); [congruence | |];
    eexists; (split; [reflexivity | congruence]).
Qed.
End FetchFacts.

Lemma find_page_In (pid : jstring) (st : list Page) (p : Page) :
  In p st -> page_id p = pid -> exists q, find_page pid st = Some q.
Proof.
  intros Hin Hid. unfold find_page.
  destruct (find _ st) as [q|] eqn:E; [eauto|].
  exfalso. eapply find_none in E; [|exact Hin].
  rewrite bool_decide_eq_false in E. auto.
Qed.

(** ** The availability gate (C2) *)

Lemma cond_holds_rich_text k v p :
  cond_holds (mkCond k rich_text v) p = true <-> properties p !! k = Some (PRichText v).
Proof.
  unfold cond_holds; simpl.
  destruct (properties p !! k) as [[]|]; split; intros H; try discriminate;
    try (inversion H; subst; apply jval_eqb_refl).
  apply jval_eqb_eq in H. congruence.
Qed.

Lemma cond_holds_select k v p :
  cond_holds (mkCond k select v) p = true <-> properties p !! k = Some (PSelect v).
Proof.
  unfold cond_holds; simpl.
  destruct (properties p !! k) as [[]|]; split; intros H; try discriminate;
    try (inversion H; subst; apply jval_eqb_refl).
  apply jval_eqb_eq in H. congruence.
Qed.

Lemma cond_holds_email k v p :
  cond_holds (mkCond k Notion.email v) p = true <-> properties p !! k = Some (PEmail v).
Proof.
  unfold cond_holds; simpl.
  destruct (properties p !! k) as [[]|]; split; intros H; try discriminate;
    try (inversion H; subst; apply jval_eqb_refl).
  apply jval_eqb_eq in H. congruence.
Qed.

Lemma cond_holds_date k v p :
  cond_holds (mkCond k date v) p = true <-> properties p !! k = Some (PDate v).
Proof.
  unfold cond_holds; simpl.
  destruct (properties p !! k) as [[]|]; split; intros H; try discriminate;
    try (inversion H; subst; apply jval_eqb_refl).
  apply jval_eqb_eq in H. congruence.
Qed.

(** The Stdlib filter by a boolean test is stdpp's filter by the property
    the test decides. *)
Lemma filter_bool_prop {A} (f : A -> bool) (P : A -> Prop) `{!forall x, Decision (P x)}
    (l : list A) :
  (forall x, f x = true <-> P x) -> List.filter f l = filter P l.
Proof.
  intros Hf. induction l as [|x l IH]; [reflexivity|].
  simpl. rewrite filter_cons. destruct (decide (P x)) as [HP|HP].
  - apply Hf in HP. rewrite HP, IH. reflexivity.
  - destruct (f x) eqn:E; [apply Hf in E; contradiction | exact IH].
Qed.

Lemma gate_filter_holds cohort startDate p :
  filter_holds (Register.gate_filter cohort startDate) p = true
  <-> paid_for cohort startDate p.
Proof.
  unfold Register.gate_filter, paid_for, filter_holds.
  rewrite forallb_app. simpl.
  rewrite !andb_true_iff, cond_holds_rich_text, cond_holds_select.
  destruct (truthy startDate); simpl.
  - rewrite !andb_true_iff, cond_holds_date. intuition.
  - intuition discriminate.
Qed.

Lemma truthy_default_null v :
  truthy match v with JUndef => JNull | _ => v end = truthy v.
Proof. destruct v; reflexivity. Qed.

Lemma paid_for_default_null cohort v p :
  paid_for cohort match v with JUndef => JNull | _ => v end p <-> paid_for cohort v p.
Proof. destruct v; try reflexivity. unfold paid_for. simpl. intuition discriminate. Qed.

Lemma gate_served env cohort startDate w :
  next_reply w = Served ->
  Register.checkCohortAvailability env cohort startDate w =
    (Return (availability_of (paid_count cohort startDate (store w))),
     mkWorld (store w) (tail (replies w))
       (calls w ++ [Query (Register.gate_filter cohort
                             match startDate with JUndef => JNull | _ => startDate end)])
       (console w)).
Proof.
  intros H. unfold Register.checkCohortAvailability, try_catch, bind.
  rewrite fetch_query by exact H. simpl. unfold eval, ret, availability_of, paid_count.
  rewrite (filter_bool_prop _ (paid_for cohort startDate)); [reflexivity|].
  intros p. rewrite gate_filter_holds. apply paid_for_default_null.
Qed.

(** C2. For every cohort and optional start date, when the store answers the
    query, the availability gate returns [isAvailable = (paid count < 10)],
    [spotsLeft = max(0, 10 - paid count)] and the paid count itself, where the
    paid count is the number of records of the store whose cohort is the given
    one, whose status is paid and, when a date is supplied, whose start date
    is that date; with 10 such records it answers not available with 0 spots
    left, and with 3 it answers 7 spots left. The store is left as it was. *)
Theorem availability_gate_counts_paid_records env cohort startDate w :
  next_reply w = Served ->
  let n := paid_count cohort startDate (store w) in
  let r := Register.checkCohortAvailability env cohort startDate w in
  fst r = Return (Register.mkAvailability (n <? 10) (Z.max 0 (10 - n)) n)
  /\ store (snd r) = store w
  /\ (n = 10 -> fst r = Return (Register.mkAvailability false 0 10))
  /\ (n = 3 -> fst r = Return (Register.mkAvailability true 7 3)).
Proof.
  intros H n r. subst r. rewrite gate_served by exact H. simpl.
  fold n. unfold availability_of.
  repeat split; intros ->; reflexivity.
Qed.

(** With 10 paid records of the cohort [X] on 2024-01-01 the gate answers
    not available and 0 spots left; with 3 it answers 7 spots left. *)
Lemma availability_gate_counts_paid_records_witness :
  next_reply (mkWorld (paid_records_of_X 10) [] [] []) = Served
  /\ (forall env,
        fst (Register.checkCohortAvailability env (JStr (lit "X")) (JStr (lit "2024-01-01"))
               (mkWorld (paid_records_of_X 10) [] [] []))
        = Return (Register.mkAvailability false 0 10))
  /\ (forall env,
        fst (Register.checkCohortAvailability env (JStr (lit "X")) (JStr (lit "2024-01-01"))
               (mkWorld (paid_records_of_X 3) [] [] []))
        = Return (Register.mkAvailability true 7 3)).
Proof.
  split; [reflexivity|]. split; intros env.
  - apply (availability_gate_counts_paid_records env (JStr (lit "X"))
             (JStr (lit "2024-01-01")) (mkWorld (paid_records_of_X 10) [] [] []) eq_refl).
    vm_compute. reflexivity.
  - apply (availability_gate_counts_paid_records env (JStr (lit "X"))
             (JStr (lit "2024-01-01")) (mkWorld (paid_records_of_X 3) [] [] []) eq_refl).
    vm_compute. reflexivity.
Defined.

(** ** The validator (C6) *)

Lemma validEmail_string (s : jstring) :
  Register.validEmail (JStr s) = Return (test EMAIL_RE (trim s)).
Proof.
  unfold Register.validEmail, call_trim, or_else, val, obind. simpl.
  unfold jstring_eqb. destruct (bool_decide (s = [])) eqn:E; simpl; [|reflexivity].
  apply bool_decide_eq_true in E. subst. reflexivity.
Qed.

Lemma validate_entries (f : Register.Fields) :
  Register.validate f =
    Return (entry_if (name_missing f) "name is required"
            ++ entry_if (email_malformed f) "valid email is required"
            ++ entry_if (date_malformed f) "start_date must be ISO yyyy-mm-dd").
Proof.
  unfold Register.validate. rewrite validEmail_string. simpl.
  unfold name_missing, email_malformed, date_malformed, entry_if.
  destruct (jstring_eqb (Register.name f) []),
           (test EMAIL_RE (trim (Register.email f))),
           (test ISO_DATE_RE (Register.start_date f)); reflexivity.
Qed.

(** *** The strings the patterns denote *)

Lemma matches_seq r s w :
  matches (Seq r s) w <-> exists u v, w = u ++ v /\ matches r u /\ matches s v.
Proof.
  split.
  - intros H. inversion H; subst. eauto.
  - intros (u & v & -> & Hu & Hv). constructor; assumption.
Qed.

Lemma matches_alt r s w : matches (Alt r s) w <-> matches r w \/ matches s w.
Proof.
  split.
  - intros H. inversion H; subst; auto.
  - intros [H|H]; [apply MAltL | apply MAltR]; exact H.
Qed.

Lemma matches_class p w : matches (Class p) w <-> exists c, w = [c] /\ p c = true.
Proof.
  split.
  - intros H. inversion H; subst. eauto.
  - intros (c & -> & Hc). constructor. exact Hc.
Qed.

Lemma matches_eps w : matches Eps w <-> w = [].
Proof. split; [intros H; inversion H; reflexivity | intros ->; constructor]. Qed.

Lemma matches_void w : ~ matches Void w.
Proof. intros H. inversion H. Qed.

Lemma nullable_matches r : nullable r = true <-> matches r [].
Proof.
  induction r as [ | | p | r IHr s IHs | r IHr s IHs | r IHr]; simpl.
  - split; [discriminate | intros H; inversion H].
  - split; [constructor | reflexivity].
  - split; [discriminate | intros H; inversion H].
  - rewrite andb_true_iff, IHr, IHs, matches_seq. split.
    + intros [Hr Hs]. exists [], []. auto.
    + intros (u & v & Heq & Hu & Hv). symmetry in Heq.
      apply app_eq_nil in Heq as [-> ->]. auto.
  - rewrite orb_true_iff, IHr, IHs, matches_alt. reflexivity.
  - split; [constructor | reflexivity].
Qed.

(** A non-empty string of [Star r] starts with a non-empty string of [r]. *)
Lemma matches_star_cons r c s :
  matches (Star r) (c :: s) ->
  exists u v, s = u ++ v /\ matches r (c :: u) /\ matches (Star r) v.
Proof.
  intros H. remember (Star r) as sr eqn:Hsr. remember (c :: s) as cs eqn:Hcs.
  revert c s Hcs.
  induction H as [ | | | | | r' | r' u v Hu _ Hv IHv]; intros a t Hcs;
    try discriminate.
  injection Hsr as ->. destruct u as [|a' u].
  - simpl in Hcs. apply IHv; [reflexivity | exact Hcs].
  - simpl in Hcs. injection Hcs as -> <-. exists u, v. auto.
Qed.

Lemma matches_seq_cons r s c w :
  matches (Seq r s) (c :: w) <->
  (exists u v, w = u ++ v /\ matches r (c :: u) /\ matches s v)
  \/ (matches r [] /\ matches s (c :: w)).
Proof.
  rewrite matches_seq. split.
  - intros (u & v & Heq & Hu & Hv). destruct u as [|c' u]; simpl in Heq.
    + right. subst v. auto.
    + injection Heq as -> ->. left. eauto.
  - intros [(u & v & -> & Hu & Hv) | [Hr Hs]].
    + exists (c :: u), v. auto.
    + exists [], (c :: w). auto.
Qed.

Lemma deriv_matches r : forall c s, matches (deriv c r) s <-> matches r (c :: s).
Proof.
  induction r as [ | | p | r IHr s' IHs | r IHr s' IHs | r IHr]; intros c s; simpl.
  - split; intros H; inversion H.
  - split; intros H; inversion H.
  - destruct (p c) eqn:E.
    + rewrite matches_eps, matches_class. split.
      * intros ->. eauto.
      * intros (c' & [= -> ->] & _). reflexivity.
    + rewrite matches_class. split; [intros H; inversion H|].
      intros (c' & [= -> ->] & H). congruence.
  - assert (matches (Seq (deriv c r) s') s <->
            exists u v, s = u ++ v /\ matches r (c :: u) /\ matches s' v) as Hseq.
    { rewrite matches_seq. split; intros (u & v & Heq & Hu & Hv);
        exists u, v; (split; [exact Heq|]); (split; [apply IHr, Hu | exact Hv]). }
    rewrite matches_seq_cons. destruct (nullable r) eqn:En.
    + rewrite matches_alt, Hseq, IHs, <- nullable_matches, En. tauto.
    + rewrite Hseq, <- nullable_matches, En. intuition discriminate.
  - rewrite !matches_alt, IHr, IHs. reflexivity.
  - split.
    + rewrite matches_seq. intros (u & v & -> & Hu & Hv).
      apply (MStarApp r (c :: u) v); [apply IHr, Hu | exact Hv].
    + intros H. apply matches_star_cons in H as (u & v & -> & Hu & Hv).
      apply MSeq; [apply IHr, Hu | exact Hv].
Qed.

(** The matcher decides the denotation. *)
Lemma test_matches r s : test r s = true <-> matches r s.
Proof.
  revert r. induction s as [|c s IH]; intros r; simpl.
  - apply nullable_matches.
  - rewrite IH. apply deriv_matches.
Qed.

Lemma matches_star_class p w :
  matches (Star (Class p)) w <-> Forall (fun c => p c = true) w.
Proof.
  split.
  - intros H. remember (Star (Class p)) as sr eqn:Hsr.
    induction H as [ | | | | | r | r u v Hu _ Hv IHv]; try discriminate.
    + constructor.
    + injection Hsr as ->. apply matches_class in Hu as (c & -> & Hc).
      constructor; [exact Hc | apply IHv; reflexivity].
  - induction 1 as [|c w Hc _ IH]; [constructor|].
    apply (MStarApp (Class p) [c] w); [constructor; exact Hc | exact IH].
Qed.

Lemma matches_plus_class p w :
  matches (Plus (Class p)) w <-> w <> [] /\ Forall (fun c => p c = true) w.
Proof.
  unfold Plus. rewrite matches_seq. split.
  - intros (u & v & -> & Hu & Hv). apply matches_class in Hu as (c & -> & Hc).
    apply matches_star_class in Hv. split; [discriminate | constructor; assumption].
  - intros [Hne Hall]. destruct w as [|c w]; [congruence|].
    inversion Hall; subst. exists [c], w.
    split; [reflexivity|]. split; [constructor; assumption | apply matches_star_class; assumption].
Qed.

Lemma matches_chr c w : matches (Chr c) w <-> w = [c].
Proof.
  unfold Chr. rewrite matches_class. split.
  - intros (c' & -> & H). apply N.eqb_eq in H. congruence.
  - intros ->. exists c. split; [reflexivity | apply N.eqb_refl].
Qed.

Lemma not_space_or_at_spec c :
  not_space_or_at c = true <-> is_space c = false /\ c <> 64%N.
Proof.
  unfold not_space_or_at. rewrite negb_true_iff, orb_false_iff, N.eqb_neq. reflexivity.
Qed.

Lemma matches_email_part w :
  matches (Plus (Class not_space_or_at)) w <-> email_part w.
Proof.
  rewrite matches_plus_class. unfold email_part.
  split; intros [Hne Hall]; (split; [exact Hne|]);
    eapply Forall_impl; try exact Hall; intros c Hc; apply not_space_or_at_spec, Hc.
Qed.

Lemma matches_EMAIL_RE w :
  matches EMAIL_RE w <->
  exists a b c, w = a ++ [64%N] ++ b ++ [46%N] ++ c
                /\ email_part a /\ email_part b /\ email_part c.
Proof.
  unfold EMAIL_RE. split.
  - intros H.
    apply matches_seq in H as (a & w1 & -> & Ha & H).
    apply matches_seq in H as (at_ & w2 & -> & Hat & H).
    apply matches_seq in H as (b & w3 & -> & Hb & H).
    apply matches_seq in H as (dot & c & -> & Hdot & Hc).
    apply matches_chr in Hat as ->. apply matches_chr in Hdot as ->.
    exists a, b, c. rewrite <- !matches_email_part. auto.
  - intros (a & b & c & -> & Ha & Hb & Hc).
    apply MSeq; [apply matches_email_part, Ha|].
    apply MSeq; [apply matches_chr; reflexivity|].
    apply MSeq; [apply matches_email_part, Hb|].
    apply MSeq; [apply matches_chr; reflexivity | apply matches_email_part, Hc].
Qed.

Lemma matches_class_seq p r w :
  matches (Seq (Class p) r) w <-> exists c t, w = c :: t /\ p c = true /\ matches r t.
Proof.
  rewrite matches_seq. split.
  - intros (u & v & -> & Hu & Hv). apply matches_class in Hu as (c & -> & Hc). eauto.
  - intros (c & t & -> & Hc & Ht). exists [c], t.
    split; [reflexivity|]. split; [constructor; exact Hc | exact Ht].
Qed.

Lemma matches_ISO_DATE_RE (s : jstring) :
  matches ISO_DATE_RE s
  <-> exists y1 y2 y3 y4 m1 m2 d1 d2,
        s = [y1; y2; y3; y4; 45%N; m1; m2; 45%N; d1; d2]
        /\ Forall (fun c => is_digit c = true) [y1; y2; y3; y4; m1; m2; d1; d2].
Proof.
  unfold ISO_DATE_RE. cbv zeta. split.
  - intros H.
    apply matches_class_seq in H as (y1 & t1 & -> & Hy1 & H).
    apply matches_class_seq in H as (y2 & t2 & -> & Hy2 & H).
    apply matches_class_seq in H as (y3 & t3 & -> & Hy3 & H).
    apply matches_class_seq in H as (y4 & t4 & -> & Hy4 & H).
    apply matches_class_seq in H as (h1 & t5 & -> & Hh1 & H).
    apply matches_class_seq in H as (m1 & t6 & -> & Hm1 & H).
    apply matches_class_seq in H as (m2 & t7 & -> & Hm2 & H).
    apply matches_class_seq in H as (h2 & t8 & -> & Hh2 & H).
    apply matches_class_seq in H as (d1 & t9 & -> & Hd1 & H).
    apply matches_class in H as (d2 & -> & Hd2).
    apply N.eqb_eq in Hh1 as <-, Hh2 as <-.
    exists y1, y2, y3, y4, m1, m2, d1, d2.
    split; [reflexivity | repeat constructor; assumption].
  - intros (y1 & y2 & y3 & y4 & m1 & m2 & d1 & d2 & -> & Hall).
    repeat match goal with H : Forall _ (_ :: _) |- _ => inversion H; clear H; subst end.
    repeat (apply matches_class_seq; eexists _, _;
            split; [reflexivity|]; split; [first [assumption | reflexivity]|]).
    apply matches_class. eauto.
Qed.

(** *** Trimming *)

Lemma trimStart_spaces pre s : all_space pre -> trimStart (pre ++ s) = trimStart s.
Proof.
  induction 1 as [|c pre Hc _ IH]; [reflexivity|]. simpl. rewrite Hc. exact IH.
Qed.

Lemma all_space_rev s : all_space s -> all_space (rev s).
Proof.
  unfold all_space. rewrite !Forall_forall. intros H c Hc.
  apply H. apply list_elem_of_In, in_rev, list_elem_of_In. exact Hc.
Qed.

Lemma trimStart_all_space s : all_space s -> trimStart s = [].
Proof. intros H. rewrite <- (app_nil_r s). apply (trimStart_spaces s [] H). Qed.

Lemma trimEnd_spaces s post :
  all_space post -> trimStart (rev (trimStart (s ++ post))) = trimStart (rev (trimStart s)).
Proof.
  intros Hpost. induction s as [|c s IH]; simpl.
  - rewrite (trimStart_all_space post Hpost). reflexivity.
  - destruct (is_space c) eqn:Hc; [exact IH|].
    change (c :: s ++ post) with ((c :: s) ++ post).
    rewrite rev_app_distr. apply trimStart_spaces, all_space_rev, Hpost.
Qed.

Lemma trim_spaces pre s post :
  all_space pre -> all_space post -> trim (pre ++ s ++ post) = trim s.
Proof.
  intros Hpre Hpost. unfold trim.
  rewrite (trimStart_spaces pre _ Hpre), (trimEnd_spaces s post Hpost). reflexivity.
Qed.

Lemma trimStart_decompose s : exists pre, s = pre ++ trimStart s /\ all_space pre.
Proof.
  induction s as [|c s (pre & Hs & Hpre)]; [exists []; split; [reflexivity | constructor]|].
  simpl. destruct (is_space c) eqn:Hc.
  - exists (c :: pre). split; [simpl; f_equal; exact Hs | constructor; assumption].
  - exists []. split; [reflexivity | constructor].
Qed.

Lemma trim_decompose s :
  exists pre post, s = pre ++ trim s ++ post /\ all_space pre /\ all_space post.
Proof.
  destruct (trimStart_decompose s) as (pre & Hs & Hpre).
  destruct (trimStart_decompose (rev (trimStart s))) as (post & Hr & Hpost).
  exists pre, (rev post). unfold trim. split; [|split; [exact Hpre | apply all_space_rev, Hpost]].
  rewrite <- rev_app_distr, <- Hr, rev_involutive. exact Hs.
Qed.

Lemma trimStart_head c s : is_space c = false -> trimStart (c :: s) = c :: s.
Proof. intros H. simpl. rewrite H. reflexivity. Qed.

(** A string that begins and ends with a part of an address has nothing to
    trim. *)
Lemma trim_between_parts a m c :
  email_part a -> email_part c -> trim (a ++ m ++ c) = a ++ m ++ c.
Proof.
  intros [Ha Hall] [Hc Hcall]. unfold trim.
  destruct a as [|a0 a]; [contradiction|]. inversion Hall as [|? ? [Ha0 _] _]; subst.
  change ((a0 :: a) ++ m ++ c) with (a0 :: a ++ m ++ c).
  rewrite (trimStart_head a0 _ Ha0).
  assert (exists cl rest, rev (a0 :: a ++ m ++ c) = cl :: rest /\ is_space cl = false)
    as (cl & rest & Hrev & Hcl).
  { destruct (rev c) as [|cl r] eqn:Er.
    - apply (f_equal (@rev N)) in Er. rewrite rev_involutive in Er. contradiction.
    - exists cl, (r ++ rev (a0 :: a ++ m)). split.
      + change (a0 :: a ++ m ++ c) with ((a0 :: a) ++ m ++ c).
        rewrite app_assoc, rev_app_distr, Er. reflexivity.
      + assert (In cl c) as Hin by (apply in_rev; rewrite Er; left; reflexivity).
        rewrite Forall_forall in Hcall.
        apply list_elem_of_In, Hcall in Hin as [H _]. exact H. }
  rewrite Hrev, (trimStart_head cl rest Hcl), <- Hrev. apply rev_involutive.
Qed.

(** *** The rules, said of the strings *)

Lemma is_space_spec c : is_space c = true <-> white_space c.
Proof.
  unfold is_space, white_space.
  rewrite !orb_true_iff, !andb_true_iff, !N.leb_le, !N.eqb_eq. tauto.
Qed.

Lemma is_digit_spec c : is_digit c = true <-> digit c.
Proof. unfold is_digit, digit. rewrite andb_true_iff, !N.leb_le. reflexivity. Qed.

Lemma all_space_white_space s : all_space s <-> Forall white_space s.
Proof. apply Forall_iff. intros c. apply is_space_spec. Qed.

Lemma email_part_address_part s : email_part s <-> address_part s.
Proof.
  unfold email_part, address_part.
  assert (Forall (fun c => is_space c = false /\ c <> 64%N) s
          <-> Forall (fun c => ~ white_space c /\ c <> 64%N) s) as ->; [|reflexivity].
  apply Forall_iff. intros c. rewrite <- is_space_spec, not_true_iff_false. reflexivity.
Qed.

Lemma validEmail_well_formed s :
  test EMAIL_RE (trim s) = true <-> well_formed_email s.
Proof.
  rewrite test_matches, matches_EMAIL_RE. split.
  - intros (a & b & c & Htrim & Ha & Hb & Hc).
    destruct (trim_decompose s) as (pre & post & Hs & Hpre & Hpost).
    exists pre, a, b, c, post. rewrite <- Htrim.
    split; [exact Hs|]. rewrite <- !all_space_white_space, <- !email_part_address_part. auto.
  - intros (pre & a & b & c & post & -> & Hpre & Hpost & Ha & Hb & Hc).
    rewrite <- all_space_white_space in Hpre, Hpost.
    rewrite <- email_part_address_part in Ha, Hb, Hc.
    exists a, b, c. split; [|auto].
    rewrite (trim_spaces pre _ post Hpre Hpost).
    pose proof (trim_between_parts a ([64%N] ++ b ++ [46%N]) c Ha Hc) as Htrim.
    rewrite <- !app_assoc in Htrim. exact Htrim.
Qed.

Lemma date_shape s : test ISO_DATE_RE s = true <-> iso_date_shape s.
Proof.
  rewrite test_matches, matches_ISO_DATE_RE. unfold iso_date_shape.
  split; intros (y1 & y2 & y3 & y4 & m1 & m2 & d1 & d2 & Hs & Hall);
    exists y1, y2, y3, y4, m1, m2, d1, d2; (split; [exact Hs|]);
    eapply Forall_impl; try exact Hall; intros c Hc; apply is_digit_spec, Hc.
Qed.

Ltac entry_in_list :=
  simpl; split; intros H;
  [ first [ reflexivity
          | exfalso; repeat (destruct H as [H|H]; [discriminate H|]); exact H ]
  | first [ discriminate H | tauto ] ].

(** C6. For every input the validator returns the list of the violated
    rules, all of them together and each of them once, in the order of the
    rules: [name is required] is in the list exactly when the name is empty,
    [valid email is required] exactly when the email, white space around it
    apart, is not of the form [a@b.c] with [a], [b] and [c] not empty and free
    of white space and of [@], and [start_date must be ISO yyyy-mm-dd] exactly
    when the start date is not four digits, a hyphen, two digits, a hyphen
    and two digits. So the list is not empty as soon as a rule is violated,
    and a missing name together with a bad email and a good date gives
    exactly these two entries. *)
Theorem validator_lists_every_violation (f : Register.Fields) :
  exists errors,
    Register.validate f = Return errors
    /\ (In "name is required"%string errors <-> Register.name f = [])
    /\ (In "valid email is required"%string errors
        <-> ~ well_formed_email (Register.email f))
    /\ (In "start_date must be ISO yyyy-mm-dd"%string errors
        <-> ~ iso_date_shape (Register.start_date f))
    /\ sublist errors validator_messages
    /\ (Register.name f = [] ->
        ~ well_formed_email (Register.email f) ->
        iso_date_shape (Register.start_date f) ->
        errors = ["name is required"; "valid email is required"]%string).
Proof.
  eexists. split; [apply validate_entries|].
  assert (name_missing f = true <-> Register.name f = []) as Hname
    by apply jstring_eqb_eq.
  assert (email_malformed f = true <-> ~ well_formed_email (Register.email f)) as Hemail.
  { unfold email_malformed.
    rewrite negb_true_iff, <- not_true_iff_false, validEmail_well_formed. reflexivity. }
  assert (date_malformed f = true <-> ~ iso_date_shape (Register.start_date f)) as Hdate.
  { unfold date_malformed.
    rewrite negb_true_iff, <- not_true_iff_false, date_shape. reflexivity. }
  split; [|split; [|split; [|split]]].
  - rewrite <- Hname. clear. unfold entry_if.
    destruct (name_missing f), (email_malformed f), (date_malformed f); entry_in_list.
  - rewrite <- Hemail. clear. unfold entry_if.
    destruct (name_missing f), (email_malformed f), (date_malformed f); entry_in_list.
  - rewrite <- Hdate. clear. unfold entry_if.
    destruct (name_missing f), (email_malformed f), (date_malformed f); entry_in_list.
  - unfold entry_if, validator_messages.
    destruct (name_missing f), (email_malformed f), (date_malformed f); simpl;
      repeat first [apply sublist_nil | apply sublist_skip | apply sublist_cons].
  - intros Hn He Hd. apply Hname in Hn. apply Hemail in He.
    assert (date_malformed f = false) as Hdm.
    { destruct (date_malformed f); [|reflexivity]. destruct (proj1 Hdate eq_refl Hd). }
    rewrite Hn, He, Hdm. reflexivity.
Qed.

(** A request with no name and an email without [@]: two entries; with a
    date that is no date as well: three. *)
Example validator_examples :
  Register.validate (Register.mkFields [] (lit "ana.x.com") (lit "2024-03-01")
                       (lit "spring") (lit "learn"))
  = Return ["name is required"; "valid email is required"]%string
  /\ Register.validate (Register.mkFields [] (lit "ana@x") (lit "1 March")
                          (lit "spring") (lit "learn"))
     = Return validator_messages
  /\ Register.validate (Register.mkFields (lit "Ana") (lit "ana@x.com") (lit "2024-13-45")
                          (lit "spring") (lit "learn"))
     = Return [].
Proof. repeat split; reflexivity. Qed.

(** ** The registration flow *)

Section RegisterFacts.
Variable env : Env.

Lemma gate_admits f w :
  next_reply w = Served -> paid_in_cohort f (store w) < 10 ->
  Register.gate env f w = (Return None, after_call w (gate_query f)).
Proof.
  intros H Hn. unfold Register.gate, try_catch, bind.
  rewrite gate_served by exact H. simpl.
  unfold paid_in_cohort in Hn. apply Z.ltb_lt in Hn. rewrite Hn. reflexivity.
Qed.

Lemma gate_rejects f w :
  next_reply w = Served -> 10 <= paid_in_cohort f (store w) ->
  Register.gate env f w = (Return (Some (Register.cohort_full f)), after_call w (gate_query f)).
Proof.
  intros H Hn. unfold Register.gate, try_catch, bind.
  rewrite gate_served by exact H. simpl.
  unfold paid_in_cohort in Hn. apply Z.ltb_ge in Hn. rewrite Hn. reflexivity.
Qed.

Lemma gate_throws cohort startDate w :
  next_reply w <> Served ->
  exists msg,
    Register.checkCohortAvailability env cohort startDate w =
      (Throw (mkError PlainError (lit "Failed to check availability: " ++ msg)),
       after_call w (Query (Register.gate_filter cohort
                              match startDate with JUndef => JNull | _ => startDate end))).
Proof.
  intros H. unfold Register.checkCohortAvailability, try_catch, bind, fetch.
  destruct (next_reply w) as [|json|msg]; [congruence| |]; simpl;
    eexists; reflexivity.
Qed.

Lemma gate_fails_open f w :
  next_reply w <> Served ->
  exists msg,
    Register.gate env f w =
      (Return None, logged (after_call w (gate_query f)) "Availability check failed:" msg).
Proof.
  intros H. unfold Register.gate, try_catch, bind.
  destruct (gate_throws (JStr (Register.cohort f)) (JStr (Register.start_date f)) w H)
    as [msg ->].
  simpl. eexists. reflexivity.
Qed.

Lemma main_write_request args f w :
  write_request args f ->
  Register.main env args w = Register.register env f w.
Proof.
  intros (Hm & (v & Hv & Hf) & Hr). unfold Register.main.
  rewrite Hm. cbv beta iota zeta. unfold bind, eval. rewrite Hv.
  assert (exists d, (val (Register.parseBody args) .> "check-date"
                     ||| val (Register.parseBody args) .> "checkDate") = Return d) as [d ->].
  { destruct (Register.parseBody args); try discriminate;
      unfold or_else, member, val, obind, get;
      match goal with
      | |- context [truthy ?x] => destruct (truthy x); eauto
      end. }
  rewrite Hf, Hr. reflexivity.
Qed.

End RegisterFacts.

Lemma triple_filter_holds f p :
  filter_holds (Register.triple_filter (JStr (Register.email f)) (JStr (Register.cohort f))
                                       (JStr (Register.start_date f))) p = true
  <-> same_triple f p.
Proof.
  unfold Register.triple_filter, same_triple, filter_holds. simpl.
  rewrite !andb_true_iff, cond_holds_email, cond_holds_rich_text, cond_holds_date.
  intuition.
Qed.

Lemma reliable_after_call w rq : reliable w -> reliable (after_call w rq).
Proof. apply reliable_tail. Qed.

Lemma filter_head_In {A} (P : A -> Prop) `{!forall x, Decision (P x)} (l : list A) x rest :
  filter P l = x :: rest -> In x l /\ P x.
Proof.
  intros Hf. assert (x ∈ filter P l) as Hx by (rewrite Hf; left).
  apply list_elem_of_filter in Hx as [HP Hin]. split; [|exact HP].
  apply list_elem_of_In, Hin.
Qed.

Lemma find_page_head (p : Page) (st : list Page) :
  In p st -> exists q, find_page (page_id p) st = Some q.
Proof. intros H. eapply find_page_In; [exact H | reflexivity]. Qed.

Section UpsertFacts.
Variable env : Env.

Lemma find_served f w :
  next_reply w = Served ->
  Register.findExistingRecord env (JStr (Register.email f)) (JStr (Register.cohort f))
      (JStr (Register.start_date f)) w =
    (Return (head (filter (same_triple f) (store w))), after_call w (triple_query f)).
Proof.
  intros H. unfold Register.findExistingRecord, try_catch, bind.
  rewrite fetch_query by exact H. simpl.
  rewrite (filter_bool_prop _ (same_triple f)); [reflexivity|].
  intros p. apply triple_filter_holds.
Qed.

Lemma after_gate_invalid f w e es :
  Register.validate f = Return (e :: es) ->
  Register.after_gate env f w = (Return (Register.invalid (e :: es)), w).
Proof. intros H. unfold Register.after_gate, bind, eval. rewrite H. reflexivity. Qed.

Lemma after_gate_updates f w p rest :
  Register.validate f = Return [] -> reliable w ->
  filter (same_triple f) (store w) = p :: rest ->
  Register.after_gate env f w =
    (Return (updated_response p),
     mkWorld (patch_page (page_id p) (Register.goal_patch (JStr (Register.goal f)))
                <$> store w)
             (tail (tail (replies w)))
             (calls w ++ [triple_query f;
                          Patch (page_id p) (Register.goal_patch (JStr (Register.goal f)))])
             (console w)).
Proof.
  intros Hv Hw Hm. unfold Register.after_gate, bind, eval. rewrite Hv.
  unfold Register.upsert_existing, try_catch, bind.
  rewrite find_served by (apply reliable_next, Hw). rewrite Hm. simpl.
  apply filter_head_In in Hm as [Hin _].
  destruct (find_page_head p (store w) Hin) as [q Hq].
  unfold Register.updateExistingRecord, try_catch, bind.
  erewrite fetch_patch;
    [| apply reliable_next, reliable_after_call, Hw | exact Hq].
  simpl. unfold ret, updated_response, triple_query. rewrite <- app_assoc. reflexivity.
Qed.

Lemma after_gate_creates f w :
  Register.validate f = Return [] -> reliable w ->
  filter (same_triple f) (store w) = [] ->
  let p := mkPage (new_id env (store w)) (Register.payload f) in
  Register.after_gate env f w =
    (Return (created_response p),
     mkWorld (store w ++ [p]) (tail (tail (replies w)))
             (calls w ++ [triple_query f; Create (Register.payload f)])
             (console w)).
Proof.
  intros Hv Hw Hm p. unfold Register.after_gate, bind, eval. rewrite Hv.
  unfold Register.upsert_existing, try_catch, bind.
  rewrite find_served by (apply reliable_next, Hw). rewrite Hm. simpl.
  unfold Register.create, try_catch, bind.
  rewrite fetch_create by (apply reliable_next, reliable_after_call, Hw).
  simpl. unfold ret, created_response, triple_query. rewrite <- app_assoc. reflexivity.
Qed.

End UpsertFacts.

(** ** Relations that every step of a handler preserves *)

Section Respects.
Context (R : relation World) `{!PreOrder R}.

Lemma respects_ret {A} (a : A) : respects R (ret a).
Proof. intros w. reflexivity. Qed.

Lemma respects_throw {A} (e : JsError) : respects R (@throw A e).
Proof. intros w. reflexivity. Qed.

Lemma respects_eval {A} (o : Outcome A) : respects R (eval o).
Proof. intros w. reflexivity. Qed.

Lemma respects_bind {A B} (m : M A) (k : A -> M B) :
  respects R m -> (forall a, respects R (k a)) -> respects R (bind m k).
Proof.
  intros Hm Hk w. unfold bind. specialize (Hm w).
  destruct (m w) as [[a|e] w1]; simpl in *; [|exact Hm].
  etransitivity; [exact Hm | apply Hk].
Qed.

Lemma respects_bind_eval {A B} (o : Outcome A) (k : A -> M B) :
  (forall a, o = Return a -> respects R (k a)) -> respects R (bind (eval o) k).
Proof.
  intros Hk w. unfold bind, eval. destruct o as [a|e]; [apply Hk|]; reflexivity.
Qed.

Lemma respects_try_catch {A} (m : M A) (h : JsError -> M A) :
  respects R m -> (forall e, respects R (h e)) -> respects R (try_catch m h).
Proof.
  intros Hm Hh w. unfold try_catch. specialize (Hm w).
  destruct (m w) as [[a|e] w1]; simpl in *; [exact Hm|].
  etransitivity; [exact Hm | apply Hh].
Qed.

End Respects.

Ltac respects_structure :=
  repeat first
    [ apply respects_ret; apply _
    | apply respects_throw; apply _
    | apply respects_eval; apply _
    | apply respects_bind; [apply _ | | intros ?]
    | apply respects_try_catch; [apply _ | | intros ?]
    | match goal with
      | |- respects _ (match ?x with _ => _ end) => destruct x
      | |- respects _ (if ?b then _ else _) => destruct b
      | |- respects _ (let _ := _ in _) => cbv zeta
      end ].

#[global] Instance extends_preorder : PreOrder extends.
Proof.
  split.
  - intros w. unfold extends. reflexivity.
  - intros a b c Hab Hbc. unfold extends in *. etransitivity; eassumption.
Qed.

Lemma extends_fetch env rq : respects extends (fetch env rq).
Proof.
  intros w. unfold extends, fetch.
  destruct (next_reply w); [destruct rq; [| | destruct (find_page _ _)] | |];
    simpl; apply prefix_app_r; reflexivity.
Qed.

Lemma extends_console label msg : respects extends (console_error label msg).
Proof. intros w. unfold extends. simpl. reflexivity. Qed.

Lemma extends_after_gate env f : respects extends (Register.after_gate env f).
Proof.
  unfold Register.after_gate, Register.upsert_existing, Register.create,
    Register.findExistingRecord, Register.updateExistingRecord.
  respects_structure; first [apply extends_fetch | apply extends_console].
Qed.

Lemma starts_with_fetch env rq : starts_with rq (fetch env rq).
Proof.
  intros w. exists []. unfold fetch.
  destruct (next_reply w); [destruct rq; [| | destruct (find_page _ _)] | |];
    reflexivity.
Qed.

Lemma starts_with_extends {A} rq (m : M A) w w' :
  starts_with rq m -> extends (snd (m w)) w' ->
  exists rest, calls w' = calls w ++ rq :: rest.
Proof.
  intros Hm [more Hw']. destruct (Hm w) as [rest Hrest].
  exists (rest ++ more). rewrite Hw', Hrest, <- app_assoc. reflexivity.
Qed.

Lemma starts_with_bind {A B} rq (m : M A) (k : A -> M B) :
  starts_with rq m -> (forall a, respects extends (k a)) -> starts_with rq (bind m k).
Proof.
  intros Hm Hk w. unfold bind.
  destruct (m w) as [[a|e] w1] eqn:E.
  - eapply starts_with_extends; [exact Hm|]. rewrite E. apply Hk.
  - specialize (Hm w). rewrite E in Hm. exact Hm.
Qed.

Lemma starts_with_try_catch {A} rq (m : M A) (h : JsError -> M A) :
  starts_with rq m -> (forall e, respects extends (h e)) -> starts_with rq (try_catch m h).
Proof.
  intros Hm Hh w. unfold try_catch.
  destruct (m w) as [[a|e] w1] eqn:E.
  - specialize (Hm w). rewrite E in Hm. exact Hm.
  - eapply starts_with_extends; [exact Hm|]. rewrite E. apply Hh.
Qed.

Lemma gate_starts_with_query env f : starts_with (gate_query f) (Register.gate env f).
Proof.
  unfold Register.gate, Register.checkCohortAvailability, gate_query. simpl.
  apply starts_with_try_catch.
  - apply starts_with_bind.
    + apply starts_with_try_catch.
      * apply starts_with_bind; [apply starts_with_fetch|].
        intros a. respects_structure.
      * intros e. respects_structure.
    + intros a. respects_structure.
  - intros e. respects_structure. apply extends_console.
Qed.

Lemma register_starts_with_gate env f : starts_with (gate_query f) (Register.register env f).
Proof.
  unfold Register.register. apply starts_with_bind; [apply gate_starts_with_query|].
  intros [r|]; [respects_structure | apply extends_after_gate].
Qed.

Lemma upsert_starts_with_lookup env f :
  starts_with (triple_query f) (Register.upsert_existing env f).
Proof.
  unfold Register.upsert_existing, Register.findExistingRecord,
    Register.updateExistingRecord, triple_query.
  apply starts_with_try_catch.
  - apply starts_with_bind.
    + apply starts_with_try_catch.
      * apply starts_with_bind; [apply starts_with_fetch|].
        intros a. respects_structure.
      * intros e. respects_structure.
    + intros a. respects_structure. apply extends_fetch.
  - intros e. respects_structure. apply extends_console.
Qed.

Lemma after_gate_valid_starts_with_lookup env f :
  Register.validate f = Return [] ->
  starts_with (triple_query f) (Register.after_gate env f).
Proof.
  intros Hv w.
  assert (Register.after_gate env f w =
          bind (Register.upsert_existing env f)
               (fun existing => match existing with
                                | Some response => ret response
                                | None => Register.create env f
                                end) w) as ->.
  { unfold Register.after_gate. unfold bind at 1. unfold eval. rewrite Hv. reflexivity. }
  revert w. apply starts_with_bind; [apply upsert_starts_with_lookup|].
  intros [r|]; unfold Register.create; respects_structure. apply extends_fetch.
Qed.

(** Closes a conjunction of closed equations, each by evaluation. *)
Ltac by_evaluation :=
  cbv zeta; repeat match goal with |- _ /\ _ => split end;
  intros; vm_compute; reflexivity.

Lemma ana_is_write_request : write_request (post ana_request) ana.
Proof. repeat split. eexists. split; reflexivity. Qed.

Lemma nameless_is_write_request : write_request (post nameless_request) nameless.
Proof. repeat split. eexists. split; reflexivity. Qed.

(** ** The order of the steps on the write path (C1) *)

(** C1, as the code has it. On the write path the handler normalizes the
    request, then runs the availability gate, then validates the fields, then
    resolves the upsert: the gate query is the first call to the store
    whatever the fields are; when the gate finds the cohort full the answer is
    the 409 response, also for fields that fail validation; when the gate
    admits the request or fails, fields that fail validation get the 400
    response and no further call is made; and for valid fields the lookup of
    the existing record follows the gate query. *)
Theorem registration_gate_precedes_validation env args f w :
  write_request args f ->
  let r := Register.main env args w in
  (exists rest, calls (snd r) = calls w ++ gate_query f :: rest)
  /\ (next_reply w = Served -> 10 <= paid_in_cohort f (store w) ->
      r = (Return (Register.cohort_full f), after_call w (gate_query f)))
  /\ (forall e es, Register.validate f = Return (e :: es) ->
      (next_reply w = Served -> paid_in_cohort f (store w) < 10) ->
      fst r = Return (Register.invalid (e :: es))
      /\ calls (snd r) = calls w ++ [gate_query f]
      /\ store (snd r) = store w)
  /\ (Register.validate f = Return [] ->
      (next_reply w = Served -> paid_in_cohort f (store w) < 10) ->
      exists rest, calls (snd r) = calls w ++ gate_query f :: triple_query f :: rest).
Proof.
  intros Hwr r. subst r. rewrite (main_write_request env args f w Hwr).
  split; [apply register_starts_with_gate|].
  split.
  { intros Hs Hfull. unfold Register.register, bind.
    rewrite gate_rejects by assumption. reflexivity. }
  assert ((next_reply w = Served -> paid_in_cohort f (store w) < 10) ->
          exists w1, Register.gate env f w = (Return None, w1)
                     /\ calls w1 = calls w ++ [gate_query f]
                     /\ store w1 = store w) as Hgate.
  { intros Hopen. destruct (next_reply w) as [|j|m] eqn:E.
    - eexists. split; [apply gate_admits; auto|]. split; reflexivity.
    - destruct (gate_fails_open env f w) as [text Hg]; [congruence|].
      eexists. split; [exact Hg|]. split; reflexivity.
    - destruct (gate_fails_open env f w) as [text Hg]; [congruence|].
      eexists. split; [exact Hg|]. split; reflexivity. }
  split.
  - intros e es Hv Hopen. destruct (Hgate Hopen) as (w1 & Hg & Hc & Hst).
    unfold Register.register, bind. rewrite Hg.
    rewrite (after_gate_invalid env f w1 e es Hv). simpl. auto.
  - intros Hv Hopen. destruct (Hgate Hopen) as (w1 & Hg & Hc & Hst).
    unfold Register.register, bind. rewrite Hg.
    destruct (after_gate_valid_starts_with_lookup env f Hv w1) as [rest Hrest].
    exists rest. rewrite Hrest, Hc, <- app_assoc. reflexivity.
Qed.

(** The request without name and email, sent while the cohort is full, gets
    the 409 response after one gate query. *)
Lemma registration_gate_precedes_validation_witness :
  write_request (post nameless_request) nameless
  /\ Register.main sample_env (post nameless_request) (world_of full_cohort)
     = (Return (Register.cohort_full nameless),
        after_call (world_of full_cohort) (gate_query nameless)).
Proof.
  split; [exact nameless_is_write_request|].
  apply (registration_gate_precedes_validation sample_env (post nameless_request)
           nameless (world_of full_cohort) nameless_is_write_request).
  - reflexivity.
  - vm_compute. discriminate.
Defined.

(** C1 as stated fails: the fields of the request fail validation (two
    entries), yet a gate query is made for it, and with a full cohort the
    answer is the 409 response and not the 400 one; with an empty store the
    answer is 400, after the gate query. *)
Lemma validation_does_not_precede_gate :
  Register.validate nameless
    = Return ["name is required"; "valid email is required"]%string
  /\ (forall env,
        Register.main env (post nameless_request) (world_of full_cohort)
        = (Return (Register.cohort_full nameless),
           mkWorld full_cohort [] [gate_query nameless] []))
  /\ statusCode (Register.cohort_full nameless) = 409
  /\ (forall env,
        Register.main env (post nameless_request) (world_of [])
        = (Return (Register.invalid ["name is required"; "valid email is required"]%string),
           mkWorld [] [] [gate_query nameless] []))
  /\ statusCode (Register.invalid ["name is required"; "valid email is required"]%string)
     = 400.
Proof. by_evaluation. Qed.

(** ** The upsert (C3) *)

Lemma reliable_world_of st : reliable (world_of st).
Proof. constructor. Qed.

(** A patch of the goal keeps the identifier and every property but
    [expectation]; it changes nothing in a page with another identifier. *)
Lemma patch_goal_frame pid g q :
  page_id (patch_page pid (Register.goal_patch g) q) = page_id q
  /\ (forall k, k <> "expectation"%string ->
        properties (patch_page pid (Register.goal_patch g) q) !! k = properties q !! k)
  /\ (page_id q = pid ->
        properties (patch_page pid (Register.goal_patch g) q) !! "expectation"
        = Some (rich g))
  /\ (page_id q <> pid -> patch_page pid (Register.goal_patch g) q = q).
Proof.
  unfold patch_page, Register.goal_patch.
  destruct (bool_decide (page_id q = pid)) eqn:E; simpl.
  - apply bool_decide_eq_true in E. repeat split; try congruence.
    + intros k Hk. apply lookup_union_r. apply lookup_singleton_ne. congruence.
    + intros _. apply lookup_union_Some_l. apply lookup_singleton_eq.
  - apply bool_decide_eq_false in E. repeat split; try congruence; tauto.
Qed.

Lemma payload_fields f :
  Register.payload f !! "name" = Some (PTitle (JStr (Register.name f)))
  /\ Register.payload f !! "email" = Some (PEmail (JStr (Register.email f)))
  /\ Register.payload f !! "start_date" = Some (PDate (JStr (Register.start_date f)))
  /\ Register.payload f !! "cohort" = Some (PRichText (JStr (Register.cohort f)))
  /\ Register.payload f !! "expectation" = Some (PRichText (JStr (Register.goal f)))
  /\ Register.payload f !! "status" = Some (PSelect (JStr (lit "registered"))).
Proof. unfold Register.payload. repeat split; by simplify_map_eq. Qed.

(** C3, as the code has it. For every registration request with valid fields
    that the availability gate admits (fewer than 10 paid records for its
    cohort and date), the store answering every call: if a record with the
    (email, cohort, start_date) triple exists, the handler patches only the
    [expectation] property of the first such record (every other property of
    it, status included, and every page with another identifier are left
    unchanged) and responds 200 with [updated: true] and that record's
    identifier; if none exists, it creates one record with the six properties
    of the input and [status = registered], and responds 200 with
    [created: true] and the new identifier. *)
Theorem upsert_patches_goal_or_creates env args f w :
  write_request args f ->
  Register.validate f = Return [] ->
  reliable w ->
  paid_in_cohort f (store w) < 10 ->
  let r := Register.main env args w in
  match filter (same_triple f) (store w) with
  | p :: _ =>
      exists resp,
        fst r = Return resp
        /\ statusCode resp = 200
        /\ body_field resp "updated" = JBool true
        /\ body_field resp "pageId" = JStr (page_id p)
        /\ calls (snd r)
           = calls w ++ [gate_query f; triple_query f;
                         Patch (page_id p) {[ "expectation" := rich (JStr (Register.goal f)) ]}]
        /\ length (store (snd r)) = length (store w)
        /\ forall i q, store w !! i = Some q ->
             exists q', store (snd r) !! i = Some q'
               /\ page_id q' = page_id q
               /\ (forall k, k <> "expectation"%string ->
                     properties q' !! k = properties q !! k)
               /\ (page_id q = page_id p ->
                     properties q' !! "expectation" = Some (rich (JStr (Register.goal f))))
               /\ (page_id q <> page_id p -> q' = q)
  | [] =>
      exists resp p,
        fst r = Return resp
        /\ statusCode resp = 200
        /\ body_field resp "created" = JBool true
        /\ body_field resp "pageId" = JStr (page_id p)
        /\ store (snd r) = store w ++ [p]
        /\ properties p !! "name" = Some (PTitle (JStr (Register.name f)))
        /\ properties p !! "email" = Some (PEmail (JStr (Register.email f)))
        /\ properties p !! "start_date" = Some (PDate (JStr (Register.start_date f)))
        /\ properties p !! "cohort" = Some (PRichText (JStr (Register.cohort f)))
        /\ properties p !! "expectation" = Some (PRichText (JStr (Register.goal f)))
        /\ properties p !! "status" = Some (PSelect (JStr (lit "registered")))
  end.
Proof.
  intros Hwr Hv Hw Hn r. subst r. rewrite (main_write_request env args f w Hwr).
  unfold Register.register, bind.
  rewrite gate_admits by (auto using reliable_next).
  pose proof (reliable_after_call w (gate_query f) Hw) as Hw1.
  destruct (filter (same_triple f) (store w)) as [|p rest] eqn:Hm.
  - rewrite (after_gate_creates env f _ Hv Hw1 Hm). simpl.
    eexists _, (mkPage _ _). repeat split; simpl; apply payload_fields.
  - rewrite (after_gate_updates env f _ p rest Hv Hw1 Hm). simpl.
    eexists. repeat split.
    + rewrite <- app_assoc. reflexivity.
    + apply length_fmap.
    + intros i q Hq. eexists. split.
      * rewrite list_lookup_fmap, Hq. reflexivity.
      * apply patch_goal_frame.
Qed.

(** Ana's second registration patches her record: 200, [updated: true], and
    her record has the new goal and is still registered. *)
Lemma upsert_patches_goal_or_creates_witness :
  write_request (post ana_request) ana
  /\ Register.validate ana = Return []
  /\ reliable (world_of open_cohort)
  /\ paid_in_cohort ana open_cohort < 10
  /\ exists resp,
       fst (Register.main sample_env (post ana_request) (world_of open_cohort)) = Return resp
       /\ statusCode resp = 200
       /\ body_field resp "updated" = JBool true
       /\ body_field resp "pageId" = JStr (lit "ana-1").
Proof.
  assert (Register.validate ana = Return []) as Hv by reflexivity.
  assert (paid_in_cohort ana (store (world_of open_cohort)) < 10) as Hn by reflexivity.
  split; [exact ana_is_write_request|]. split; [exact Hv|].
  split; [apply reliable_world_of|]. split; [exact Hn|].
  pose proof (upsert_patches_goal_or_creates sample_env (post ana_request) ana
                (world_of open_cohort) ana_is_write_request Hv
                (reliable_world_of open_cohort) Hn) as H.
  cbv zeta in H.
  change (filter (same_triple ana) (store (world_of open_cohort))) with [ana_record] in H.
  destruct H as (resp & Hr & Hs & Hu & Hp & _).
  exists resp. auto.
Defined.

(** C3 as stated fails when the cohort is full: Ana's record exists and her
    fields are valid, yet her request gets the 409 response, no patch is sent
    and the store is as before; and a valid request with no existing record
    gets the 409 response as well, and no record is created. *)
Lemma full_cohort_blocks_upsert :
  Register.validate ana = Return []
  /\ filter (same_triple ana) (full_cohort ++ [ana_record]) = [ana_record]
  /\ (forall env,
        Register.main env (post ana_request) (world_of (full_cohort ++ [ana_record]))
        = (Return (Register.cohort_full ana),
           mkWorld (full_cohort ++ [ana_record]) [] [gate_query ana] []))
  /\ filter (same_triple ana) full_cohort = []
  /\ (forall env,
        Register.main env (post ana_request) (world_of full_cohort)
        = (Return (Register.cohort_full ana), mkWorld full_cohort [] [gate_query ana] []))
  /\ statusCode (Register.cohort_full ana) = 409
  /\ body_field (Register.cohort_full ana) "updated" = JUndef
  /\ body_field (Register.cohort_full ana) "created" = JUndef.
Proof. by_evaluation. Qed.

(** ** A failing availability check (C4) *)

Lemma main_availability_request env args checkAvail checkDate w :
  availability_request args checkAvail checkDate ->
  Register.main env args w = Register.check_availability env checkAvail checkDate w.
Proof.
  intros (Hm & Ha & Ht & Hd). unfold Register.main.
  rewrite Hm. cbv beta iota zeta. unfold bind, eval. rewrite Ha, Hd, Ht. reflexivity.
Qed.

(** C4. When the availability check against the store fails (the call
    throws, or the store answers with an error status), the
    availability-check endpoint responds with status 500 and [ok: false],
    whereas the registration write path logs the failure and goes on exactly
    as the rest of the registration does without a gate, from the same store
    and with the same replies to come: its response is the one of validation,
    lookup and creation, so the failure of the gate alone never makes the
    write path answer with an error. *)
Theorem gate_failure_is_fatal_only_for_the_check env args w :
  next_reply w <> Served ->
  (forall checkAvail checkDate,
     availability_request args checkAvail checkDate ->
     exists resp,
       fst (Register.main env args w) = Return resp
       /\ statusCode resp = 500
       /\ body_field resp "ok" = JBool false
       /\ store (snd (Register.main env args w)) = store w)
  /\ (forall f,
        write_request args f ->
        exists msg,
          Register.main env args w
          = Register.after_gate env f
              (logged (after_call w (gate_query f)) "Availability check failed:" msg)).
Proof.
  intros Hfail. split.
  - intros checkAvail checkDate Hreq.
    rewrite (main_availability_request env args checkAvail checkDate w Hreq).
    unfold Register.check_availability, try_catch, bind.
    destruct (gate_throws env checkAvail checkDate w Hfail) as [msg ->].
    simpl. eexists. repeat split.
  - intros f Hwr. rewrite (main_write_request env args f w Hwr).
    destruct (gate_fails_open env f w Hfail) as [msg Hg].
    exists msg. unfold Register.register, bind. rewrite Hg. reflexivity.
Qed.

(** The gate query times out and the rest of the store works: Ana's first
    registration is created all the same. *)
Lemma gate_failure_is_fatal_only_for_the_check_witness :
  next_reply (mkWorld [] [Failed (lit "timeout")] [] []) <> Served
  /\ exists resp,
       fst (Register.main sample_env (post ana_request)
              (mkWorld [] [Failed (lit "timeout")] [] [])) = Return resp
       /\ statusCode resp = 200
       /\ body_field resp "created" = JBool true.
Proof.
  assert (next_reply (mkWorld [] [Failed (lit "timeout")] [] []) <> Served) as Hfail
    by discriminate.
  split; [exact Hfail|].
  destruct (gate_failure_is_fatal_only_for_the_check sample_env (post ana_request)
              (mkWorld [] [Failed (lit "timeout")] [] []) Hfail) as [_ Hwrite].
  destruct (Hwrite ana ana_is_write_request) as [msg ->].
  eexists. split; [vm_compute; reflexivity|]. split; reflexivity.
Defined.

(** ** The webhooks *)

Lemma is_str_post_not_options v :
  is_str v "post" = true -> is_str v "options" = false.
Proof.
  destruct v; try discriminate. unfold is_str. intros H.
  apply jstring_eqb_eq in H. subst. reflexivity.
Qed.

Lemma marked_nil props p : marked props [] p = p.
Proof.
  unfold marked. rewrite bool_decide_eq_false_2; [reflexivity|]. apply not_elem_of_nil.
Qed.

Lemma marked_cons props pid ids p :
  marked props ids (patch_page pid props p) = marked props (pid :: ids) p.
Proof.
  unfold marked, patch_page.
  destruct (bool_decide (page_id p = pid)) eqn:E.
  - apply bool_decide_eq_true in E. subst pid. simpl.
    rewrite (bool_decide_eq_true_2 (page_id p ∈ page_id p :: ids)) by left.
    destruct (bool_decide (page_id p ∈ ids)); [|reflexivity].
    f_equal. rewrite (assoc_L (∪)), (idemp_L (∪)). reflexivity.
  - apply bool_decide_eq_false in E.
    destruct (bool_decide (page_id p ∈ ids)) eqn:E2.
    + apply bool_decide_eq_true in E2.
      rewrite bool_decide_eq_true_2 by (right; exact E2). reflexivity.
    + apply bool_decide_eq_false in E2.
      rewrite bool_decide_eq_false_2; [reflexivity|].
      rewrite elem_of_cons. intros [?|?]; congruence.
Qed.

Lemma marked_id props ids p : page_id (marked props ids p) = page_id p.
Proof. unfold marked. destruct (bool_decide _); reflexivity. Qed.

Lemma marked_idempotent props ids p :
  marked props ids (marked props ids p) = marked props ids p.
Proof.
  unfold marked. destruct (bool_decide (page_id p ∈ ids)) eqn:E; simpl; rewrite E.
  - f_equal. rewrite (assoc_L (∪)), (idemp_L (∪)). reflexivity.
  - reflexivity.
Qed.

Lemma marked_keeps props ids p k :
  props !! k = None -> properties (marked props ids p) !! k = properties p !! k.
Proof.
  intros H. unfold marked. destruct (bool_decide _); [|reflexivity].
  simpl. apply lookup_union_r, H.
Qed.

Lemma marked_sets props ids p k v :
  props !! k = Some v -> page_id p ∈ ids -> properties (marked props ids p) !! k = Some v.
Proof.
  intros H Hin. unfold marked. rewrite bool_decide_eq_true_2 by exact Hin.
  simpl. apply lookup_union_Some_l, H.
Qed.

Lemma find_page_elem_of pid (st : list Page) :
  pid ∈ page_id <$> st -> exists q, find_page pid st = Some q.
Proof.
  intros H. apply list_elem_of_fmap in H as (p & -> & Hp).
  apply find_page_head. apply list_elem_of_In, Hp.
Qed.

Lemma email_filter_holds email p :
  filter_holds (FOne (mkCond "email" Notion.email email)) p = true <-> has_email email p.
Proof. simpl. apply cond_holds_email. Qed.

Lemma reliable_patched w pid props : reliable w -> reliable (patched w pid props).
Proof. apply reliable_tail. Qed.

Lemma page_ids_patched w pid props :
  page_id <$> store (patched w pid props) = page_id <$> store w.
Proof.
  simpl. rewrite <- list_fmap_compose. apply list_fmap_ext. intros _ p _. simpl.
  unfold patch_page. destruct (bool_decide _); reflexivity.
Qed.

Lemma all_marked_nil w props : all_marked w props [] = w.
Proof.
  unfold all_marked. simpl. rewrite app_nil_r.
  rewrite (list_fmap_ext (marked props []) id (store w)) by (intros; apply marked_nil).
  rewrite list_fmap_id. destruct w; reflexivity.
Qed.

Lemma all_marked_cons w props p ps :
  all_marked (patched w (page_id p) props) props ps = all_marked w props (p :: ps).
Proof.
  unfold all_marked, patched. simpl. f_equal.
  - rewrite <- list_fmap_compose. apply list_fmap_ext. intros _ q _. apply marked_cons.
  - destruct (replies w); simpl; [rewrite drop_nil|]; reflexivity.
  - rewrite <- app_assoc. reflexivity.
Qed.

Lemma reliable_all_marked w props ps : reliable w -> reliable (all_marked w props ps).
Proof. unfold reliable. simpl. apply Forall_drop. Qed.

Section WebhookFacts.
Variable env : Env.

Lemma find_pages_served email w :
  next_reply w = Served ->
  findPagesByEmail env email w =
    (Return (filter (has_email email) (store w)), after_call w (email_query email)).
Proof.
  intros H. unfold findPagesByEmail, bind. rewrite fetch_query by exact H.
  rewrite (filter_bool_prop _ (has_email email)); [reflexivity|].
  intros p. apply email_filter_holds.
Qed.

Lemma markPaid_served pid w :
  reliable w -> pid ∈ page_id <$> store w ->
  exists json,
    Webhook.markPaid env pid w = (Return json, patched w pid {[ "status" := paid_status ]}).
Proof.
  intros Hw Hin. destruct (find_page_elem_of pid (store w) Hin) as [q Hq].
  unfold Webhook.markPaid, bind.
  erewrite fetch_patch; [| apply reliable_next, Hw | exact Hq].
  eexists. reflexivity.
Qed.

Lemma mark_each_served ps : forall n w,
  reliable w -> (forall p, p ∈ ps -> page_id p ∈ page_id <$> store w) ->
  Webhook.mark_each env ps n w =
    (Return (n + Z.of_nat (length ps)), all_marked w {[ "status" := paid_status ]} ps).
Proof.
  induction ps as [|p ps IH]; intros n w Hw Hin.
  - simpl. rewrite all_marked_nil, Z.add_0_r. reflexivity.
  - simpl. unfold bind.
    destruct (markPaid_served (page_id p) w Hw) as [json ->]; [apply Hin; left|].
    rewrite IH.
    + rewrite all_marked_cons, Nat2Z.inj_succ. f_equal. f_equal. lia.
    + apply reliable_patched, Hw.
    + intros q Hq. rewrite page_ids_patched. apply Hin. right. exact Hq.
Qed.

Lemma markPaidWithStripeInfo_served pid sd props w :
  StripeWebhook.stripe_properties env sd = Return props ->
  reliable w -> pid ∈ page_id <$> store w ->
  exists json,
    StripeWebhook.markPaidWithStripeInfo env pid sd w = (Return json, patched w pid props).
Proof.
  intros Hprops Hw Hin. destruct (find_page_elem_of pid (store w) Hin) as [q Hq].
  unfold StripeWebhook.markPaidWithStripeInfo, bind, eval. rewrite Hprops.
  erewrite fetch_patch; [| apply reliable_next, Hw | exact Hq].
  eexists. reflexivity.
Qed.

Lemma markPaidWithStripeInfo_throws pid sd e w :
  StripeWebhook.stripe_properties env sd = Throw e ->
  StripeWebhook.markPaidWithStripeInfo env pid sd w = (Throw e, w).
Proof.
  intros Hprops. unfold StripeWebhook.markPaidWithStripeInfo, bind, eval.
  rewrite Hprops. reflexivity.
Qed.

Lemma stripe_mark_each_served sd props link ps : forall n acc w,
  StripeWebhook.stripe_properties env sd = Return props ->
  StripeWebhook.stripe_url env (StripeWebhook.sessionId sd) = Return link ->
  reliable w -> (forall p, p ∈ ps -> page_id p ∈ page_id <$> store w) ->
  StripeWebhook.mark_each env sd ps n acc w =
    (Return (n + Z.of_nat (length ps), acc ++ (page_entry link <$> ps)),
     all_marked w props ps).
Proof.
  induction ps as [|p ps IH]; intros n acc w Hprops Hlink Hw Hin.
  - simpl. rewrite all_marked_nil, Z.add_0_r, app_nil_r. reflexivity.
  - simpl. unfold bind.
    destruct (markPaidWithStripeInfo_served (page_id p) sd props w Hprops Hw) as [json ->];
      [apply Hin; left|].
    unfold eval. rewrite Hlink.
    rewrite IH; [| exact Hprops | exact Hlink | |].
    + rewrite all_marked_cons, <- app_assoc, Nat2Z.inj_succ. f_equal. f_equal. f_equal. lia.
    + apply reliable_patched, Hw.
    + intros q Hq. rewrite page_ids_patched. apply Hin. right. exact Hq.
Qed.

End WebhookFacts.

(** The properties a webhook patches: the status, and never the email. *)
Lemma status_patch_status :
  ({[ "status" := paid_status ]} : gmap string PropVal) !! "status" = Some paid_status.
Proof. apply lookup_singleton_eq. Qed.

Lemma status_patch_email :
  ({[ "status" := paid_status ]} : gmap string PropVal) !! "email" = None.
Proof. by apply lookup_singleton_ne. Qed.

Lemma to_text_falsy env v : truthy v = false -> exists text, to_text env v = Return text.
Proof. destruct v; try discriminate; intros _; simpl; eauto. Qed.

Lemma stripe_url_text env v text :
  to_text env v = Return text ->
  StripeWebhook.stripe_url env v
  = Return (lit "https://dashboard.stripe.com/payments/" ++ text).
Proof. intros H. unfold StripeWebhook.stripe_url. rewrite H. reflexivity. Qed.

Lemma stripe_properties_parts env sd props :
  StripeWebhook.stripe_properties env sd = Return props ->
  exists text amount,
    to_text env (StripeWebhook.sessionId sd) = Return text
    /\ to_number env (StripeWebhook.amountPaid sd) = Return amount
    /\ props =
         (let properties := {[ "status" := paid_status ]} in
          let properties :=
            if truthy (StripeWebhook.sessionId sd)
            then <[ "stripe_link" :=
                      PUrl (JStr (lit "https://dashboard.stripe.com/payments/" ++ text)) ]>
                   (<[ "stripe_session_id" := rich (StripeWebhook.sessionId sd) ]> properties)
            else properties in
          let properties :=
            if negb (jval_eqb (StripeWebhook.amountPaid sd) JUndef)
            then <[ "amount_paid" := PNumber (div100 amount) ]> properties
            else properties in
          if truthy (JStr (StripeWebhook.paymentDate sd))
          then <[ "payment_date" := PDate (JStr (StripeWebhook.paymentDate sd)) ]> properties
          else properties).
Proof.
  unfold StripeWebhook.stripe_properties, StripeWebhook.stripe_url. intros H.
  assert (exists text, to_text env (StripeWebhook.sessionId sd) = Return text)
    as [text Htext].
  { destruct (truthy (StripeWebhook.sessionId sd)) eqn:Et.
    - destruct (to_text env (StripeWebhook.sessionId sd)); [eauto|discriminate].
    - apply to_text_falsy, Et. }
  assert (exists amount, to_number env (StripeWebhook.amountPaid sd) = Return amount)
    as [amount Hamount].
  { destruct (jval_eqb (StripeWebhook.amountPaid sd) JUndef) eqn:Eu.
    - apply jval_eqb_eq in Eu. rewrite Eu. simpl. eauto.
    - rewrite Htext in H. simpl in H.
      destruct (truthy (StripeWebhook.sessionId sd));
        destruct (to_number env (StripeWebhook.amountPaid sd)); simpl in H;
        try discriminate; eauto. }
  exists text, amount. split; [exact Htext|]. split; [exact Hamount|].
  rewrite Htext, Hamount in H. cbv zeta.
  destruct (truthy (StripeWebhook.sessionId sd)),
           (negb (jval_eqb (StripeWebhook.amountPaid sd) JUndef)); simpl in H;
    injection H as <-; reflexivity.
Qed.

Lemma stripe_properties_link env sd props :
  StripeWebhook.stripe_properties env sd = Return props ->
  exists link, StripeWebhook.stripe_url env (StripeWebhook.sessionId sd) = Return link.
Proof.
  intros H. destruct (stripe_properties_parts env sd props H) as (text & _ & Ht & _).
  eexists. apply stripe_url_text, Ht.
Qed.

Lemma stripe_properties_status env sd props :
  StripeWebhook.stripe_properties env sd = Return props ->
  props !! "status" = Some paid_status.
Proof.
  intros H. destruct (stripe_properties_parts env sd props H) as (link & amount & _ & _ & ->).
  cbv zeta.
  destruct (truthy (StripeWebhook.sessionId sd)),
           (negb (jval_eqb (StripeWebhook.amountPaid sd) JUndef)),
           (truthy (JStr (StripeWebhook.paymentDate sd))); by simplify_map_eq.
Qed.

Lemma stripe_properties_email env sd props :
  StripeWebhook.stripe_properties env sd = Return props ->
  props !! "email" = None.
Proof.
  intros H. destruct (stripe_properties_parts env sd props H) as (link & amount & _ & _ & ->).
  cbv zeta.
  destruct (truthy (StripeWebhook.sessionId sd)),
           (negb (jval_eqb (StripeWebhook.amountPaid sd) JUndef)),
           (truthy (JStr (StripeWebhook.paymentDate sd))); by simplify_map_eq.
Qed.

Lemma stripe_amount_text env sd props :
  StripeWebhook.stripe_properties env sd = Return props ->
  exists amount, StripeWebhook.amount_text env (StripeWebhook.amountPaid sd) = Return amount.
Proof.
  intros H. destruct (stripe_properties_parts env sd props H) as (link & amount & _ & Ha & _).
  unfold StripeWebhook.amount_text. rewrite Ha. simpl. eauto.
Qed.

Lemma matching_ids (P : Page -> Prop) `{!forall p, Decision (P p)} (st : list Page) p :
  p ∈ filter P st -> page_id p ∈ page_id <$> st.
Proof.
  intros Hp. apply list_elem_of_filter in Hp as [_ Hp].
  apply list_elem_of_fmap. eauto.
Qed.

Section ProcessFacts.
Variable env : Env.

Lemma webhook_process_served email w :
  reliable w ->
  Webhook.process env email w =
    (Return (webhook_response email (filter (has_email email) (store w))),
     all_marked (after_call w (email_query email)) {[ "status" := paid_status ]}
                (filter (has_email email) (store w))).
Proof.
  intros Hw. unfold Webhook.process, try_catch, bind.
  rewrite find_pages_served by (apply reliable_next, Hw).
  destruct (filter (has_email email) (store w)) as [|p ps] eqn:E.
  - rewrite all_marked_nil. reflexivity.
  - rewrite mark_each_served.
    + reflexivity.
    + apply reliable_after_call, Hw.
    + intros q Hq. simpl. rewrite <- E in Hq. eapply matching_ids, Hq.
Qed.

Lemma stripe_process_served email sd props link amount w :
  StripeWebhook.stripe_properties env sd = Return props ->
  StripeWebhook.stripe_url env (StripeWebhook.sessionId sd) = Return link ->
  StripeWebhook.amount_text env (StripeWebhook.amountPaid sd) = Return amount ->
  reliable w ->
  StripeWebhook.process env email sd w =
    (Return (stripe_response email sd link amount (filter (has_email email) (store w))),
     all_marked (after_call w (email_query email)) props
                (filter (has_email email) (store w))).
Proof.
  intros Hprops Hlink Hamount Hw. unfold StripeWebhook.process, try_catch, bind.
  rewrite find_pages_served by (apply reliable_next, Hw).
  destruct (filter (has_email email) (store w)) as [|p ps] eqn:E.
  - rewrite all_marked_nil. reflexivity.
  - rewrite (stripe_mark_each_served env sd props link); [| exact Hprops | exact Hlink | |].
    + unfold eval. rewrite Hlink, Hamount. reflexivity.
    + apply reliable_after_call, Hw.
    + intros q Hq. simpl. rewrite <- E in Hq. eapply matching_ids, Hq.
Qed.

(** With no record to mark, the Stripe webhook converts nothing. *)
Lemma stripe_process_no_match email sd w :
  next_reply w = Served -> filter (has_email email) (store w) = [] ->
  StripeWebhook.process env email sd w =
    (Return (stripe_response email sd [] [] []), after_call w (email_query email)).
Proof.
  intros Hw E. unfold StripeWebhook.process, try_catch, bind.
  rewrite find_pages_served by exact Hw. rewrite E. reflexivity.
Qed.

(** When the session does not convert, the first [markPaidWithStripeInfo]
    throws before its call, and the [catch] of [main] answers 502. *)
Lemma stripe_process_unbuilt email sd e w :
  StripeWebhook.stripe_properties env sd = Throw e ->
  next_reply w = Served -> filter (has_email email) (store w) <> [] ->
  StripeWebhook.process env email sd w =
    (Return (bad 502 [("error", JStr (message e))]), after_call w (email_query email)).
Proof.
  intros Hprops Hw E. unfold StripeWebhook.process, try_catch, bind.
  rewrite find_pages_served by exact Hw.
  destruct (filter (has_email email) (store w)) as [|p ps]; [congruence|].
  simpl. unfold bind. rewrite (markPaidWithStripeInfo_throws env _ _ e) by exact Hprops.
  reflexivity.
Qed.

Lemma webhook_main_payment args session email w :
  payment_event args session email ->
  Webhook.main env args w = Webhook.process env email w.
Proof.
  intros (Hpost & Hev & (type & Hty & Hcompleted) & Hs & (paid & Hp & Hpaid) & He & Hemail).
  unfold Webhook.main.
  rewrite (is_str_post_not_options _ Hpost), Hpost. cbv beta iota zeta.
  rewrite Hev. unfold bind, eval. simpl negb. cbv beta iota.
  rewrite Hty, Hcompleted, Hs, Hp, He, Hpaid, Hemail. reflexivity.
Qed.

Lemma stripe_main_payment args session email w :
  payment_event args session email ->
  StripeWebhook.main env args w =
    bind (eval (StripeWebhook.extract env session))
         (fun sd => StripeWebhook.process env email sd) w.
Proof.
  intros (Hpost & Hev & (type & Hty & Hcompleted) & Hs & (paid & Hp & Hpaid) & He & Hemail).
  unfold StripeWebhook.main.
  rewrite (is_str_post_not_options _ Hpost), Hpost. cbv beta iota zeta.
  rewrite Hev. unfold bind at 1 2 3 4, eval at 1 2 3 4. simpl negb. cbv beta iota.
  rewrite Hty, Hcompleted, Hs, Hp, He, Hpaid, Hemail. reflexivity.
Qed.

End ProcessFacts.

(** ** Payments are recorded on every matching record (C5) *)

Lemma paid_session_is_object session paid :
  paid_of session = Return paid -> truthy paid = true -> exists fs, session = JObj fs.
Proof.
  intros Hp Ht.
  destruct session as [ | | b | z | s | l | fs]; [..| eauto];
    unfold paid_of, and_then, member, val, obind in Hp; simpl in Hp;
    repeat match type of Hp with
           | context [if ?c then _ else _] => destruct c eqn:?
           end;
    inversion Hp; subst; simpl in *; congruence.
Qed.

(** The Stripe data of a paid session are extracted when its creation time
    converts to a date. *)
Lemma extract_dated env args session email :
  payment_event args session email -> dated_session env session ->
  exists sd, StripeWebhook.extract env session = Return sd.
Proof.
  intros (_ & _ & _ & _ & (paid & Hp & Ht) & _) (created & seconds & day & Hc & Hn & Hd).
  destruct (paid_session_is_object session paid Hp Ht) as [fs ->].
  unfold StripeWebhook.extract. rewrite Hc. simpl. rewrite Hn. simpl. rewrite Hd. simpl.
  unfold or_else, member, val, obind, get.
  repeat match goal with
         | |- context [if ?c then _ else _] => destruct c
         | |- context [match ?d with JUndef => _ | _ => _ end] => destruct d
         end; simpl; eauto.
Qed.

Lemma extract_session_id env session sd :
  StripeWebhook.extract env session = Return sd ->
  val session .> "id" = Return (StripeWebhook.sessionId sd)
  /\ (val session .> "amount_total" ||| val session .> "amount_subtotal")
     = Return (StripeWebhook.amountPaid sd).
Proof.
  unfold StripeWebhook.extract. intros H.
  destruct (val session .> "id") as [id|]; [|discriminate].
  destruct (val session .> "amount_total" ||| val session .> "amount_subtotal")
    as [amount|]; [|discriminate].
  simpl in H.
  repeat match type of H with
         | obind ?o _ = _ => destruct o; [simpl in H | discriminate]
         end.
  injection H as <-. split; reflexivity.
Qed.

Lemma stripe_properties_built env sd text number :
  to_text env (StripeWebhook.sessionId sd) = Return text ->
  to_number env (StripeWebhook.amountPaid sd) = Return number ->
  exists props, StripeWebhook.stripe_properties env sd = Return props.
Proof.
  intros Ht Hn. unfold StripeWebhook.stripe_properties, StripeWebhook.stripe_url.
  rewrite Ht, Hn. simpl.
  destruct (truthy (StripeWebhook.sessionId sd)),
           (negb (jval_eqb (StripeWebhook.amountPaid sd) JUndef)); simpl; eauto.
Qed.

(** The Stripe data of a paid session that converts are extracted, and the
    patch is built from them. *)
Lemma extract_convertible env args session email :
  payment_event args session email -> convertible_session env session ->
  exists sd props,
    StripeWebhook.extract env session = Return sd
    /\ StripeWebhook.stripe_properties env sd = Return props.
Proof.
  intros Hev (Hdated & id & text & amount & number & Hid & Htext & Hamount & Hnumber).
  destruct (extract_dated env args session email Hev Hdated) as [sd Hsd].
  destruct (extract_session_id env session sd Hsd) as [Hid' Hamount'].
  assert (StripeWebhook.sessionId sd = id) as Eid by congruence.
  assert (StripeWebhook.amountPaid sd = amount) as Eamount by congruence.
  destruct (stripe_properties_built env sd text number) as [props Hprops];
    [rewrite Eid; exact Htext | rewrite Eamount; exact Hnumber |].
  eauto.
Qed.

Lemma all_marked_status w0 w props email :
  store w0 = store w ->
  props !! "status" = Some paid_status ->
  forall i q, store w !! i = Some q -> has_email email q ->
    exists q', store (all_marked w0 props (filter (has_email email) (store w))) !! i = Some q'
               /\ page_id q' = page_id q
               /\ properties q' !! "status" = Some paid_status.
Proof.
  intros Hst Hprops i q Hq Hemail. simpl. rewrite Hst, list_lookup_fmap, Hq. simpl.
  eexists. split; [reflexivity|]. split; [apply marked_id|].
  apply marked_sets; [exact Hprops|].
  apply list_elem_of_fmap. exists q. split; [reflexivity|].
  apply list_elem_of_filter. split; [exact Hemail|].
  eapply list_elem_of_lookup_2, Hq.
Qed.

Lemma all_marked_outcome w0 w props email resp :
  store w0 = store w ->
  props !! "status" = Some paid_status ->
  statusCode resp = 200 ->
  body_field resp "ok" = JBool true ->
  body_field resp "updated" = JNum (Z.of_nat (length (filter (has_email email) (store w)))) ->
  (filter (has_email email) (store w) = [] ->
   body_field resp "note" = JStr (lit "no_matching_email")) ->
  marks_every_match email w
    (Return resp, all_marked w0 props (filter (has_email email) (store w))).
Proof.
  intros Hst Hprops Hcode Hok Hupd Hnote. exists resp.
  split; [reflexivity|]. split; [exact Hcode|]. split; [exact Hok|].
  split; [exact Hupd|]. split; [|split].
  - intros Hnone. split; [apply Hnote, Hnone|].
    rewrite Hnone, all_marked_nil. exact Hst.
  - simpl. rewrite length_fmap, Hst. reflexivity.
  - apply all_marked_status; assumption.
Qed.

Lemma stripe_main_extracted env args session email sd w :
  payment_event args session email ->
  StripeWebhook.extract env session = Return sd ->
  StripeWebhook.main env args w = StripeWebhook.process env email sd w.
Proof.
  intros Hev Hsd. rewrite (stripe_main_payment env args session email w Hev).
  unfold bind, eval. rewrite Hsd. reflexivity.
Qed.

(** C5. For every posted [checkout.session.completed] event whose session is
    paid and carries an email, the store answering every call, the minimal
    webhook patches the status to paid on every record whose email is the one
    of the event and responds 200 with [updated] equal to the number of such
    records; when there is none it responds 200 with [ok: true], [updated: 0]
    and the note [no_matching_email], not an error. The webhook that records
    the Stripe session does the same when the session converts (its creation
    time to a date, its identifier to a text, its amount to a number); with no
    matching record it is enough that the creation time converts. *)
Theorem webhook_marks_every_matching_record env args session email w :
  payment_event args session email ->
  reliable w ->
  marks_every_match email w (Webhook.main env args w)
  /\ (convertible_session env session ->
      marks_every_match email w (StripeWebhook.main env args w))
  /\ (dated_session env session -> filter (has_email email) (store w) = [] ->
      marks_every_match email w (StripeWebhook.main env args w)).
Proof.
  intros Hev Hw. split; [|split].
  - rewrite (webhook_main_payment env args session email w Hev).
    rewrite webhook_process_served by exact Hw.
    apply all_marked_outcome; try reflexivity.
    + unfold webhook_response. destruct (filter _ _); reflexivity.
    + unfold webhook_response. destruct (filter _ _); reflexivity.
    + unfold webhook_response. destruct (filter _ _); reflexivity.
    + intros ->. reflexivity.
  - intros Hconv.
    destruct (extract_convertible env args session email Hev Hconv)
      as (sd & props & Hsd & Hprops).
    destruct (stripe_properties_link env sd props Hprops) as [link Hlink].
    destruct (stripe_amount_text env sd props Hprops) as [amount Hamount].
    rewrite (stripe_main_extracted env args session email sd w Hev Hsd).
    rewrite (stripe_process_served env email sd props link amount)
      by assumption.
    apply all_marked_outcome; try reflexivity.
    + eapply stripe_properties_status, Hprops.
    + unfold stripe_response. destruct (filter _ _); reflexivity.
    + unfold stripe_response. destruct (filter _ _); reflexivity.
    + unfold stripe_response. destruct (filter _ _); reflexivity.
    + intros ->. reflexivity.
  - intros Hdated Hnone.
    destruct (extract_dated env args session email Hev Hdated) as [sd Hsd].
    rewrite (stripe_main_extracted env args session email sd w Hev Hsd).
    rewrite (stripe_process_no_match env email sd w (reliable_next w Hw) Hnone).
    replace (after_call w (email_query email))
      with (all_marked (after_call w (email_query email)) {[ "status" := paid_status ]}
              (filter (has_email email) (store w)))
      by (rewrite Hnone; apply all_marked_nil).
    apply all_marked_outcome; rewrite ?Hnone;
      first [reflexivity | apply status_patch_status | intros _; reflexivity].
Qed.

Lemma ana_paid_is_payment_event :
  payment_event (post ana_paid) ana_session (JStr (lit "ana@x.com")).
Proof.
  unfold payment_event.
  repeat match goal with
         | |- _ /\ _ => split
         | |- exists _, _ => eexists
         end; reflexivity.
Qed.

Lemma ana_session_is_dated : dated_session sample_env ana_session.
Proof. eexists _, _, _. repeat split; reflexivity. Qed.

Lemma ana_session_is_convertible : convertible_session sample_env ana_session.
Proof.
  split; [exact ana_session_is_dated|]. eexists _, _, _, _. repeat split; reflexivity.
Qed.

(** Ana's payment marks her record, the only one with her email, as paid,
    whichever webhook receives it. *)
Lemma webhook_marks_every_matching_record_witness :
  payment_event (post ana_paid) ana_session (JStr (lit "ana@x.com"))
  /\ reliable (world_of open_cohort)
  /\ convertible_session sample_env ana_session
  /\ length (filter (has_email (JStr (lit "ana@x.com"))) open_cohort) = 1%nat
  /\ marks_every_match (JStr (lit "ana@x.com")) (world_of open_cohort)
       (Webhook.main sample_env (post ana_paid) (world_of open_cohort))
  /\ marks_every_match (JStr (lit "ana@x.com")) (world_of open_cohort)
       (StripeWebhook.main sample_env (post ana_paid) (world_of open_cohort)).
Proof.
  split; [exact ana_paid_is_payment_event|].
  split; [apply reliable_world_of|].
  split; [exact ana_session_is_convertible|].
  split; [reflexivity|].
  destruct (webhook_marks_every_matching_record sample_env (post ana_paid) ana_session
              (JStr (lit "ana@x.com")) (world_of open_cohort)
              ana_paid_is_payment_event (reliable_world_of open_cohort))
    as (Hminimal & Hstripe & _).
  split; [exact Hminimal | exact (Hstripe ana_session_is_convertible)].
Defined.

Lemma object_id_paid_is_payment_event :
  payment_event (post object_id_paid) object_id_session (JStr (lit "ana@x.com")).
Proof.
  unfold payment_event.
  repeat match goal with
         | |- _ /\ _ => split
         | |- exists _, _ => eexists
         end; reflexivity.
Qed.

(** C5 as stated fails for the webhook that records the Stripe session. A
    paid event with Ana's email whose session identifier is an object with a
    property [toString] of its own: the template literal of the dashboard
    link throws in [markPaidWithStripeInfo] before the patch is sent, the
    [catch] of [main] answers 502, and Ana's record, the one with her email,
    is as it was, not paid. And a paid event with her email and no creation
    time: [toISOString] throws outside the [try] block, and no call is
    made. *)
Lemma stripe_webhook_refuses_an_object_identifier :
  payment_event (post object_id_paid) object_id_session (JStr (lit "ana@x.com"))
  /\ reliable (world_of open_cohort)
  /\ filter (has_email (JStr (lit "ana@x.com"))) open_cohort = [ana_record]
  /\ StripeWebhook.main sample_env (post object_id_paid) (world_of open_cohort)
     = (Return (bad 502 [("error",
                          JStr (lit "Cannot convert object to primitive value"))]),
        mkWorld open_cohort [] [email_query (JStr (lit "ana@x.com"))] [])
  /\ properties ana_record !! "status" = Some (PSelect (JStr (lit "registered")))
  /\ ~ marks_every_match (JStr (lit "ana@x.com")) (world_of open_cohort)
         (StripeWebhook.main sample_env (post object_id_paid) (world_of open_cohort))
  /\ (forall env,
        StripeWebhook.main env (post undated_paid) (world_of open_cohort)
        = (Throw (mkError RangeError (lit "Invalid time value")), world_of open_cohort)).
Proof.
  split; [exact object_id_paid_is_payment_event|].
  split; [apply reliable_world_of|].
  split; [reflexivity|].
  refine ((fun H => conj (proj1 H) (conj (proj1 (proj2 H))
            (conj (proj2 (proj2 H)) (fun env => eq_refl)))) _).
  assert (StripeWebhook.main sample_env (post object_id_paid) (world_of open_cohort)
          = (Return (bad 502 [("error",
                               JStr (lit "Cannot convert object to primitive value"))]),
             mkWorld open_cohort [] [email_query (JStr (lit "ana@x.com"))] [])) as Hrun
    by reflexivity.
  split; [exact Hrun|]. split; [reflexivity|].
  rewrite Hrun. intros (resp & Hresp & Hcode & _).
  injection Hresp as <-. discriminate Hcode.
Qed.

(** A payment for an email with no record: [{ok: true, updated: 0,
    note: "no_matching_email"}], from both webhooks. *)
Example webhook_no_matching_email :
  fst (Webhook.main sample_env (post ana_paid) (world_of full_cohort))
  = Return (ok [("updated", JNum 0);
                ("note", JStr (lit "no_matching_email"));
                ("email", JStr (lit "ana@x.com"))])
  /\ fst (StripeWebhook.main sample_env (post ana_paid) (world_of full_cohort))
     = Return (ok [("updated", JNum 0);
                   ("note", JStr (lit "no_matching_email"));
                   ("email", JStr (lit "ana@x.com"));
                   ("stripeSessionId", JStr (lit "cs_test_1"))]).
Proof. by_evaluation. Qed.

(** ** Replaying an event (C8) *)

Lemma filter_fmap_preserved {A} (P : A -> Prop) `{!forall x, Decision (P x)}
    (f : A -> A) (l : list A) :
  (forall x, P (f x) <-> P x) -> filter P (f <$> l) = f <$> filter P l.
Proof.
  intros Hf. induction l as [|x l IH]; [reflexivity|].
  rewrite fmap_cons, !filter_cons.
  destruct (decide (P (f x))) as [H1|H1], (decide (P x)) as [H2|H2].
  - rewrite fmap_cons, IH. reflexivity.
  - destruct (Hf x); tauto.
  - destruct (Hf x); tauto.
  - exact IH.
Qed.

Lemma has_email_marked props ids email p :
  props !! "email" = None -> has_email email (marked props ids p) <-> has_email email p.
Proof. intros H. unfold has_email. rewrite marked_keeps by exact H. reflexivity. Qed.

Lemma replays_when_pure (h : World -> Outcome Response * World) o w :
  (forall w0, h w0 = (o, w0)) -> replays h w [].
Proof.
  intros H. unfold replays. rewrite !H. simpl. rewrite app_nil_r. auto.
Qed.

(** A handler that queries the records with an email and patches each of
    them with the same properties, none of them the email, replays
    identically when its response depends on the identifiers only. *)
Lemma replays_when_marking (h : World -> Outcome Response * World)
    (resp : list Page -> Response) email props w :
  (forall w0, reliable w0 ->
     h w0 = (Return (resp (filter (has_email email) (store w0))),
             all_marked (after_call w0 (email_query email)) props
                        (filter (has_email email) (store w0)))) ->
  props !! "email" = None ->
  (forall ids ps, resp (marked props ids <$> ps) = resp ps) ->
  reliable w ->
  replays h w (marking_calls email props (store w)).
Proof.
  intros Hh Hprops Hresp Hw. unfold replays, marking_calls.
  rewrite (Hh w Hw). cbn [fst snd].
  rewrite Hh by (apply reliable_all_marked, reliable_after_call, Hw).
  cbn [fst snd].
  set (ps := filter (has_email email) (store w)).
  assert (filter (has_email email)
            (store (all_marked (after_call w (email_query email)) props ps))
          = marked props (page_id <$> ps) <$> ps) as Hps.
  { cbn [store all_marked after_call].
    apply filter_fmap_preserved. intros p. apply has_email_marked, Hprops. }
  rewrite Hps.
  assert (page_id <$> (marked props (page_id <$> ps) <$> ps) = page_id <$> ps) as Hids.
  { rewrite <- list_fmap_compose. apply list_fmap_ext. intros _ p _. apply marked_id. }
  split; [rewrite Hresp; reflexivity|]. split; [|split].
  - cbn [store all_marked after_call]. rewrite Hids, <- list_fmap_compose.
    apply list_fmap_ext. intros _ p _. apply marked_idempotent.
  - cbn [calls all_marked after_call]. rewrite <- app_assoc. reflexivity.
  - cbn [calls all_marked after_call]. rewrite <- app_assoc. f_equal. simpl. f_equal.
    rewrite <- list_fmap_compose. apply list_fmap_ext. intros _ p _. simpl.
    rewrite marked_id. reflexivity.
Qed.

Lemma webhook_response_ids email (f : Page -> Page) ps :
  webhook_response email (f <$> ps) = webhook_response email ps.
Proof. destruct ps; [reflexivity|]. simpl. rewrite length_fmap. reflexivity. Qed.

Lemma stripe_response_ids email sd link amount props ids ps :
  stripe_response email sd link amount (marked props ids <$> ps)
  = stripe_response email sd link amount ps.
Proof.
  destruct ps as [|p ps]; [reflexivity|].
  assert (length (marked props ids <$> p :: ps) = length (p :: ps)) as Hlen
    by apply length_fmap.
  assert (page_entry link <$> (marked props ids <$> p :: ps)
          = page_entry link <$> (p :: ps)) as Hent.
  { rewrite <- list_fmap_compose. apply list_fmap_ext. intros _ q _.
    unfold page_entry. simpl. rewrite marked_id. reflexivity. }
  rewrite fmap_cons in *. unfold stripe_response. rewrite Hlen, Hent. reflexivity.
Qed.

(** A handler that only queries the records with an email replays
    identically. *)
Lemma replays_when_querying (h : World -> Outcome Response * World)
    (resp : list Page -> Response) email w :
  (forall w0, reliable w0 ->
     h w0 = (Return (resp (filter (has_email email) (store w0))),
             after_call w0 (email_query email))) ->
  reliable w ->
  replays h w [email_query email].
Proof.
  intros Hh Hw. unfold replays.
  rewrite (Hh w Hw). cbn [fst snd].
  rewrite Hh by (apply reliable_after_call, Hw).
  cbn [fst snd]. repeat split.
Qed.

Lemma marking_calls_no_match email props st :
  filter (has_email email) st = [] -> marking_calls email props st = [email_query email].
Proof. intros H. unfold marking_calls. rewrite H. reflexivity. Qed.

Lemma webhook_main_cases env args :
  (exists email, forall w, Webhook.main env args w = Webhook.process env email w)
  \/ (exists o, forall w, Webhook.main env args w = (o, w)).
Proof.
  unfold Webhook.main, bind, eval, ret.
  destruct (is_str (ow_method args) "options"); [right; eexists; reflexivity|].
  destruct (negb (is_str (ow_method args) "post")); [right; eexists; reflexivity|].
  cbv zeta.
  destruct (negb (truthy (parseEvent args))); [right; eexists; reflexivity|].
  destruct (val (parseEvent args) .> "type") as [type|e]; [|right; eexists; reflexivity].
  destruct (negb (is_str type "checkout.session.completed")); [right; eexists; reflexivity|].
  destruct (session_of (parseEvent args)) as [session|e]; [|right; eexists; reflexivity].
  destruct (paid_of session) as [paid|e]; [|right; eexists; reflexivity].
  destruct (email_of session) as [email|e]; [|right; eexists; reflexivity].
  destruct (negb (truthy paid)); [right; eexists; reflexivity|].
  destruct (negb (truthy email)); [right; eexists; reflexivity|].
  left. exists email. reflexivity.
Qed.

Lemma stripe_main_cases env args :
  (exists email sd, forall w,
     StripeWebhook.main env args w = StripeWebhook.process env email sd w)
  \/ (exists o, forall w, StripeWebhook.main env args w = (o, w)).
Proof.
  unfold StripeWebhook.main, bind, eval, ret.
  destruct (is_str (ow_method args) "options"); [right; eexists; reflexivity|].
  destruct (negb (is_str (ow_method args) "post")); [right; eexists; reflexivity|].
  cbv zeta.
  destruct (negb (truthy (parseEvent args))); [right; eexists; reflexivity|].
  destruct (val (parseEvent args) .> "type") as [type|e]; [|right; eexists; reflexivity].
  destruct (negb (is_str type "checkout.session.completed")); [right; eexists; reflexivity|].
  destruct (session_of (parseEvent args)) as [session|e]; [|right; eexists; reflexivity].
  destruct (paid_of session) as [paid|e]; [|right; eexists; reflexivity].
  destruct (email_of session) as [email|e]; [|right; eexists; reflexivity].
  destruct (negb (truthy paid)); [right; eexists; reflexivity|].
  destruct (negb (truthy email)); [right; eexists; reflexivity|].
  destruct (StripeWebhook.extract env session) as [sd|e]; [|right; eexists; reflexivity].
  left. exists email, sd. reflexivity.
Qed.

Section ReplayFacts.
Variable env : Env.

Lemma webhook_process_replays email w :
  reliable w ->
  replays (Webhook.process env email) w
    (marking_calls email {[ "status" := paid_status ]} (store w)).
Proof.
  intros Hw.
  apply (replays_when_marking _ (webhook_response email)); try assumption.
  - intros w0 Hw0. apply webhook_process_served, Hw0.
  - apply status_patch_email.
  - intros ids ps. apply webhook_response_ids.
Qed.

Lemma stripe_process_built_replays email sd props w :
  StripeWebhook.stripe_properties env sd = Return props ->
  reliable w ->
  replays (StripeWebhook.process env email sd) w (marking_calls email props (store w)).
Proof.
  intros Hprops Hw.
  destruct (stripe_properties_link env sd props Hprops) as [link Hlink].
  destruct (stripe_amount_text env sd props Hprops) as [amount Hamount].
  apply (replays_when_marking _ (stripe_response email sd link amount)); try assumption.
  - intros w0 Hw0. apply stripe_process_served; assumption.
  - eapply stripe_properties_email, Hprops.
  - intros ids ps. apply stripe_response_ids.
Qed.

Lemma stripe_process_unbuilt_replays email sd e w :
  StripeWebhook.stripe_properties env sd = Throw e ->
  reliable w ->
  replays (StripeWebhook.process env email sd) w [email_query email].
Proof.
  intros Hprops Hw.
  apply (replays_when_querying _
           (fun ps => match ps with
                      | [] => stripe_response email sd [] [] []
                      | _ :: _ => bad 502 [("error", JStr (message e))]
                      end)); [|exact Hw].
  intros w0 Hw0. destruct (filter (has_email email) (store w0)) as [|p ps] eqn:E.
  - apply stripe_process_no_match; [apply reliable_next, Hw0 | exact E].
  - apply stripe_process_unbuilt; [exact Hprops | apply reliable_next, Hw0 |].
    rewrite E. discriminate.
Qed.

Lemma stripe_process_replays email sd w :
  reliable w -> replays_identically (StripeWebhook.process env email sd) w.
Proof.
  intros Hw. destruct (StripeWebhook.stripe_properties env sd) as [props|e] eqn:E.
  - eexists. apply (stripe_process_built_replays email sd props w E Hw).
  - eexists. apply (stripe_process_unbuilt_replays email sd e w E Hw).
Qed.

Lemma replays_ext (h g : World -> Outcome Response * World) w new :
  (forall w0, h w0 = g w0) -> replays g w new -> replays h w new.
Proof. intros H. unfold replays. rewrite !H. auto. Qed.

Lemma webhook_main_replays args w :
  reliable w -> replays_identically (Webhook.main env args) w.
Proof.
  intros Hw. destruct (webhook_main_cases env args) as [[email H]|[o H]].
  - eexists. eapply replays_ext; [exact H|]. apply webhook_process_replays, Hw.
  - eexists. eapply replays_when_pure, H.
Qed.

Lemma stripe_main_replays args w :
  reliable w -> replays_identically (StripeWebhook.main env args) w.
Proof.
  intros Hw. destruct (stripe_main_cases env args) as [(email & sd & H)|[o H]].
  - destruct (stripe_process_replays email sd w Hw) as [new Hnew].
    exists new. eapply replays_ext; [exact H | exact Hnew].
  - eexists. eapply replays_when_pure, H.
Qed.

End ReplayFacts.

Lemma webhook_response_status email ps : statusCode (webhook_response email ps) = 200.
Proof. destruct ps; reflexivity. Qed.

Lemma stripe_response_status email sd link amount ps :
  statusCode (stripe_response email sd link amount ps) = 200.
Proof. destruct ps; reflexivity. Qed.

Lemma stripe_properties_record env sd props :
  StripeWebhook.stripe_properties env sd = Return props -> records_session env sd props.
Proof.
  intros H. split; [exact H|].
  destruct (stripe_properties_parts env sd props H) as (text & number & Ht & Hn & ->).
  cbv zeta. split; [|split; [|split]].
  - destruct (truthy (StripeWebhook.sessionId sd)),
             (negb (jval_eqb (StripeWebhook.amountPaid sd) JUndef)),
             (truthy (JStr (StripeWebhook.paymentDate sd))); by simplify_map_eq.
  - intros ->. split; [|exists text; split; [exact Ht|]];
      destruct (negb (jval_eqb (StripeWebhook.amountPaid sd) JUndef)),
               (truthy (JStr (StripeWebhook.paymentDate sd))); by simplify_map_eq.
  - intros Hu. exists number. split; [exact Hn|].
    assert (jval_eqb (StripeWebhook.amountPaid sd) JUndef = false) as ->.
    { destruct (jval_eqb _ _) eqn:E; [|reflexivity]. apply jval_eqb_eq in E. contradiction. }
    simpl negb. cbv iota.
    destruct (truthy (StripeWebhook.sessionId sd)),
             (truthy (JStr (StripeWebhook.paymentDate sd))); by simplify_map_eq.
  - intros Hd.
    assert (truthy (JStr (StripeWebhook.paymentDate sd)) = true) as ->.
    { simpl. destruct (StripeWebhook.paymentDate sd); [contradiction | reflexivity]. }
    by simplify_map_eq.
Qed.

(** C8. The store answering every call, processing the same event a second
    time, from the state the first processing left, gives the same outcome,
    leaves every record as the first processing left it, and sends the same
    calls again. For a paid [checkout.session.completed] event with an email
    the minimal webhook sends the query by email and, for each record with
    that email, one patch of the status, and its second response is a 200
    response. So does the webhook that records the Stripe session once its
    first processing has answered 200: each patch carries the properties built
    for the session (the status, and the session id, dashboard link, amount
    and payment date the session has), the same the second time as the first,
    and the second response is the first one, a 200 response and not an
    error. *)
Theorem webhook_replay_is_idempotent env args w :
  reliable w ->
  replays_identically (Webhook.main env args) w
  /\ replays_identically (StripeWebhook.main env args) w
  /\ (forall session email,
        payment_event args session email ->
        (replays (Webhook.main env args) w
           (marking_calls email {[ "status" := paid_status ]} (store w))
         /\ exists resp,
              fst (Webhook.main env args (snd (Webhook.main env args w))) = Return resp
              /\ statusCode resp = 200)
        /\ (forall resp,
              fst (StripeWebhook.main env args w) = Return resp ->
              statusCode resp = 200 ->
              exists sd props,
                StripeWebhook.extract env session = Return sd
                /\ replays (StripeWebhook.main env args) w
                     (marking_calls email props (store w))
                /\ fst (StripeWebhook.main env args (snd (StripeWebhook.main env args w)))
                   = Return resp
                /\ (filter (has_email email) (store w) <> [] ->
                    records_session env sd props))).
Proof.
  intros Hw.
  split; [apply webhook_main_replays, Hw|].
  split; [apply stripe_main_replays, Hw|].
  intros session email Hev. split.
  - assert (replays (Webhook.main env args) w
              (marking_calls email {[ "status" := paid_status ]} (store w))) as Hr.
    { eapply replays_ext; [|apply webhook_process_replays, Hw].
      intros w0. apply (webhook_main_payment env args session email w0 Hev). }
    split; [exact Hr|].
    destruct Hr as (-> & _).
    rewrite (webhook_main_payment env args session email w Hev).
    rewrite webhook_process_served by exact Hw.
    eexists. split; [reflexivity|]. apply webhook_response_status.
  - intros resp Hfirst Hcode.
    destruct (StripeWebhook.extract env session) as [sd|e] eqn:Hsd.
    2:{ rewrite (stripe_main_payment env args session email w Hev) in Hfirst.
        unfold bind, eval in Hfirst. rewrite Hsd in Hfirst. discriminate. }
    assert (forall w0, StripeWebhook.main env args w0
                       = StripeWebhook.process env email sd w0) as Hmain.
    { intros w0. apply (stripe_main_extracted env args session email sd w0 Hev Hsd). }
    destruct (StripeWebhook.stripe_properties env sd) as [props|e] eqn:Hprops.
    + exists sd, props. split; [reflexivity|].
      assert (replays (StripeWebhook.main env args) w
                (marking_calls email props (store w))) as Hr.
      { eapply replays_ext; [exact Hmain|].
        apply stripe_process_built_replays; assumption. }
      split; [exact Hr|]. split.
      * destruct Hr as (-> & _). exact Hfirst.
      * intros _. apply stripe_properties_record, Hprops.
    + destruct (filter (has_email email) (store w)) as [|p ps] eqn:E.
      * exists sd, ∅. split; [reflexivity|].
        assert (replays (StripeWebhook.main env args) w
                  (marking_calls email ∅ (store w))) as Hr.
        { rewrite marking_calls_no_match by exact E.
          eapply replays_ext; [exact Hmain|].
          eapply stripe_process_unbuilt_replays; eassumption. }
        split; [exact Hr|]. split.
        -- destruct Hr as (-> & _). exact Hfirst.
        -- intros Hne. contradiction.
      * rewrite Hmain in Hfirst.
        rewrite (stripe_process_unbuilt env email sd e w Hprops (reliable_next w Hw))
          in Hfirst by (rewrite E; discriminate).
        injection Hfirst as <-. discriminate Hcode.
Qed.

(** Ana's payment, delivered twice to the webhook that records the Stripe
    session: both deliveries send the query and the same patch of her record,
    with the status, the session, the link, 49 dollars and the day of the
    payment, and the second delivery is answered as the first, with 200. *)
Lemma webhook_replay_is_idempotent_witness :
  reliable (world_of open_cohort)
  /\ payment_event (post ana_paid) ana_session (JStr (lit "ana@x.com"))
  /\ replays (StripeWebhook.main sample_env (post ana_paid)) (world_of open_cohort)
       [email_query (JStr (lit "ana@x.com"));
        Patch (lit "ana-1")
          {[ "status" := paid_status;
             "stripe_session_id" := rich (JStr (lit "cs_test_1"));
             "stripe_link" :=
               PUrl (JStr (lit "https://dashboard.stripe.com/payments/cs_test_1"));
             "amount_paid" := PNumber (Rat (QArith_base.Qmake 49 1));
             "payment_date" := PDate (JStr (lit "2024-03-02")) ]}]
  /\ exists resp,
       fst (StripeWebhook.main sample_env (post ana_paid)
              (snd (StripeWebhook.main sample_env (post ana_paid) (world_of open_cohort))))
       = Return resp
       /\ statusCode resp = 200.
Proof.
  split; [apply reliable_world_of|].
  split; [exact ana_paid_is_payment_event|].
  destruct (webhook_replay_is_idempotent sample_env (post ana_paid) (world_of open_cohort)
              (reliable_world_of open_cohort)) as (_ & _ & Hpayment).
  destruct (Hpayment ana_session (JStr (lit "ana@x.com")) ana_paid_is_payment_event)
    as [_ Hstripe].
  destruct (Hstripe _ eq_refl eq_refl) as (sd & props & Hsd & Hreplays & Hsecond & Hprops).
  destruct (Hprops ltac:(discriminate)) as [Hbuilt _].
  assert (Return sd
          = Return (StripeWebhook.mkStripeData (JStr (lit "cs_test_1")) (JNum 4900)
                      (lit "2024-03-02") (JStr (lit "Ana")) (JStr (lit "usd")))) as Esd
    by (rewrite <- Hsd; reflexivity).
  injection Esd as ->.
  assert (Return props
          = Return ({[ "status" := paid_status;
                       "stripe_session_id" := rich (JStr (lit "cs_test_1"));
                       "stripe_link" :=
                         PUrl (JStr (lit "https://dashboard.stripe.com/payments/cs_test_1"));
                       "amount_paid" := PNumber (Rat (QArith_base.Qmake 49 1));
                       "payment_date" := PDate (JStr (lit "2024-03-02")) ]}
                    : gmap string PropVal)) as Eprops
    by (rewrite <- Hbuilt; reflexivity).
  injection Eprops as ->.
  split; [exact Hreplays|].
  eexists. split; [exact Hsecond | reflexivity].
Defined.

(** C8 as stated fails for the webhook that records the Stripe session. Ana's
    record is already paid; a paid event with her email whose session
    identifier is an object with a property [toString] of its own is answered
    502 the first time and 502 the second time, an error response, and no
    patch is sent. *)
Lemma replayed_object_identifier_is_refused :
  payment_event (post object_id_paid) object_id_session (JStr (lit "ana@x.com"))
  /\ reliable (world_of [ana_paid_record])
  /\ is_paid ana_paid_record
  /\ (let first :=
        StripeWebhook.main sample_env (post object_id_paid) (world_of [ana_paid_record]) in
      let second := StripeWebhook.main sample_env (post object_id_paid) (snd first) in
      fst first
      = Return (bad 502 [("error", JStr (lit "Cannot convert object to primitive value"))])
      /\ second
         = (Return (bad 502 [("error",
                              JStr (lit "Cannot convert object to primitive value"))]),
            mkWorld [ana_paid_record] []
              [email_query (JStr (lit "ana@x.com")); email_query (JStr (lit "ana@x.com"))]
              [])).
Proof.
  split; [exact object_id_paid_is_payment_event|].
  split; [apply reliable_world_of|].
  split; [reflexivity|]. cbv zeta. split; reflexivity.
Qed.

(** After the first delivery Ana's record is paid and carries the Stripe
    session; the second delivery leaves it so. *)
Example ana_paid_twice :
  let first := StripeWebhook.main sample_env (post ana_paid) (world_of open_cohort) in
  let second := StripeWebhook.main sample_env (post ana_paid) (snd first) in
  (fun p => (properties p !! "status", properties p !! "stripe_session_id",
             properties p !! "payment_date")) <$> store (snd first) !! 3%nat
  = Some (Some paid_status, Some (rich (JStr (lit "cs_test_1"))),
          Some (PDate (JStr (lit "2024-03-02"))))
  /\ store (snd second) = store (snd first)
  /\ fst second = fst first.
Proof. by_evaluation. Qed.

(** ** An event without a session (C9) *)

Lemma sessionless_event_session event :
  sessionless_event event ->
  truthy event = true
  /\ (session_of event = Return JUndef \/ session_of event = Return JNull).
Proof.
  intros [(type & Hty & Hc) Hdata]. split.
  - destruct event; try reflexivity; simpl in Hty; inversion Hty; subst; discriminate.
  - unfold session_of, and_then, member, obind in *. simpl in *.
    destruct Hdata as [->|(data & -> & [Ho|Ho])]; simpl; rewrite ?Ho; auto.
Qed.

Lemma email_of_no_session session :
  session = JUndef \/ session = JNull ->
  paid_of session = Return session
  /\ exists e, email_of session = Throw e /\ kind e = TypeError.
Proof. intros [->| ->]; (split; [reflexivity|]); eexists; split; reflexivity. Qed.

(** C9. For every posted request whose body decodes to an event of type
    [checkout.session.completed] with [data] absent, or with [data.object]
    null or undefined, both webhooks compute a null or undefined session, the
    guarded accesses ([session && ...]) short-circuit, and the unguarded
    [session.customer_email] throws a [TypeError] that nothing catches: the
    handler returns no response at all, and makes no call to the store. *)
Theorem sessionless_event_throws env args event w :
  is_str (ow_method args) "post" = true ->
  ow_body args = Parsed event ->
  sessionless_event event ->
  exists session e,
    session_of event = Return session
    /\ (session = JUndef \/ session = JNull)
    /\ paid_of session = Return session
    /\ email_of session = Throw e
    /\ kind e = TypeError
    /\ Webhook.main env args w = (Throw e, w)
    /\ StripeWebhook.main env args w = (Throw e, w).
Proof.
  intros Hpost Hbody Hev.
  assert (parseEvent args = event) as Hparse by (unfold parseEvent; rewrite Hbody; reflexivity).
  destruct (sessionless_event_session event Hev) as [Htruthy Hsession].
  destruct Hev as [(type & Hty & Hc) _].
  assert (exists session, session_of event = Return session
                          /\ (session = JUndef \/ session = JNull)) as (session & Hs & Hnone).
  { destruct Hsession as [H|H]; eauto. }
  destruct (email_of_no_session session Hnone) as [Hpaid (e & He & Hk)].
  exists session, e. repeat (split; [assumption|]).
  unfold Webhook.main, StripeWebhook.main.
  rewrite (is_str_post_not_options _ Hpost), Hpost, Hparse, Htruthy.
  cbv beta iota zeta. unfold bind, eval. simpl negb. cbv beta iota.
  rewrite Hty, Hc, Hs, Hpaid, He. split; reflexivity.
Qed.

(** A completed-checkout event with no [data]: both webhooks throw. *)
Lemma sessionless_event_throws_witness :
  is_str (ow_method (post (JObj [("type", JStr (lit "checkout.session.completed"))])))
         "post" = true
  /\ sessionless_event (JObj [("type", JStr (lit "checkout.session.completed"))])
  /\ exists e,
       kind e = TypeError
       /\ Webhook.main sample_env
            (post (JObj [("type", JStr (lit "checkout.session.completed"))])) (world_of [])
          = (Throw e, world_of [])
       /\ StripeWebhook.main sample_env
            (post (JObj [("type", JStr (lit "checkout.session.completed"))])) (world_of [])
          = (Throw e, world_of []).
Proof.
  assert (sessionless_event (JObj [("type", JStr (lit "checkout.session.completed"))]))
    as Hev.
  { split; [eexists; split; reflexivity | left; reflexivity]. }
  split; [reflexivity|]. split; [exact Hev|].
  destruct (sessionless_event_throws sample_env
              (post (JObj [("type", JStr (lit "checkout.session.completed"))]))
              (JObj [("type", JStr (lit "checkout.session.completed"))])
              (world_of []) eq_refl eq_refl Hev)
    as (session & e & _ & _ & _ & _ & Hk & Hmin & Hstripe).
  exists e. auto.
Defined.

(** ** The two webhooks side by side (C10) *)

Lemma find_page_None pid (st : list Page) :
  find_page pid st = None <-> pid ∉ page_id <$> st.
Proof.
  split.
  - intros Hnone Hin. destruct (find_page_elem_of pid st Hin) as [q Hq]. congruence.
  - intros Hnot. destruct (find_page pid st) as [q|] eqn:E; [|reflexivity].
    exfalso. apply Hnot. unfold find_page in E. apply find_some in E as [Hin Hid].
    apply bool_decide_eq_true in Hid. apply list_elem_of_fmap.
    exists q. split; [congruence|]. apply list_elem_of_In, Hin.
Qed.

Lemma page_ids_patch pid props (st : list Page) :
  page_id <$> (patch_page pid props <$> st) = page_id <$> st.
Proof.
  rewrite <- list_fmap_compose. apply list_fmap_ext. intros _ p _. simpl.
  unfold patch_page. destruct (bool_decide _); reflexivity.
Qed.

Section SideBySide.
Variable env : Env.

(** One patch of a page, with whatever properties, returns or throws alike
    in worlds of the same shape, and leaves worlds of the same shape. *)
Lemma patches_agree pid props props' w w' :
  same_shape w w' ->
  match fetch env (Patch pid props) w, fetch env (Patch pid props') w' with
  | (Return (RespOk _), w1), (Return (RespOk _), w1') => same_shape w1 w1'
  | (Return (RespNotOk json), w1), (Return (RespNotOk json'), w1') =>
      json = json' /\ same_shape w1 w1'
  | (Throw e, w1), (Throw e', w1') => e = e' /\ same_shape w1 w1'
  | _, _ => False
  end.
Proof.
  intros [Hr Hids]. unfold fetch, next_reply. rewrite <- Hr.
  destruct (replies w) as [|[|json|msg] rest]; simpl;
    try (repeat split; simpl; congruence).
  - destruct (find_page pid (store w)) as [q|] eqn:E,
             (find_page pid (store w')) as [q'|] eqn:E'.
    + split; simpl; [congruence | rewrite !page_ids_patch; exact Hids].
    + apply find_page_None in E'. rewrite <- Hids in E'. apply find_page_None in E'.
      congruence.
    + apply find_page_None in E. rewrite Hids in E. apply find_page_None in E.
      congruence.
    + repeat split; simpl; congruence.
  - destruct (find_page pid (store w)) as [q|] eqn:E,
             (find_page pid (store w')) as [q'|] eqn:E'.
    + split; simpl; [congruence | rewrite !page_ids_patch; exact Hids].
    + apply find_page_None in E'. rewrite <- Hids in E'. apply find_page_None in E'.
      congruence.
    + apply find_page_None in E. rewrite Hids in E. apply find_page_None in E.
      congruence.
    + repeat split; simpl; congruence.
Qed.

Lemma marks_agree pid sd props w w' :
  StripeWebhook.stripe_properties env sd = Return props ->
  same_shape w w' ->
  agree (fst (StripeWebhook.markPaidWithStripeInfo env pid sd w))
        (fst (Webhook.markPaid env pid w'))
  /\ same_shape (snd (StripeWebhook.markPaidWithStripeInfo env pid sd w))
                (snd (Webhook.markPaid env pid w')).
Proof.
  intros Hprops Hs.
  unfold StripeWebhook.markPaidWithStripeInfo, Webhook.markPaid, bind, eval.
  rewrite Hprops.
  pose proof (patches_agree pid props {[ "status" := paid_status ]} w w' Hs) as H.
  destruct (fetch env (Patch pid props) w) as [[[j|j]|e] w1],
    (fetch env (Patch pid {[ "status" := paid_status ]}) w') as [[[j'|j']|e'] w1'];
    simpl in *; try contradiction.
  - split; [exact I | exact H].
  - destruct H as [-> H]. split; [reflexivity | exact H].
  - destruct H as [-> H]. split; [reflexivity | exact H].
Qed.

(** The two loops count alike, when the patch is built. *)
Lemma loops_agree sd props ps :
  StripeWebhook.stripe_properties env sd = Return props ->
  forall n acc w w',
  same_shape w w' ->
  match fst (StripeWebhook.mark_each env sd ps n acc w),
        fst (Webhook.mark_each env ps n w') with
  | Return done, Return updated => fst done = updated
  | Throw e, Throw e' => e = e'
  | _, _ => False
  end.
Proof.
  intros Hprops. destruct (stripe_properties_link env sd props Hprops) as [link Hlink].
  induction ps as [|p ps IH]; intros n acc w w' Hs; [reflexivity|].
  simpl. unfold bind.
  destruct (marks_agree (page_id p) sd props w w' Hprops Hs) as [Ha Hs1].
  destruct (StripeWebhook.markPaidWithStripeInfo env (page_id p) sd w) as [[j|e] w1],
           (Webhook.markPaid env (page_id p) w') as [[j'|e'] w1'];
    simpl in *; try contradiction; [|exact Ha].
  unfold eval. rewrite Hlink. apply IH, Hs1.
Qed.

Lemma same_shape_refl w : same_shape w w.
Proof. split; reflexivity. Qed.

(** The minimal processing block answers whatever happens. *)
Lemma webhook_process_answers email w :
  exists resp, fst (Webhook.process env email w) = Return resp.
Proof.
  unfold Webhook.process, try_catch.
  match goal with |- context [match ?m w with _ => _ end] => destruct (m w) as [[resp|e] w1] end;
    eexists; reflexivity.
Qed.

(** The two processing blocks answer with the same status and the same
    count when the patch is built; when it is not, and there is a record to
    mark, the block that records the session answers 502. *)
Lemma processes_agree email sd w :
  exists resp resp',
    fst (StripeWebhook.process env email sd w) = Return resp
    /\ fst (Webhook.process env email w) = Return resp'
    /\ ((statusCode resp' = statusCode resp
         /\ body_field resp' "updated" = body_field resp "updated")
        \/ exists e, StripeWebhook.stripe_properties env sd = Throw e
                     /\ resp = bad 502 [("error", JStr (message e))]).
Proof.
  destruct (webhook_process_answers email w) as [resp' Hresp'].
  revert Hresp'.
  unfold StripeWebhook.process, Webhook.process, try_catch, bind.
  destruct (findPagesByEmail env email w) as [[[|p ps]|e] w1].
  - intros [= <-]. eexists _, _. split; [reflexivity|]. split; [reflexivity|].
    left. split; reflexivity.
  - destruct (StripeWebhook.stripe_properties env sd) as [props|e] eqn:Hprops.
    + intros _.
      destruct (stripe_properties_link env sd props Hprops) as [link Hlink].
      destruct (stripe_amount_text env sd props Hprops) as [amount Hamount].
      pose proof (loops_agree sd props (p :: ps) Hprops 0 [] w1 w1 (same_shape_refl w1))
        as H.
      destruct (StripeWebhook.mark_each env sd (p :: ps) 0 [] w1) as [[done|e] w2],
               (Webhook.mark_each env (p :: ps) 0 w1) as [[updated|e'] w2'];
        simpl in H; try contradiction; subst.
      * unfold eval. rewrite Hlink, Hamount.
        eexists _, _. split; [reflexivity|]. split; [reflexivity|].
        left. split; reflexivity.
      * eexists _, _. split; [reflexivity|]. split; [reflexivity|].
        left. split; reflexivity.
    + intros Hresp'. exists (bad 502 [("error", JStr (message e))]), resp'.
      split; [|split; [exact Hresp'|right; exists e; split; reflexivity]].
      cbn [StripeWebhook.mark_each]. unfold bind.
      rewrite (markPaidWithStripeInfo_throws env _ _ e) by exact Hprops. reflexivity.
  - intros [= <-]. eexists _, _. split; [reflexivity|]. split; [reflexivity|].
    left. split; reflexivity.
Qed.

End SideBySide.

(** A conversion throws the one [TypeError]. *)
Lemma to_text_throws env v e : to_text env v = Throw e -> e = cannot_convert.
Proof.
  revert e. induction v as [ | | b | z | s | l IH | l IH] using JVal_nested_ind;
    intros e; try discriminate.
  - change (to_text env (JArr l)) with (join (to_text env) l true).
    generalize true.
    induction IH as [|x l Hx _ IHl]; intros first; [discriminate|].
    cbn [join].
    destruct (match x with
              | JUndef | JNull => Return []
              | _ => to_text env x
              end) as [s|e'] eqn:Ex; cbn [obind].
    + destruct (join (to_text env) l false) as [t|e''] eqn:Ej; [discriminate|].
      cbn [obind]. intros [= <-]. eapply IHl, Ej.
    + intros [= <-]. apply Hx.
      destruct x; try discriminate; exact Ex.
  - simpl. destruct (has_own "toString" l); [intros [= <-]; reflexivity | discriminate].
Qed.

Lemma to_number_throws env v e : to_number env v = Throw e -> e = cannot_convert.
Proof.
  destruct v as [ | | b | z | s | l | l]; try discriminate.
  - unfold to_number. destruct (to_text env (JArr l)) as [s|e'] eqn:E; [discriminate|].
    intros [= <-]. eapply to_text_throws, E.
  - simpl. destruct (has_own "toString" l); [intros [= <-]; reflexivity | discriminate].
Qed.

Lemma stripe_properties_throws env sd e :
  StripeWebhook.stripe_properties env sd = Throw e -> e = cannot_convert.
Proof.
  unfold StripeWebhook.stripe_properties, StripeWebhook.stripe_url.
  destruct (truthy (StripeWebhook.sessionId sd)).
  - destruct (to_text env (StripeWebhook.sessionId sd)) as [text|e'] eqn:Et; simpl.
    + destruct (negb (jval_eqb (StripeWebhook.amountPaid sd) JUndef)); [|discriminate].
      destruct (to_number env (StripeWebhook.amountPaid sd)) as [n|e'] eqn:En; simpl;
        [discriminate|].
      intros [= <-]. eapply to_number_throws, En.
    + intros [= <-]. eapply to_text_throws, Et.
  - simpl. destruct (negb (jval_eqb (StripeWebhook.amountPaid sd) JUndef)); [|discriminate].
    destruct (to_number env (StripeWebhook.amountPaid sd)) as [n|e'] eqn:En; simpl;
      [discriminate|].
    intros [= <-]. eapply to_number_throws, En.
Qed.

(** C10. For every invocation record and every state of the store and of
    the network, whenever the webhook that records the Stripe session returns
    a response, the minimal webhook returns a response too. The two have the
    same status code and the same [updated] count (absent from both when the
    event is ignored or refused), unless the identifier or the amount of the
    session does not convert: then the webhook that records the session has
    answered 502 with the message of the [TypeError], whatever the minimal
    webhook answers. *)
Theorem minimal_webhook_answers_like_stripe_webhook env args w resp :
  fst (StripeWebhook.main env args w) = Return resp ->
  exists resp',
    fst (Webhook.main env args w) = Return resp'
    /\ ((statusCode resp' = statusCode resp
         /\ body_field resp' "updated" = body_field resp "updated")
        \/ (unconvertible_event env args /\ resp = conversion_refused)).
Proof.
  unfold unconvertible_event.
  unfold StripeWebhook.main, Webhook.main, bind, eval, ret.
  destruct (is_str (ow_method args) "options"); [intros [= <-]; eauto 6|].
  destruct (negb (is_str (ow_method args) "post")); [intros [= <-]; eauto 6|].
  cbv zeta.
  destruct (negb (truthy (parseEvent args))); [intros [= <-]; eauto 6|].
  destruct (val (parseEvent args) .> "type") as [type|e]; [|discriminate].
  destruct (negb (is_str type "checkout.session.completed")); [intros [= <-]; eauto 6|].
  destruct (session_of (parseEvent args)) as [session|e]; [|discriminate].
  destruct (paid_of session) as [paid|e]; [|discriminate].
  destruct (email_of session) as [email|e]; [|discriminate].
  destruct (negb (truthy paid)); [intros [= <-]; eauto 6|].
  destruct (negb (truthy email)); [intros [= <-]; eauto 6|].
  destruct (StripeWebhook.extract env session) as [sd|e] eqn:Hsd; [|discriminate].
  intros H. destruct (processes_agree env email sd w) as (r & r' & Hr & Hr' & Hc).
  rewrite Hr in H. injection H as <-. exists r'. split; [exact Hr'|].
  destruct Hc as [Hc|(e & He & ->)]; [left; exact Hc|].
  pose proof (stripe_properties_throws env sd e He) as ->.
  right. split; [|reflexivity]. exists session, sd. auto.
Qed.

(** The webhook that records the Stripe session answers Ana's payment with
    200 and [updated: 1]; so does the minimal webhook. *)
Lemma minimal_webhook_answers_like_stripe_webhook_witness :
  exists resp,
    fst (StripeWebhook.main sample_env (post ana_paid) (world_of open_cohort)) = Return resp
    /\ statusCode resp = 200
    /\ body_field resp "updated" = JNum 1
    /\ exists resp',
         fst (Webhook.main sample_env (post ana_paid) (world_of open_cohort)) = Return resp'
         /\ ((statusCode resp' = statusCode resp
              /\ body_field resp' "updated" = body_field resp "updated")
             \/ (unconvertible_event sample_env (post ana_paid)
                 /\ resp = conversion_refused)).
Proof.
  eexists. split; [vm_compute; reflexivity|].
  split; [reflexivity|]. split; [reflexivity|].
  refine (minimal_webhook_answers_like_stripe_webhook sample_env (post ana_paid)
            (world_of open_cohort) _ _).
  vm_compute. reflexivity.
Defined.

(** C10 as stated fails. A paid event with Ana's email whose session
    identifier is an object with a property [toString] of its own, and Ana's
    record in the store: the webhook that records the Stripe session answers
    502, the template literal of the dashboard link having thrown before the
    patch; the minimal webhook patches the record and answers 200 with
    [updated: 1]. *)
Lemma stripe_webhook_answers_502_where_minimal_answers_200 :
  fst (StripeWebhook.main sample_env (post object_id_paid) (world_of open_cohort))
  = Return conversion_refused
  /\ statusCode conversion_refused = 502
  /\ body_field conversion_refused "updated" = JUndef
  /\ fst (Webhook.main sample_env (post object_id_paid) (world_of open_cohort))
     = Return (ok [("updated", JNum 1); ("email", JStr (lit "ana@x.com"))])
  /\ statusCode (ok [("updated", JNum 1); ("email", JStr (lit "ana@x.com"))]) = 200
  /\ calls (snd (StripeWebhook.main sample_env (post object_id_paid) (world_of open_cohort)))
     = [email_query (JStr (lit "ana@x.com"))]
  /\ calls (snd (Webhook.main sample_env (post object_id_paid) (world_of open_cohort)))
     = [email_query (JStr (lit "ana@x.com"));
        Patch (lit "ana-1") {[ "status" := paid_status ]}].
Proof. repeat split; reflexivity. Qed.

(** ** The status only moves forward (C7) *)

#[global] Instance forward_preorder : PreOrder forward.
Proof.
  split.
  - intros w. split.
    + intros i p Hp. exists p. auto.
    + exists []. rewrite app_nil_r. auto.
  - intros a b c [Hab (n1 & Hc1 & Hf1)] [Hbc (n2 & Hc2 & Hf2)]. split.
    + intros i p Hp.
      destruct (Hab i p Hp) as (p1 & Hp1 & Hid1 & Hs1).
      destruct (Hbc i p1 Hp1) as (p2 & Hp2 & Hid2 & Hs2).
      exists p2. split; [exact Hp2|]. split; [congruence|].
      unfold is_paid in *. destruct Hs2 as [Hs2|Hs2]; [|auto].
      destruct Hs1 as [Hs1|Hs1]; [left | right]; congruence.
    + exists (n1 ++ n2). rewrite Hc2, Hc1, <- app_assoc.
      split; [reflexivity|]. apply Forall_app; auto.
Qed.

Lemma status_forward_refl st : status_forward st st.
Proof. intros i p Hp. exists p. auto. Qed.

Lemma forward_fetch env rq : forward_write rq -> respects forward (fetch env rq).
Proof.
  intros Hrq w. unfold forward, fetch.
  assert (exists new, calls w ++ [rq] = calls w ++ new /\ Forall forward_write new) as Hcalls.
  { exists [rq]. split; [reflexivity|]. constructor; [exact Hrq | constructor]. }
  destruct (next_reply w); [|split; [apply status_forward_refl | exact Hcalls]..].
  destruct rq as [f|props|pid props]; simpl.
  - split; [apply status_forward_refl | exact Hcalls].
  - split; [|exact Hcalls]. intros i p Hp. exists p.
    split; [apply lookup_app_l_Some, Hp | auto].
  - destruct (find_page pid (store w)) as [found|]; simpl;
      (split; [|exact Hcalls]); [|apply status_forward_refl].
    intros i p Hp. eexists. split; [rewrite list_lookup_fmap, Hp; reflexivity|].
    unfold patch_page, is_paid. destruct (bool_decide (page_id p = pid)); simpl; [|auto].
    split; [reflexivity|]. destruct Hrq as [Hrq|Hrq].
    + right. apply lookup_union_Some_l, Hrq.
    + left. apply lookup_union_r, Hrq.
Qed.

Lemma forward_console label msg : respects forward (console_error label msg).
Proof.
  intros w. split; [apply status_forward_refl|].
  exists []. simpl. rewrite app_nil_r. auto.
Qed.

Lemma goal_patch_leaves_status g : Register.goal_patch g !! "status" = None.
Proof. by apply lookup_singleton_ne. Qed.

Lemma class_date_payload_status n e d c :
  RegisterClassDate.payload n e d c !! "status" = None.
Proof. unfold RegisterClassDate.payload. by simplify_map_eq. Qed.

Ltac forward_write_solver :=
  match goal with
  | |- forward_write (Query _) => exact I
  | |- forward_write (Create (Register.payload _)) => left; apply payload_fields
  | |- forward_write (Create (RegisterClassDate.payload _ _ _ _)) =>
      right; apply class_date_payload_status
  | |- forward_write (Patch _ (Register.goal_patch _)) =>
      right; apply goal_patch_leaves_status
  | H : StripeWebhook.stripe_properties _ _ = Return ?props
    |- forward_write (Patch _ ?props) =>
      left; apply (stripe_properties_status _ _ _ H)
  | |- forward_write (Patch _ {[ "status" := paid_status ]}) =>
      left; apply status_patch_status
  end.

Ltac forward_steps :=
  respects_structure;
  first [ apply forward_console | apply forward_fetch; forward_write_solver ].

Section ForwardFacts.
Variable env : Env.

Lemma forward_register args : respects forward (Register.main env args).
Proof.
  unfold Register.main, Register.check_availability, Register.register, Register.gate,
    Register.after_gate, Register.upsert_existing, Register.create,
    Register.checkCohortAvailability, Register.findExistingRecord,
    Register.updateExistingRecord.
  forward_steps.
Qed.

Lemma forward_register_basic args : respects forward (RegisterBasic.main env args).
Proof. unfold RegisterBasic.main. forward_steps. Qed.

Lemma forward_register_class_date args :
  respects forward (RegisterClassDate.main env args).
Proof. unfold RegisterClassDate.main, RegisterClassDate.create. forward_steps. Qed.

Lemma forward_mark_each ps : forall n, respects forward (Webhook.mark_each env ps n).
Proof.
  induction ps as [|p ps IH]; intros n; simpl; [forward_steps|].
  apply respects_bind; [apply _ | | intros _; apply IH].
  unfold Webhook.markPaid. forward_steps.
Qed.

Lemma forward_stripe_mark_each sd ps :
  forall n acc, respects forward (StripeWebhook.mark_each env sd ps n acc).
Proof.
  induction ps as [|p ps IH]; intros n acc; simpl; [forward_steps|].
  apply respects_bind; [apply _ | | intros _].
  - unfold StripeWebhook.markPaidWithStripeInfo.
    apply respects_bind_eval; [apply _|]. intros props Hprops. forward_steps.
  - apply respects_bind; [apply _ | apply respects_eval; apply _ | intros link; apply IH].
Qed.

Lemma forward_webhook args : respects forward (Webhook.main env args).
Proof.
  unfold Webhook.main, Webhook.process, findPagesByEmail.
  respects_structure;
    first [ apply forward_mark_each | apply forward_fetch; forward_write_solver ].
Qed.

Lemma forward_stripe_webhook args : respects forward (StripeWebhook.main env args).
Proof.
  unfold StripeWebhook.main, StripeWebhook.process, findPagesByEmail.
  pose proof forward_stripe_mark_each as Hloop.
  set (loop := StripeWebhook.mark_each env) in *. clearbody loop.
  respects_structure;
    first [ apply Hloop | apply forward_fetch; forward_write_solver ].
Qed.

End ForwardFacts.

Lemma forward_keeps_paid w w' :
  forward w w' ->
  forall i p, store w !! i = Some p -> is_paid p ->
    exists p', store w' !! i = Some p' /\ page_id p' = page_id p /\ is_paid p'.
Proof.
  intros [Hst _] i p Hp Hpaid. destruct (Hst i p Hp) as (p' & Hp' & Hid & Hs).
  exists p'. split; [exact Hp'|]. split; [exact Hid|].
  destruct Hs as [Hs|Hs]; [|exact Hs]. unfold is_paid in *. congruence.
Qed.

(** C7. For every handler, every request and every state of the store and
    of the network: each call the handler makes is a query, a creation whose
    status is registered (or that has no status property), or a patch that
    sets the status to paid or does not name the status (the patch of the
    goal); every record that was in the store is still there afterwards with
    a status that is the one it had or paid; so a record that was paid is
    still paid, and nothing writes registered over it. *)
Theorem status_only_moves_forward env :
  Forall (fun handler : Args -> M Response =>
            forall args w,
              status_forward (store w) (store (snd (handler args w)))
              /\ (exists new, calls (snd (handler args w)) = calls w ++ new
                              /\ Forall forward_write new)
              /\ forall i p, store w !! i = Some p -> is_paid p ->
                   exists p', store (snd (handler args w)) !! i = Some p'
                              /\ page_id p' = page_id p /\ is_paid p')
         (handlers env).
Proof.
  assert (forall handler : Args -> M Response,
            (forall args, respects forward (handler args)) ->
            forall args w,
              status_forward (store w) (store (snd (handler args w)))
              /\ (exists new, calls (snd (handler args w)) = calls w ++ new
                              /\ Forall forward_write new)
              /\ forall i p, store w !! i = Some p -> is_paid p ->
                   exists p', store (snd (handler args w)) !! i = Some p'
                              /\ page_id p' = page_id p /\ is_paid p') as Hall.
  { intros handler H args w. pose proof (H args w) as Hf.
    destruct Hf as [Hst Hcalls].
    split; [exact Hst|]. split; [exact Hcalls|].
    apply forward_keeps_paid. split; assumption. }
  unfold handlers.
  constructor; [apply Hall, forward_register|].
  constructor; [apply Hall, forward_register_basic|].
  constructor; [apply Hall, forward_register_class_date|].
  constructor; [apply Hall, forward_webhook|].
  constructor; [apply Hall, forward_stripe_webhook|].
  constructor.
Qed.

(** ** The scenarios of the specification, run on the embedding *)

Example validEmail_examples :
  Register.validEmail (JStr (lit "a@b.com")) = Return true
  /\ Register.validEmail (JStr (lit "not-an-email")) = Return false
  /\ Register.validEmail (JStr (lit "  a@b.com  ")) = Return true
  /\ Register.validEmail JUndef = Return false
  /\ test ISO_DATE_RE (lit "2024-99-99") = true
  /\ test ISO_DATE_RE (lit "2024-3-01") = false.
Proof. by_evaluation. Qed.

(** Ana registers in an empty store and then pays: her record is created
    with the status registered, and the webhook marks it as paid. *)
Example register_then_pay :
  let registration := Register.main sample_env (post ana_request) (world_of []) in
  let payment := Webhook.main sample_env (post ana_paid) (snd registration) in
  fst registration
  = Return (created_response (mkPage (lit "page-") (Register.payload ana)))
  /\ store (snd registration) = [mkPage (lit "page-") (Register.payload ana)]
  /\ fst payment
     = Return (ok [("updated", JNum 1); ("email", JStr (lit "ana@x.com"))])
  /\ (fun p => properties p !! "status") <$> store (snd payment)
     = [Some paid_status].
Proof. by_evaluation. Qed.

(** Ana registers twice with two goals: one record, with the second goal,
    and the second response reports an update. *)
Example register_twice :
  let again :=
    JObj [("name", JStr (lit "Ana")); ("email", JStr (lit "ana@x.com"));
          ("start_date", JStr (lit "2024-03-01")); ("cohort", JStr (lit "spring"));
          ("goal", JStr (lit "build an app"))] in
  let first := Register.main sample_env (post ana_request) (world_of []) in
  let second := Register.main sample_env (post again) (snd first) in
  fst second
  = Return (updated_response (mkPage (lit "page-") (Register.payload ana)))
  /\ length (store (snd second)) = 1%nat
  /\ (fun p => (properties p !! "expectation", properties p !! "status"))
     <$> store (snd second)
     = [(Some (rich (JStr (lit "build an app"))),
         Some (PSelect (JStr (lit "registered"))))].
Proof. by_evaluation. Qed.

(** * Further properties of the handlers *)

(** ** What the two patterns accept *)

(** X1. [validEmail] accepts a string exactly when, once trimmed, it is
    [a@b.c] with [a], [b] and [c] not empty and free of white space and of
    [@]. *)
Theorem validEmail_accepts_local_at_domain_dot_tld (s : jstring) :
  Register.validEmail (JStr s) = Return true
  <-> exists a b c, trim s = a ++ [64%N] ++ b ++ [46%N] ++ c
                    /\ email_part a /\ email_part b /\ email_part c.
Proof.
  rewrite validEmail_string, <- matches_EMAIL_RE, <- test_matches.
  split; [intros [= H]; exact H | intros H; rewrite H; reflexivity].
Qed.

Lemma email_part_no_at a : email_part a -> count_occ N.eq_dec a 64%N = 0%nat.
Proof.
  intros [_ H]. apply count_occ_not_In. intros Hin.
  rewrite Forall_forall in H. apply list_elem_of_In, H in Hin as [_ Hne]. congruence.
Qed.

Lemma email_part_no_space a : email_part a -> Forall (fun c => is_space c = false) a.
Proof. intros [_ H]. eapply Forall_impl; [exact H|]. intros c [Hc _]. exact Hc. Qed.

(** X2. An address that [validEmail] accepts has, once trimmed, exactly one
    [@], no white space, and a dot after the [@]. *)
Theorem valid_email_has_one_at_sign (s : jstring) :
  Register.validEmail (JStr s) = Return true ->
  count_occ N.eq_dec (trim s) 64%N = 1%nat
  /\ Forall (fun c => is_space c = false) (trim s)
  /\ exists before after, trim s = before ++ 64%N :: after /\ In 46%N after.
Proof.
  rewrite validEmail_string. intros [= H].
  apply test_matches, matches_EMAIL_RE in H as (a & b & c & -> & Ha & Hb & Hc).
  split; [|split].
  - rewrite !count_occ_app, (email_part_no_at a Ha), (email_part_no_at b Hb),
      (email_part_no_at c Hc). reflexivity.
  - rewrite !Forall_app. repeat split; try (apply email_part_no_space; assumption);
      repeat constructor.
  - exists a, (b ++ [46%N] ++ c). split; [reflexivity|].
    apply in_or_app. right. left. reflexivity.
Qed.

Lemma valid_email_has_one_at_sign_witness :
  Register.validEmail (JStr (lit " ana@x.com ")) = Return true
  /\ count_occ N.eq_dec (trim (lit " ana@x.com ")) 64%N = 1%nat.
Proof.
  split; [reflexivity|].
  apply (valid_email_has_one_at_sign (lit " ana@x.com ")). reflexivity.
Defined.

(** X3. The date pattern checks the shape only: it accepts exactly the
    strings of four digits, a hyphen, two digits, a hyphen and two digits,
    whatever month and day the digits spell. *)
Theorem date_pattern_accepts_digit_shape (s : jstring) :
  test ISO_DATE_RE s = true
  <-> exists y1 y2 y3 y4 m1 m2 d1 d2,
        s = [y1; y2; y3; y4; 45%N; m1; m2; 45%N; d1; d2]
        /\ Forall (fun c => is_digit c = true) [y1; y2; y3; y4; m1; m2; d1; d2].
Proof. rewrite test_matches. apply matches_ISO_DATE_RE. Qed.

(** *** Trimming *)

(** X4. White space around an address does not change what [validEmail]
    answers. *)
Theorem validEmail_ignores_surrounding_space (pre s post : jstring) :
  all_space pre -> all_space post ->
  Register.validEmail (JStr (pre ++ s ++ post)) = Register.validEmail (JStr s).
Proof.
  intros Hpre Hpost. rewrite !validEmail_string, (trim_spaces pre s post Hpre Hpost).
  reflexivity.
Qed.

Lemma validEmail_ignores_surrounding_space_witness :
  all_space (lit "  ") /\ all_space [9%N; 10%N]
  /\ Register.validEmail (JStr (lit "  " ++ lit "ana@x.com" ++ [9%N; 10%N]))
     = Register.validEmail (JStr (lit "ana@x.com")).
Proof.
  assert (all_space (lit "  ")) as H1 by (repeat constructor).
  assert (all_space [9%N; 10%N]) as H2 by (repeat constructor).
  split; [exact H1|]. split; [exact H2|].
  apply (validEmail_ignores_surrounding_space _ _ _ H1 H2).
Defined.

(** ** Responses and exceptions *)

Lemma results_ret {A} (Q : A -> Prop) (a : A) : Q a -> results Q (ret a).
Proof. intros H w b [= <-]. exact H. Qed.

Lemma results_throw {A} (Q : A -> Prop) (e : JsError) : results Q (@throw A e).
Proof. intros w a [=]. Qed.

Lemma results_bind {A B} (Q : B -> Prop) (m : M A) (k : A -> M B) :
  (forall a, results Q (k a)) -> results Q (bind m k).
Proof.
  intros Hk w b. unfold bind. destruct (m w) as [[a|e] w'] eqn:E; [apply Hk | intros [=]].
Qed.

Lemma results_try_catch {A} (Q : A -> Prop) (m : M A) (h : JsError -> M A) :
  results Q m -> (forall e, results Q (h e)) -> results Q (try_catch m h).
Proof.
  intros Hm Hh w a. unfold try_catch. specialize (Hm w).
  destruct (m w) as [[b|e] w'] eqn:E; [apply Hm | apply Hh].
Qed.

Lemma results_bind_with {A B} (P : A -> Prop) (Q : B -> Prop) (m : M A) (k : A -> M B) :
  results P m -> (forall a, P a -> results Q (k a)) -> results Q (bind m k).
Proof.
  intros Hm Hk w b. unfold bind. specialize (Hm w).
  destruct (m w) as [[a|e] w'] eqn:E; [| intros [=]].
  apply Hk, Hm. reflexivity.
Qed.

Ltac results_structure :=
  repeat first
    [ apply results_throw
    | apply results_bind; intros ?
    | apply results_try_catch; [| intros ?]
    | match goal with
      | |- results _ (match ?x with _ => _ end) => destruct x
      | |- results _ (if ?b then _ else _) => destruct b
      | |- results _ (let _ := _ in _) => cbv zeta
      end ].

Lemma returns_ret {A} (Q : A -> Prop) (a : A) : Q a -> returns Q (ret a).
Proof. intros H w. exists a. split; [reflexivity | exact H]. Qed.

Lemma returns_bind {A B} (P : A -> Prop) (Q : B -> Prop) (m : M A) (k : A -> M B) :
  returns P m -> (forall a, P a -> returns Q (k a)) -> returns Q (bind m k).
Proof.
  intros Hm Hk w. unfold bind. destruct (Hm w) as (a & Ha & HP).
  destruct (m w) as [o w'] eqn:E. simpl in Ha. subst o. apply (Hk a HP).
Qed.

Lemma returns_try_catch {A} (Q : A -> Prop) (m : M A) (h : JsError -> M A) :
  results Q m -> (forall e, returns Q (h e)) -> returns Q (try_catch m h).
Proof.
  intros Hm Hh w. unfold try_catch. specialize (Hm w).
  destruct (m w) as [[a|e] w'] eqn:E; [| apply Hh].
  exists a. split; [reflexivity | apply Hm; reflexivity].
Qed.

Lemma returns_console {A} (Q : A -> Prop) label msg (a : A) :
  Q a -> returns Q (console_error label msg ;; ret a).
Proof. intros H w. exists a. split; [reflexivity | exact H]. Qed.

Lemma returns_weaken {A} (P Q : A -> Prop) (m : M A) :
  (forall a, P a -> Q a) -> returns P m -> returns Q m.
Proof. intros H Hm w. destruct (Hm w) as (a & Ha & HP). eauto. Qed.

Lemma fails_cleanly_returns {A} (Q : A -> Prop) (m : M A) : returns Q m -> fails_cleanly m.
Proof. intros Hm w e He. destruct (Hm w) as (a & Ha & _). congruence. Qed.

Lemma fails_cleanly_ret {A} (a : A) : fails_cleanly (ret a).
Proof. intros w e [=]. Qed.

Lemma fails_cleanly_eval {A B} (o : Outcome A) (k : A -> M B) :
  (forall a, fails_cleanly (k a)) -> fails_cleanly (bind (eval o) k).
Proof.
  intros Hk w e. unfold bind, eval. destruct o as [a|e']; [apply Hk | reflexivity].
Qed.

Ltac fails_cleanly_structure :=
  repeat first
    [ apply fails_cleanly_ret
    | apply fails_cleanly_eval; intros ?
    | match goal with
      | |- fails_cleanly (if ?b then _ else _) => destruct b
      | |- fails_cleanly (let _ := _ in _) => cbv zeta
      | |- fails_cleanly (match ?x with [] => _ | _ :: _ => _ end) => destruct x
      end ].

Section ReturnFacts.
Variable env : Env.

Lemma gate_returns f :
  returns (fun o => o = None \/ o = Some (Register.cohort_full f)) (Register.gate env f).
Proof.
  apply returns_try_catch.
  - results_structure; apply results_ret; auto.
  - intros e. apply returns_console. auto.
Qed.

Lemma upsert_existing_returns f :
  returns (fun o => match o with Some r => statusCode r = 200 | None => True end)
          (Register.upsert_existing env f).
Proof.
  apply returns_try_catch.
  - results_structure; apply results_ret; auto.
  - intros e. apply returns_console. exact I.
Qed.

Lemma create_returns f : returns (status_in [200; 502; 500]) (Register.create env f).
Proof.
  apply returns_try_catch.
  - results_structure; apply results_ret; unfold status_in; simpl; auto.
  - intros e. apply returns_ret. unfold status_in; simpl; auto.
Qed.

Lemma validate_returns f : exists errors, Register.validate f = Return errors.
Proof. rewrite validate_entries. eauto. Qed.

Lemma after_gate_returns f :
  returns (status_in [400; 200; 502; 500]) (Register.after_gate env f).
Proof.
  unfold Register.after_gate. destruct (validate_returns f) as [errors ->].
  intros w. change (bind (eval (Return errors)) ?k w) with (k errors w).
  revert w. change (returns (status_in [400; 200; 502; 500])
    match errors with
    | [] => existing <- Register.upsert_existing env f ;;
            match existing with
            | Some response => ret response
            | None => Register.create env f
            end
    | _ :: _ => ret (Register.invalid errors)
    end).
  destruct errors as [|e es].
  - eapply returns_bind; [apply upsert_existing_returns|].
    intros [r|] Hr.
    + apply returns_ret. unfold status_in. rewrite Hr. simpl; auto.
    + eapply returns_weaken; [| apply create_returns].
      unfold status_in. simpl. tauto.
  - apply returns_ret. unfold status_in; simpl; auto.
Qed.

Lemma register_returns f :
  returns (status_in [409; 400; 200; 502; 500]) (Register.register env f).
Proof.
  eapply returns_bind; [apply gate_returns|].
  intros o [-> | ->].
  - eapply returns_weaken; [| apply after_gate_returns]. unfold status_in. simpl. tauto.
  - apply returns_ret. unfold status_in; simpl; auto.
Qed.

Lemma check_availability_returns checkAvail checkDate :
  returns (status_in [200; 500]) (Register.check_availability env checkAvail checkDate).
Proof.
  apply returns_try_catch.
  - results_structure; apply results_ret; unfold status_in; simpl; auto.
  - intros e. apply returns_ret. unfold status_in; simpl; auto.
Qed.

Lemma class_date_create_returns props :
  returns (status_in [200; 502; 500]) (RegisterClassDate.create env props).
Proof.
  apply returns_try_catch.
  - results_structure; apply results_ret; unfold status_in; simpl; auto.
  - intros e. apply returns_ret. unfold status_in; simpl; auto.
Qed.

Lemma webhook_process_returns email :
  returns (status_in [200; 502]) (Webhook.process env email).
Proof.
  apply returns_try_catch.
  - results_structure; apply results_ret; unfold status_in; simpl; auto.
  - intros e. apply returns_ret. unfold status_in; simpl; auto.
Qed.

Lemma stripe_process_returns email sd :
  returns (status_in [200; 502]) (StripeWebhook.process env email sd).
Proof.
  apply returns_try_catch.
  - results_structure; apply results_ret; unfold status_in; simpl; auto.
  - intros e. apply returns_ret. unfold status_in; simpl; auto.
Qed.

Lemma register_fails_cleanly args : fails_cleanly (Register.main env args).
Proof.
  unfold Register.main. fails_cleanly_structure.
  - eapply fails_cleanly_returns, check_availability_returns.
  - eapply fails_cleanly_returns, register_returns.
Qed.

Lemma register_basic_fails_cleanly args : fails_cleanly (RegisterBasic.main env args).
Proof. intros w e _. reflexivity. Qed.

Lemma register_class_date_fails_cleanly args :
  fails_cleanly (RegisterClassDate.main env args).
Proof.
  unfold RegisterClassDate.main. fails_cleanly_structure.
  eapply fails_cleanly_returns, class_date_create_returns.
Qed.

Lemma webhook_fails_cleanly args : fails_cleanly (Webhook.main env args).
Proof.
  unfold Webhook.main. fails_cleanly_structure.
  eapply fails_cleanly_returns, webhook_process_returns.
Qed.

Lemma stripe_webhook_fails_cleanly args : fails_cleanly (StripeWebhook.main env args).
Proof.
  unfold StripeWebhook.main. fails_cleanly_structure.
  eapply fails_cleanly_returns, stripe_process_returns.
Qed.

End ReturnFacts.

(** X5. When a handler ends with an uncaught exception it has not contacted
    the store nor logged anything: every exception that escapes is thrown
    while the request is read, before the first call. *)
Theorem uncaught_exception_leaves_world_untouched env :
  Forall (fun handler : Args -> M Response =>
            forall args w e,
              fst (handler args w) = Throw e -> snd (handler args w) = w)
         (handlers env).
Proof.
  unfold handlers.
  constructor; [exact (register_fails_cleanly env)|].
  constructor; [exact (register_basic_fails_cleanly env)|].
  constructor; [exact (register_class_date_fails_cleanly env)|].
  constructor; [exact (webhook_fails_cleanly env)|].
  constructor; [exact (stripe_webhook_fails_cleanly env)|].
  constructor.
Qed.

(** ** Cross-origin headers *)

Ltac results_by_cases solve_result :=
  results_structure; apply results_ret; solve_result.

Section CorsFacts.
Variable env : Env.

Lemma basic_allows_any_origin args : results allows_any_origin (RegisterBasic.main env args).
Proof. unfold RegisterBasic.main. apply results_throw. Qed.

Lemma class_date_allows_any_origin args :
  results allows_any_origin (RegisterClassDate.main env args).
Proof.
  unfold RegisterClassDate.main, RegisterClassDate.create.
  results_by_cases ltac:(unfold allows_any_origin; simpl; tauto).
Qed.

Lemma webhook_allows_any_origin args : results allows_any_origin (Webhook.main env args).
Proof.
  unfold Webhook.main, Webhook.process.
  results_by_cases ltac:(unfold allows_any_origin; simpl; tauto).
Qed.

Lemma stripe_webhook_allows_any_origin args :
  results allows_any_origin (StripeWebhook.main env args).
Proof.
  unfold StripeWebhook.main, StripeWebhook.process.
  results_by_cases ltac:(unfold allows_any_origin; simpl; tauto).
Qed.

Lemma gate_names_no_origin f :
  results (fun o => forall r, o = Some r -> names_no_origin r) (Register.gate env f).
Proof.
  unfold Register.gate.
  results_by_cases ltac:(intros r [= <-]; unfold names_no_origin; simpl; intros v H;
    repeat (destruct H as [H|H]; [discriminate H|]); exact H).
Qed.

Lemma upsert_names_no_origin f :
  results (fun o => forall r, o = Some r -> names_no_origin r)
          (Register.upsert_existing env f).
Proof.
  unfold Register.upsert_existing.
  results_by_cases ltac:(intros r [= <-]; unfold names_no_origin; simpl; intros v H;
    repeat (destruct H as [H|H]; [discriminate H|]); exact H).
Qed.

Lemma register_flow_names_no_origin f :
  results names_no_origin (Register.register env f).
Proof.
  unfold Register.register, Register.after_gate.
  eapply results_bind_with; [apply gate_names_no_origin|].
  intros [r|] Hr; [apply results_ret, Hr; reflexivity|].
  apply results_bind. intros [|e es].
  - eapply results_bind_with; [apply upsert_names_no_origin|].
    intros [r|] Hr'; [apply results_ret, Hr'; reflexivity|].
    unfold Register.create.
    results_by_cases ltac:(unfold names_no_origin; simpl; intros v H;
      repeat (destruct H as [H|H]; [discriminate H|]); exact H).
  - apply results_ret. unfold names_no_origin; simpl; intros v H.
    repeat (destruct H as [H|H]; [discriminate H|]); exact H.
Qed.

Lemma register_names_no_origin args : results names_no_origin (Register.main env args).
Proof.
  unfold Register.main. destruct (is_str (ow_method args) "options").
  - apply results_ret. intros v [].
  - cbv zeta. apply results_bind. intros checkAvail. apply results_bind. intros checkDate.
    destruct (truthy checkAvail).
    + unfold Register.check_availability.
      results_by_cases ltac:(unfold names_no_origin; simpl; intros v H;
        repeat (destruct H as [H|H]; [discriminate H|]); exact H).
    + apply results_bind. intros f. apply register_flow_names_no_origin.
Qed.

End CorsFacts.

(** X6. The older registration handler and the two webhooks put
    [Access-Control-Allow-Origin: *] on every response, the preflight
    included, and the handler of the document that does not parse returns no
    response to put it on; the registration handler with the availability
    gate puts that header on none of its responses. *)
Theorem cross_origin_header_on_every_response env :
  Forall (fun handler : Args -> M Response =>
            forall args w resp,
              fst (handler args w) = Return resp -> allows_any_origin resp)
         [RegisterBasic.main env; RegisterClassDate.main env;
          Webhook.main env; StripeWebhook.main env]
  /\ forall args w resp,
       fst (Register.main env args w) = Return resp -> names_no_origin resp.
Proof.
  split.
  - constructor; [exact (basic_allows_any_origin env)|].
    constructor; [exact (class_date_allows_any_origin env)|].
    constructor; [exact (webhook_allows_any_origin env)|].
    constructor; [exact (stripe_webhook_allows_any_origin env)|].
    constructor.
  - exact (register_names_no_origin env).
Qed.

(** ** The webhooks when the store or the network fails *)

Lemma marked_nil_store props (st : list Page) : marked props [] <$> st = st.
Proof.
  rewrite (list_fmap_ext (marked props []) id st) by (intros; apply marked_nil).
  apply list_fmap_id.
Qed.

Lemma marked_cons_store props pid ids (st : list Page) :
  marked props ids <$> (patch_page pid props <$> st) = marked props (pid :: ids) <$> st.
Proof. rewrite <- list_fmap_compose. apply list_fmap_ext. intros _ q _. apply marked_cons. Qed.






Section WebhookFailures.
Variable env : Env.

Lemma find_pages_not_served email w :
  next_reply w <> Served ->
  exists e, findPagesByEmail env email w = (Throw e, after_call w (email_query email)).
Proof.
  intros H. unfold findPagesByEmail, bind, fetch.
  destruct (next_reply w) as [|json|msg]; [congruence| |]; eexists; reflexivity.
Qed.

Lemma markPaid_next pid w :
  next_reply w = Served -> pid ∈ page_id <$> store w ->
  exists json,
    Webhook.markPaid env pid w = (Return json, patched w pid {[ "status" := paid_status ]}).
Proof.
  intros Hw Hin. destruct (find_page_elem_of pid (store w) Hin) as [q Hq].
  unfold Webhook.markPaid, bind. erewrite fetch_patch; [| exact Hw | exact Hq].
  eexists. reflexivity.
Qed.

Lemma markPaid_not_served pid w :
  next_reply w <> Served ->
  exists e, Webhook.markPaid env pid w
            = (Throw e, after_call w (Patch pid {[ "status" := paid_status ]})).
Proof.
  intros H. unfold Webhook.markPaid, bind, fetch.
  destruct (next_reply w) as [|json|msg]; [congruence| |]; eexists; reflexivity.
Qed.

Lemma stripe_mark_next pid sd props w :
  StripeWebhook.stripe_properties env sd = Return props ->
  next_reply w = Served -> pid ∈ page_id <$> store w ->
  exists json,
    StripeWebhook.markPaidWithStripeInfo env pid sd w = (Return json, patched w pid props).
Proof.
  intros Hprops Hw Hin. destruct (find_page_elem_of pid (store w) Hin) as [q Hq].
  unfold StripeWebhook.markPaidWithStripeInfo, bind, eval. rewrite Hprops.
  erewrite fetch_patch; [| exact Hw | exact Hq].
  eexists. reflexivity.
Qed.

Lemma stripe_mark_not_served pid sd props w :
  StripeWebhook.stripe_properties env sd = Return props ->
  next_reply w <> Served ->
  exists e, StripeWebhook.markPaidWithStripeInfo env pid sd w
            = (Throw e, after_call w (Patch pid props)).
Proof.
  intros Hprops H. unfold StripeWebhook.markPaidWithStripeInfo, bind, eval, fetch.
  rewrite Hprops.
  destruct (next_reply w) as [|json|msg]; [congruence| |]; eexists; reflexivity.
Qed.



End WebhookFailures.

Lemma member_throws_type_errors (e : Expr) k :
  throws_type_errors e -> throws_type_errors (e .> k).
Proof.
  unfold member, obind, get. destruct e as [v|err]; [intros _ | auto].
  destruct v; simpl; auto.
Qed.

Lemma and_then_throws_type_errors (a b : Expr) :
  throws_type_errors a -> throws_type_errors b -> throws_type_errors (a &&& b).
Proof.
  unfold and_then, obind. destruct a as [v|err]; [intros _ Hb | auto].
  destruct (truthy v); [exact Hb | exact I].
Qed.

Lemma or_else_throws_type_errors (a b : Expr) :
  throws_type_errors a -> throws_type_errors b -> throws_type_errors (a ||| b).
Proof.
  unfold or_else, obind. destruct a as [v|err]; [intros _ Hb | auto].
  destruct (truthy v); [exact I | exact Hb].
Qed.

Ltac type_errors :=
  repeat first
    [ exact I
    | apply member_throws_type_errors
    | apply and_then_throws_type_errors
    | apply or_else_throws_type_errors ].

Lemma session_of_throws_type_errors event : throws_type_errors (session_of event).
Proof. unfold session_of, val. type_errors. Qed.

Lemma paid_of_throws_type_errors session : throws_type_errors (paid_of session).
Proof.
  unfold paid_of, val. apply and_then_throws_type_errors; [exact I|].
  unfold member, obind, get. destruct session; simpl; auto.
Qed.

Lemma email_of_throws_type_errors session : throws_type_errors (email_of session).
Proof. unfold email_of, val. type_errors. Qed.

Lemma type_throws_type_errors event : throws_type_errors (val event .> "type").
Proof. unfold val. type_errors. Qed.

Lemma thrown_type_error {A} (o : Outcome A) e :
  throws_type_errors o -> o = Throw e -> kind e = TypeError.
Proof. intros H ->. exact H. Qed.

Ltac declined_branch :=
  right; eexists; split; [intros; reflexivity|]; split; [intros; reflexivity|];
  first [ eapply thrown_type_error; [|eassumption];
          first [ apply type_throws_type_errors | apply session_of_throws_type_errors
                | apply paid_of_throws_type_errors | apply email_of_throws_type_errors ]
        | split; [simpl; tauto | simpl; intros H; first [reflexivity | discriminate H]] ].

Lemma payment_event_or_declined env args :
  (exists session email, payment_event args session email)
  \/ exists o,
       (forall w, Webhook.main env args w = (o, w))
       /\ (forall w, StripeWebhook.main env args w = (o, w))
       /\ declined o.
Proof.
  unfold Webhook.main, StripeWebhook.main, payment_event, bind, eval, ret, declined.
  destruct (is_str (ow_method args) "options"); [declined_branch|].
  destruct (is_str (ow_method args) "post") eqn:Hpost; [|declined_branch].
  cbv zeta. simpl negb. cbv iota.
  destruct (truthy (parseEvent args)) eqn:Hev; [|declined_branch].
  simpl negb. cbv iota.
  destruct (val (parseEvent args) .> "type") as [type|e] eqn:Hty; [|declined_branch].
  destruct (is_str type "checkout.session.completed") eqn:Hcompleted; [|declined_branch].
  simpl negb. cbv iota.
  destruct (session_of (parseEvent args)) as [session|e] eqn:Hs; [|declined_branch].
  destruct (paid_of session) as [paid|e] eqn:Hp; [|declined_branch].
  destruct (email_of session) as [email|e] eqn:He; [|declined_branch].
  destruct (truthy paid) eqn:Hpaid; [|declined_branch].
  destruct (truthy email) eqn:Hemail; [|declined_branch].
  left. exists session, email. repeat split; eauto.
Qed.

(** X7. The webhooks contact the store for one kind of request only: a
    posted [checkout.session.completed] event whose session is paid and
    carries an email. For any other request neither webhook makes a call,
    changes a record or logs anything, and both end alike: with the status
    204, 405 or 400, with the status 200 and [ignored: true], or with a
    [TypeError]. *)
Theorem webhooks_touch_nothing_without_a_payment env args w :
  no_payment_event args ->
  snd (Webhook.main env args w) = w
  /\ StripeWebhook.main env args w = Webhook.main env args w
  /\ declined (fst (Webhook.main env args w)).
Proof.
  intros Hno. destruct (payment_event_or_declined env args)
    as [(session & email & H) | (o & Ho & Ho' & Hd)].
  - destruct (Hno session email H).
  - rewrite Ho, Ho'. repeat split. exact Hd.
Qed.

Lemma invoice_event_is_no_payment : no_payment_event (post invoice_event).
Proof.
  intros session email (_ & _ & (type & Hty & Hcompleted) & _).
  vm_compute in Hty. injection Hty as <-. vm_compute in Hcompleted. discriminate.
Defined.

Lemma webhooks_touch_nothing_without_a_payment_witness :
  no_payment_event (post invoice_event)
  /\ snd (Webhook.main sample_env (post invoice_event) (world_of open_cohort))
     = world_of open_cohort
  /\ StripeWebhook.main sample_env (post invoice_event) (world_of open_cohort)
     = Webhook.main sample_env (post invoice_event) (world_of open_cohort)
  /\ declined (fst (Webhook.main sample_env (post invoice_event) (world_of open_cohort))).
Proof.
  split; [exact invoice_event_is_no_payment|].
  apply (webhooks_touch_nothing_without_a_payment sample_env (post invoice_event)).
  exact invoice_event_is_no_payment.
Defined.

Section WebhookOutcomes.
Variable env : Env.

Lemma webhook_process_query_fails email w :
  next_reply w <> Served ->
  exists msg,
    Webhook.process env email w
    = (Return (bad 502 [("error", JStr msg)]), after_call w (email_query email)).
Proof.
  intros H. unfold Webhook.process, try_catch, bind.
  destruct (find_pages_not_served env email w H) as [e ->]. eexists. reflexivity.
Qed.

Lemma stripe_process_query_fails email sd w :
  next_reply w <> Served ->
  exists msg,
    StripeWebhook.process env email sd w
    = (Return (bad 502 [("error", JStr msg)]), after_call w (email_query email)).
Proof.
  intros H. unfold StripeWebhook.process, try_catch, bind.
  destruct (find_pages_not_served env email w H) as [e ->]. eexists. reflexivity.
Qed.



End WebhookOutcomes.

(** X8. When the query by email of a payment event is not served, the
    webhooks answer 502 with [ok: false]; the query is the only call they
    make and no record changes. *)
Theorem webhook_answers_502_when_query_fails env args session email w :
  payment_event args session email ->
  next_reply w <> Served ->
  (exists resp,
     Webhook.main env args w = (Return resp, after_call w (email_query email))
     /\ statusCode resp = 502 /\ body_field resp "ok" = JBool false)
  /\ (dated_session env session ->
      exists resp,
        StripeWebhook.main env args w = (Return resp, after_call w (email_query email))
        /\ statusCode resp = 502 /\ body_field resp "ok" = JBool false).
Proof.
  intros Hev Hw. split.
  - rewrite (webhook_main_payment env args session email w Hev).
    destruct (webhook_process_query_fails env email w Hw) as [msg ->].
    eexists. split; [reflexivity|]. split; reflexivity.
  - intros Hd. destruct (extract_dated env args session email Hev Hd) as [sd Hsd].
    rewrite (stripe_main_payment env args session email w Hev), Hsd.
    change (bind (eval (Return sd)) ?k w) with (k sd w). cbv beta.
    destruct (stripe_process_query_fails env email sd w Hw) as [msg ->].
    eexists. split; [reflexivity|]. split; reflexivity.
Qed.

Lemma webhook_answers_502_when_query_fails_witness :
  payment_event (post ana_paid) ana_session (JStr (lit "ana@x.com"))
  /\ next_reply (mkWorld open_cohort [Refused JNull] [] []) <> Served
  /\ exists resp,
       Webhook.main sample_env (post ana_paid) (mkWorld open_cohort [Refused JNull] [] [])
       = (Return resp,
          after_call (mkWorld open_cohort [Refused JNull] [] [])
                     (email_query (JStr (lit "ana@x.com"))))
       /\ statusCode resp = 502 /\ body_field resp "ok" = JBool false.
Proof.
  split; [exact ana_paid_is_payment_event|].
  split; [discriminate|].
  apply (proj1 (webhook_answers_502_when_query_fails sample_env (post ana_paid) ana_session
                  (JStr (lit "ana@x.com")) (mkWorld open_cohort [Refused JNull] [] [])
                  ana_paid_is_payment_event ltac:(discriminate))).
Defined.



(** ** Every outcome of a payment event *)

Section WebhookOutcome.
Variable env : Env.

Lemma next_served_or_not w : next_reply w = Served \/ next_reply w <> Served.
Proof. destruct (next_reply w); auto; right; discriminate. Qed.

(** Whatever the replies are, the loop has patched a prefix of the pages,
    and all of them when it returns. *)
Lemma mark_each_outcome ps : forall n w,
  (forall q, q ∈ ps -> page_id q ∈ page_id <$> store w) ->
  exists done,
    done `prefix_of` ps
    /\ store (snd (Webhook.mark_each env ps n w))
       = marked {[ "status" := paid_status ]} (page_id <$> done) <$> store w
    /\ (forall u, fst (Webhook.mark_each env ps n w) = Return u -> done = ps).
Proof.
  induction ps as [|p ps IH]; intros n w Hin; simpl.
  - exists []. split; [reflexivity|]. split; [symmetry; apply marked_nil_store | auto].
  - unfold bind. destruct (next_served_or_not w) as [Hw|Hw].
    + destruct (markPaid_next env (page_id p) w Hw) as [json ->]; [apply Hin; left|].
      destruct (IH (n + 1) (patched w (page_id p) {[ "status" := paid_status ]}))
        as (done & Hpre & Hst & Hret).
      { intros q Hq. rewrite page_ids_patched. apply Hin. right. exact Hq. }
      exists (p :: done). split; [apply prefix_cons, Hpre|].
      split; [rewrite Hst; apply marked_cons_store|].
      intros u Hu. rewrite (Hret u Hu). reflexivity.
    + destruct (markPaid_not_served env (page_id p) w Hw) as [e ->].
      exists []. split; [apply prefix_nil|].
      split; [symmetry; apply marked_nil_store | intros u [=]].
Qed.

Lemma stripe_mark_each_outcome sd props ps :
  StripeWebhook.stripe_properties env sd = Return props ->
  forall n acc w,
  (forall q, q ∈ ps -> page_id q ∈ page_id <$> store w) ->
  exists done,
    done `prefix_of` ps
    /\ store (snd (StripeWebhook.mark_each env sd ps n acc w))
       = marked props (page_id <$> done) <$> store w
    /\ (forall u, fst (StripeWebhook.mark_each env sd ps n acc w) = Return u -> done = ps).
Proof.
  intros Hprops. destruct (stripe_properties_link env sd props Hprops) as [link Hlink].
  induction ps as [|p ps IH]; intros n acc w Hin; simpl.
  - exists []. split; [reflexivity|]. split; [symmetry; apply marked_nil_store | auto].
  - unfold bind. destruct (next_served_or_not w) as [Hw|Hw].
    + destruct (stripe_mark_next env (page_id p) sd props w Hprops Hw) as [json ->];
        [apply Hin; left|].
      unfold eval. rewrite Hlink.
      edestruct (IH (n + 1)) as (done & Hpre & Hst & Hret).
      { intros q Hq. rewrite page_ids_patched. apply Hin. right. exact Hq. }
      exists (p :: done). split; [apply prefix_cons, Hpre|].
      split; [rewrite Hst; apply marked_cons_store|].
      intros u Hu. rewrite (Hret u Hu). reflexivity.
    + destruct (stripe_mark_not_served env (page_id p) sd props w Hprops Hw) as [e ->].
      exists []. split; [apply prefix_nil|].
      split; [symmetry; apply marked_nil_store | intros u [=]].
Qed.

Lemma webhook_process_outcome email w :
  exists resp done,
    fst (Webhook.process env email w) = Return resp
    /\ done `prefix_of` filter (has_email email) (store w)
    /\ store (snd (Webhook.process env email w))
       = marked {[ "status" := paid_status ]} (page_id <$> done) <$> store w
    /\ (statusCode resp = 502
        \/ (statusCode resp = 200 /\ done = filter (has_email email) (store w))).
Proof.
  unfold Webhook.process, try_catch, bind.
  destruct (next_served_or_not w) as [Hw|Hw].
  - rewrite find_pages_served by exact Hw.
    destruct (filter (has_email email) (store w)) as [|p ps] eqn:Hf.
    + eexists _, []. split; [reflexivity|]. split; [reflexivity|].
      split; [symmetry; apply marked_nil_store | right; auto].
    + destruct (mark_each_outcome (p :: ps) 0 (after_call w (email_query email)))
        as (done & Hpre & Hst & Hret).
      { intros q Hq. simpl. rewrite <- Hf in Hq. eapply matching_ids, Hq. }
      destruct (Webhook.mark_each env (p :: ps) 0 (after_call w (email_query email)))
        as [[u|e] w'].
      * eexists _, done. split; [reflexivity|]. split; [exact Hpre|].
        split; [exact Hst|]. right. split; [reflexivity | apply (Hret u); reflexivity].
      * eexists _, done. split; [reflexivity|]. split; [exact Hpre|].
        split; [exact Hst|]. left. reflexivity.
  - destruct (find_pages_not_served env email w Hw) as [e ->].
    eexists _, []. split; [reflexivity|]. split; [apply prefix_nil|].
    split; [symmetry; apply marked_nil_store | left; reflexivity].
Qed.

Lemma stripe_patch_built sd props :
  StripeWebhook.stripe_properties env sd = Return props -> stripe_patch env sd = props.
Proof. intros H. unfold stripe_patch. rewrite H. reflexivity. Qed.

Lemma stripe_process_outcome email sd w :
  exists resp done,
    fst (StripeWebhook.process env email sd w) = Return resp
    /\ done `prefix_of` filter (has_email email) (store w)
    /\ store (snd (StripeWebhook.process env email sd w))
       = marked (stripe_patch env sd) (page_id <$> done) <$> store w
    /\ (statusCode resp = 502
        \/ (statusCode resp = 200
            /\ done = filter (has_email email) (store w)
            /\ (done = [] \/ patch_builds env sd))).
Proof.
  destruct (next_served_or_not w) as [Hw|Hw].
  - destruct (filter (has_email email) (store w)) as [|p ps] eqn:Hf.
    + rewrite (stripe_process_no_match env email sd w Hw Hf).
      eexists _, []. split; [reflexivity|]. split; [reflexivity|].
      split; [symmetry; apply marked_nil_store | right; auto].
    + destruct (StripeWebhook.stripe_properties env sd) as [props|e] eqn:Hprops.
      * rewrite (stripe_patch_built sd props Hprops).
        destruct (stripe_properties_link env sd props Hprops) as [link Hlink].
        destruct (stripe_amount_text env sd props Hprops) as [amount Hamount].
        unfold StripeWebhook.process, try_catch, bind.
        rewrite find_pages_served by exact Hw. rewrite Hf.
        destruct (stripe_mark_each_outcome sd props (p :: ps) Hprops 0 []
                    (after_call w (email_query email))) as (done & Hpre & Hst & Hret).
        { intros q Hq. simpl. rewrite <- Hf in Hq. eapply matching_ids, Hq. }
        destruct (StripeWebhook.mark_each env sd (p :: ps) 0 []
                    (after_call w (email_query email))) as [[u|e] w'].
        -- unfold eval. rewrite Hlink, Hamount.
           eexists _, done. split; [reflexivity|]. split; [exact Hpre|].
           split; [exact Hst|]. right. split; [reflexivity|].
           split; [apply (Hret u); reflexivity|]. right. exists props. exact Hprops.
        -- eexists _, done. split; [reflexivity|]. split; [exact Hpre|].
           split; [exact Hst|]. left. reflexivity.
      * rewrite (stripe_process_unbuilt env email sd e w Hprops Hw)
          by (rewrite Hf; discriminate).
        eexists _, []. split; [reflexivity|]. split; [apply prefix_nil|].
        split; [symmetry; apply marked_nil_store | left; reflexivity].
  - unfold StripeWebhook.process, try_catch, bind.
    destruct (find_pages_not_served env email w Hw) as [e ->].
    eexists _, []. split; [reflexivity|]. split; [apply prefix_nil|].
    split; [symmetry; apply marked_nil_store | left; reflexivity].
Qed.

End WebhookOutcome.

Lemma marked_every_match_paid props email w w' :
  props !! "status" = Some paid_status ->
  store w' = marked props (page_id <$> filter (has_email email) (store w)) <$> store w ->
  every_match_paid email w w'.
Proof.
  intros Hprops Hst. split.
  - rewrite Hst. apply length_fmap.
  - intros i q Hi Hq. rewrite Hst.
    exact (all_marked_status w w props email eq_refl Hprops i q Hi Hq).
Qed.

(** X10. Whatever the store and the network do, a webhook answers a payment
    event with 200 or 502, and the answer tells what was done. The records
    patched are the first ones, in the order of the store, of those with the
    email of the event; each of them got the properties of the patch and no
    other record changed. A 200 is never premature: then all of them were
    patched, so every record with the email is paid. *)
Theorem webhook_answers_what_it_did env args session email w :
  payment_event args session email ->
  (exists resp done,
     fst (Webhook.main env args w) = Return resp
     /\ done `prefix_of` filter (has_email email) (store w)
     /\ store (snd (Webhook.main env args w))
        = marked {[ "status" := paid_status ]} (page_id <$> done) <$> store w
     /\ (statusCode resp = 502
         \/ (statusCode resp = 200
             /\ done = filter (has_email email) (store w)
             /\ every_match_paid email w (snd (Webhook.main env args w)))))
  /\ (dated_session env session ->
      exists resp done sd,
        StripeWebhook.extract env session = Return sd
        /\ fst (StripeWebhook.main env args w) = Return resp
        /\ done `prefix_of` filter (has_email email) (store w)
        /\ store (snd (StripeWebhook.main env args w))
           = marked (stripe_patch env sd) (page_id <$> done) <$> store w
        /\ (statusCode resp = 502
            \/ (statusCode resp = 200
                /\ done = filter (has_email email) (store w)
                /\ every_match_paid email w (snd (StripeWebhook.main env args w))))).
Proof.
  intros Hev. split.
  - rewrite (webhook_main_payment env args session email w Hev).
    destruct (webhook_process_outcome env email w) as (resp & done & Hr & Hpre & Hst & Hs).
    exists resp, done. split; [exact Hr|]. split; [exact Hpre|]. split; [exact Hst|].
    destruct Hs as [Hs | [Hs ->]]; [left; exact Hs | right].
    split; [exact Hs|]. split; [reflexivity|].
    eapply marked_every_match_paid; [apply status_patch_status | exact Hst].
  - intros Hd. destruct (extract_dated env args session email Hev Hd) as [sd Hsd].
    rewrite (stripe_main_extracted env args session email sd w Hev Hsd).
    destruct (stripe_process_outcome env email sd w) as (resp & done & Hr & Hpre & Hst & Hs).
    exists resp, done, sd. split; [exact Hsd|].
    split; [exact Hr|]. split; [exact Hpre|]. split; [exact Hst|].
    destruct Hs as [Hs | (Hs & -> & Hbuilt)]; [left; exact Hs | right].
    split; [exact Hs|]. split; [reflexivity|].
    destruct Hbuilt as [Hnone | [props Hprops]].
    + eapply (marked_every_match_paid {[ "status" := paid_status ]});
        [apply status_patch_status|].
      rewrite Hst, Hnone. simpl. rewrite !marked_nil_store. reflexivity.
    + eapply marked_every_match_paid; [|exact Hst].
      rewrite (stripe_patch_built env sd props Hprops).
      eapply stripe_properties_status, Hprops.
Qed.

Lemma webhook_answers_what_it_did_witness :
  payment_event (post ana_paid) ana_session (JStr (lit "ana@x.com"))
  /\ exists resp done,
       fst (Webhook.main sample_env (post ana_paid) timeout_after_two) = Return resp
       /\ done `prefix_of` filter (has_email (JStr (lit "ana@x.com"))) (store timeout_after_two)
       /\ store (snd (Webhook.main sample_env (post ana_paid) timeout_after_two))
          = marked {[ "status" := paid_status ]} (page_id <$> done) <$> store timeout_after_two
       /\ (statusCode resp = 502
           \/ (statusCode resp = 200
               /\ done = filter (has_email (JStr (lit "ana@x.com"))) (store timeout_after_two)
               /\ every_match_paid (JStr (lit "ana@x.com")) timeout_after_two
                    (snd (Webhook.main sample_env (post ana_paid) timeout_after_two)))).
Proof.
  split; [exact ana_paid_is_payment_event|].
  apply (proj1 (webhook_answers_what_it_did sample_env (post ana_paid) ana_session
                  (JStr (lit "ana@x.com")) timeout_after_two ana_paid_is_payment_event)).
Defined.

(** ** What no handler changes *)

#[global] Instance keeps_preorder ks : PreOrder (keeps ks).
Proof.
  split.
  - intros w i p Hp. exists p. split; [exact Hp|]. split; [reflexivity|].
    apply Forall_forall. reflexivity.
  - intros a b c Hab Hbc i p Hp.
    destruct (Hab i p Hp) as (p1 & Hp1 & Hid1 & Hk1).
    destruct (Hbc i p1 Hp1) as (p2 & Hp2 & Hid2 & Hk2).
    exists p2. split; [exact Hp2|]. split; [congruence|].
    rewrite Forall_forall in *. intros k Hk. rewrite (Hk2 k Hk). apply Hk1, Hk.
Qed.

Lemma keeps_same_store ks w w' : store w' = store w -> keeps ks w w'.
Proof.
  intros H i p Hp. exists p. rewrite H. split; [exact Hp|]. split; [reflexivity|].
  apply Forall_forall. reflexivity.
Qed.

Lemma keeps_fetch ks env rq : leaves ks rq -> respects (keeps ks) (fetch env rq).
Proof.
  intros Hrq w. unfold fetch.
  destruct (next_reply w); [| apply keeps_same_store; reflexivity..].
  destruct rq as [f|props|pid props]; simpl.
  - apply keeps_same_store. reflexivity.
  - intros i p Hp. exists p. simpl. split; [apply lookup_app_l_Some, Hp|].
    split; [reflexivity|]. apply Forall_forall. reflexivity.
  - destruct (find_page pid (store w)) as [found|]; simpl;
      [| apply keeps_same_store; reflexivity].
    intros i p Hp. eexists. simpl. split; [rewrite list_lookup_fmap, Hp; reflexivity|].
    unfold patch_page. destruct (bool_decide (page_id p = pid)); simpl.
    + split; [reflexivity|]. simpl in Hrq. eapply Forall_impl; [exact Hrq|].
      intros k Hk. simpl. apply lookup_union_r, Hk.
    + split; [reflexivity|]. apply Forall_forall. reflexivity.
Qed.

Lemma keeps_console ks label msg : respects (keeps ks) (console_error label msg).
Proof. intros w. apply keeps_same_store. reflexivity. Qed.

Lemma goal_patch_leaves ks pid g :
  "expectation"%string ∉ ks -> leaves ks (Patch pid (Register.goal_patch g)).
Proof.
  intros H. apply Forall_forall. intros k Hk. unfold Register.goal_patch.
  apply lookup_singleton_ne. intros <-. exact (H Hk).
Qed.

Lemma status_patch_leaves ks pid :
  "status"%string ∉ ks -> leaves ks (Patch pid {[ "status" := paid_status ]}).
Proof.
  intros H. apply Forall_forall. intros k Hk.
  apply lookup_singleton_ne. intros <-. exact (H Hk).
Qed.

Lemma stripe_patch_leaves env ks pid sd props :
  StripeWebhook.stripe_properties env sd = Return props ->
  Forall (fun k => k ∉ ks) payment_properties ->
  leaves ks (Patch pid props).
Proof.
  intros Hprops H. apply Forall_forall. intros k Hk.
  unfold payment_properties in H.
  repeat match goal with H : Forall _ (_ :: _) |- _ => inversion H; clear H; subst end.
  assert (forall k' : string, k' ∉ ks -> k' <> k) as Hne by (intros k' Hk' ->; exact (Hk' Hk)).
  destruct (stripe_properties_parts env sd props Hprops) as (text & number & _ & _ & ->).
  cbv zeta.
  destruct (truthy (StripeWebhook.sessionId sd)),
           (negb (jval_eqb (StripeWebhook.amountPaid sd) JUndef)),
           (truthy (JStr (StripeWebhook.paymentDate sd)));
    rewrite ?lookup_insert_ne by (apply Hne; assumption);
    apply lookup_singleton_ne, Hne; assumption.
Qed.

Section KeepsFacts.
Variable env : Env.
Variable ks : list string.

Ltac keeps_steps :=
  respects_structure;
  first [ apply keeps_console
        | apply keeps_fetch;
          first [ exact I
                | apply goal_patch_leaves; assumption
                | apply status_patch_leaves; assumption
                | eapply stripe_patch_leaves; eassumption ] ].

Lemma keeps_register args :
  "expectation"%string ∉ ks -> respects (keeps ks) (Register.main env args).
Proof.
  intros H.
  unfold Register.main, Register.check_availability, Register.register, Register.gate,
    Register.after_gate, Register.upsert_existing, Register.create,
    Register.checkCohortAvailability, Register.findExistingRecord,
    Register.updateExistingRecord.
  keeps_steps.
Qed.

Lemma keeps_register_basic args : respects (keeps ks) (RegisterBasic.main env args).
Proof. unfold RegisterBasic.main. keeps_steps. Qed.

Lemma keeps_register_class_date args : respects (keeps ks) (RegisterClassDate.main env args).
Proof. unfold RegisterClassDate.main, RegisterClassDate.create. keeps_steps. Qed.

Lemma keeps_mark_each ps :
  "status"%string ∉ ks -> forall n, respects (keeps ks) (Webhook.mark_each env ps n).
Proof.
  intros H. induction ps as [|p ps IH]; intros n; simpl; [keeps_steps|].
  apply respects_bind; [apply _ | | intros _; apply IH].
  unfold Webhook.markPaid. keeps_steps.
Qed.

Lemma keeps_stripe_mark_each sd ps :
  Forall (fun k => k ∉ ks) payment_properties ->
  forall n acc, respects (keeps ks) (StripeWebhook.mark_each env sd ps n acc).
Proof.
  intros H. induction ps as [|p ps IH]; intros n acc; simpl; [keeps_steps|].
  apply respects_bind; [apply _ | | intros _].
  - unfold StripeWebhook.markPaidWithStripeInfo.
    apply respects_bind_eval; [apply _|]. intros props Hprops. keeps_steps.
  - apply respects_bind; [apply _ | apply respects_eval; apply _ | intros link; apply IH].
Qed.

Lemma keeps_webhook args :
  "status"%string ∉ ks -> respects (keeps ks) (Webhook.main env args).
Proof.
  intros H. unfold Webhook.main, Webhook.process, findPagesByEmail.
  respects_structure;
    first [ apply keeps_mark_each; assumption | apply keeps_fetch; exact I
          | apply keeps_fetch, status_patch_leaves; assumption ].
Qed.

Lemma keeps_stripe_webhook args :
  Forall (fun k => k ∉ ks) payment_properties ->
  respects (keeps ks) (StripeWebhook.main env args).
Proof.
  intros H. unfold StripeWebhook.main, StripeWebhook.process, findPagesByEmail.
  pose proof (fun sd ps => keeps_stripe_mark_each sd ps H) as Hloop.
  set (loop := StripeWebhook.mark_each env) in *. clearbody loop.
  respects_structure; first [ apply Hloop | apply keeps_fetch; exact I ].
Qed.

End KeepsFacts.

Lemma writes_only_keeps written (handler : Args -> M Response) :
  (forall ks, Forall (fun k => k ∉ ks) written ->
              forall args, respects (keeps ks) (handler args)) ->
  forall args w, writes_only written w (snd (handler args w)).
Proof.
  intros H args w i p Hp.
  destruct (H [] ltac:(apply Forall_forall; intros k _; apply not_elem_of_nil) args w i p Hp)
    as (p' & Hp' & Hid & _).
  exists p'. split; [exact Hp'|]. split; [exact Hid|]. intros k Hk.
  destruct (H [k]) with (args := args) (w := w) (i := i) (p := p) as (p'' & Hp'' & _ & Hks);
    [| exact Hp |].
  - apply Forall_forall. intros k' Hk' Hin. apply list_elem_of_singleton in Hin.
    subst k'. exact (Hk Hk').
  - assert (p'' = p') as -> by congruence. inversion Hks; assumption.
Qed.

Lemma not_in_identity k :
  k ∈ identity_fields -> (k ∉ payment_properties) /\ k <> "expectation"%string.
Proof.
  intros H. apply list_elem_of_In in H. simpl in H.
  destruct H as [<-|[<-|[<-|[<-|[]]]]]; (split; [|discriminate]);
    intros Hin; apply list_elem_of_In in Hin; simpl in Hin; intuition discriminate.
Qed.

(** X11. A handler writes only its own properties of the records that are
    there. After any request, every record that was in the store is still
    there, at the same place and with the same identifier; a registration
    handler has changed at most its [expectation], the minimal webhook at
    most its [status], and the other webhook at most its [status],
    [stripe_session_id], [stripe_link], [amount_paid] and [payment_date]. So
    no handler ever rewrites the name, email, cohort or start date of a
    record. *)
Theorem handlers_write_only_their_own_properties env args w :
  Forall (fun handler : Args -> M Response =>
            writes_only ["expectation"%string] w (snd (handler args w)))
         (registrations env)
  /\ writes_only ["status"%string] w (snd (Webhook.main env args w))
  /\ writes_only payment_properties w (snd (StripeWebhook.main env args w)).
Proof.
  split; [|split].
  - unfold registrations.
    constructor; [|constructor; [|constructor; [|constructor]]];
      apply writes_only_keeps; intros ks Hks args'.
    + apply keeps_register. inversion Hks; assumption.
    + apply keeps_register_basic.
    + apply keeps_register_class_date.
  - apply writes_only_keeps. intros ks Hks args'.
    apply keeps_webhook. inversion Hks; assumption.
  - apply writes_only_keeps. intros ks Hks args'. apply keeps_stripe_webhook, Hks.
Qed.

Section IdentityFacts.
Variable env : Env.

Lemma identity_kept_register args :
  respects (keeps identity_fields) (Register.main env args).
Proof. apply keeps_register. intros H. apply not_in_identity in H as [_ H]. congruence. Qed.

Lemma identity_kept_webhook args : respects (keeps identity_fields) (Webhook.main env args).
Proof.
  apply keeps_webhook. intros H. apply not_in_identity in H as [H _].
  apply H. left.
Qed.

Lemma identity_kept_stripe_webhook args :
  respects (keeps identity_fields) (StripeWebhook.main env args).
Proof.
  apply keeps_stripe_webhook, Forall_forall. intros k Hk Hin.
  apply not_in_identity in Hin as [H _]. exact (H Hk).
Qed.

End IdentityFacts.

(** *** The count of the gate *)

Lemma filter_length_monotone {A} (P Q : A -> Prop)
    `{!forall x, Decision (P x)} `{!forall x, Decision (Q x)} (l : list A) : forall l',
  (forall i x, l !! i = Some x -> exists x', l' !! i = Some x' /\ (P x -> Q x')) ->
  (length (filter P l) <= length (filter Q l'))%nat.
Proof.
  induction l as [|x l IH]; intros l' Hl; [simpl; lia|].
  destruct (Hl 0%nat x eq_refl) as (x' & Hx' & HP).
  destruct l' as [|y l']; [discriminate|]. injection Hx' as ->.
  specialize (IH l' (fun i z Hz => Hl (S i) z Hz)).
  rewrite !filter_cons. destruct (decide (P x)) as [Hx|Hx].
  - rewrite decide_True by (apply HP, Hx). simpl. lia.
  - destruct (decide (Q x')); simpl; lia.
Qed.

Lemma paid_count_monotone cohort startDate w w' :
  forward w w' -> keeps identity_fields w w' ->
  paid_count cohort startDate (store w) <= paid_count cohort startDate (store w').
Proof.
  intros [Hf _] Hk. unfold paid_count. apply inj_le, filter_length_monotone.
  intros i p Hp.
  destruct (Hf i p Hp) as (p' & Hp' & _ & Hs).
  destruct (Hk i p Hp) as (p'' & Hp'' & _ & Hks).
  assert (p'' = p') as -> by congruence.
  exists p'. split; [exact Hp'|].
  unfold identity_fields in Hks.
  repeat match goal with H : Forall _ (_ :: _) |- _ => inversion H; clear H; subst end.
  unfold paid_for, is_paid, paid_status in *. intros (Hc & Hpaid & Hd).
  split; [congruence|]. split; [destruct Hs as [Hs|Hs]; congruence|].
  intros Ht. specialize (Hd Ht). congruence.
Qed.

(** X12. The count the availability gate makes never goes down: for every
    cohort and start date, after any request to any handler there are at
    least as many paid records as before. So a cohort that is full stays
    full. *)
Theorem paid_count_never_decreases env cohort startDate :
  Forall (fun handler : Args -> M Response =>
            forall args w,
              paid_count cohort startDate (store w)
              <= paid_count cohort startDate (store (snd (handler args w))))
         (handlers env).
Proof.
  unfold handlers.
  constructor; [intros args w; apply paid_count_monotone;
                [apply forward_register | apply identity_kept_register]|].
  constructor; [intros args w; apply paid_count_monotone;
                [apply forward_register_basic | apply keeps_register_basic]|].
  constructor; [intros args w; apply paid_count_monotone;
                [apply forward_register_class_date | apply keeps_register_class_date]|].
  constructor; [intros args w; apply paid_count_monotone;
                [apply forward_webhook | apply identity_kept_webhook]|].
  constructor; [intros args w; apply paid_count_monotone;
                [apply forward_stripe_webhook | apply identity_kept_stripe_webhook]|].
  constructor.
Qed.

(** *** The records of the store *)

#[global] Instance same_ids_preorder : PreOrder same_ids.
Proof.
  split; [intros w; reflexivity|]. intros a b c Hab Hbc. unfold same_ids in *. congruence.
Qed.

Lemma same_ids_fetch_query env f : respects same_ids (fetch env (Query f)).
Proof. intros w. unfold fetch. destruct (next_reply w); reflexivity. Qed.

Lemma same_ids_fetch_patch env pid props : respects same_ids (fetch env (Patch pid props)).
Proof.
  intros w. unfold fetch. destruct (next_reply w); try reflexivity.
  destruct (find_page pid (store w)); [|reflexivity].
  unfold same_ids. simpl. symmetry. apply page_ids_patch.
Qed.

Lemma same_ids_console label msg : respects same_ids (console_error label msg).
Proof. intros w. reflexivity. Qed.

Lemma at_most_one_more_fetch env rq : respects at_most_one_more (fetch env rq).
Proof.
  intros w. unfold at_most_one_more.
  destruct rq as [f|props|pid props].
  - exists []. rewrite app_nil_r. split; [symmetry; apply same_ids_fetch_query | simpl; lia].
  - unfold fetch. destruct (next_reply w); simpl;
      [| exists []; rewrite app_nil_r; split; [reflexivity | simpl; lia]..].
    exists [new_id env (store w)]. rewrite fmap_app. split; [reflexivity | simpl; lia].
  - exists []. rewrite app_nil_r. split; [symmetry; apply same_ids_fetch_patch | simpl; lia].
Qed.

Lemma same_ids_then_one_more w w1 w2 :
  same_ids w w1 -> at_most_one_more w1 w2 -> at_most_one_more w w2.
Proof. intros H (extra & He & Hl). exists extra. rewrite He, H. auto. Qed.

Lemma same_ids_one_more w w' : same_ids w w' -> at_most_one_more w w'.
Proof. intros H. exists []. rewrite app_nil_r, H. split; [reflexivity | simpl; lia]. Qed.

Lemma one_more_after {A B} (m : M A) (k : A -> M B) :
  respects same_ids m -> (forall a, respects at_most_one_more (k a)) ->
  respects at_most_one_more (bind m k).
Proof.
  intros Hm Hk w. unfold bind. specialize (Hm w).
  destruct (m w) as [[a|e] w1]; simpl in *.
  - eapply same_ids_then_one_more; [exact Hm | apply Hk].
  - apply same_ids_one_more, Hm.
Qed.

Lemma one_more_ret {A} (a : A) : respects at_most_one_more (ret a).
Proof. intros w. apply same_ids_one_more. reflexivity. Qed.

Ltac same_ids_steps :=
  respects_structure;
  first [ apply same_ids_console | apply same_ids_fetch_query | apply same_ids_fetch_patch ].

Section IdFacts.
Variable env : Env.

Lemma same_ids_gate f : respects same_ids (Register.gate env f).
Proof. unfold Register.gate, Register.checkCohortAvailability. same_ids_steps. Qed.

Lemma same_ids_upsert f : respects same_ids (Register.upsert_existing env f).
Proof.
  unfold Register.upsert_existing, Register.findExistingRecord,
    Register.updateExistingRecord.
  same_ids_steps.
Qed.

Lemma same_ids_check_availability checkAvail checkDate :
  respects same_ids (Register.check_availability env checkAvail checkDate).
Proof.
  unfold Register.check_availability, Register.checkCohortAvailability. same_ids_steps.
Qed.

Lemma one_more_create f : respects at_most_one_more (Register.create env f).
Proof.
  intros w. unfold Register.create, try_catch, bind.
  pose proof (at_most_one_more_fetch env (Create (Register.payload f)) w) as H.
  destruct (fetch env (Create (Register.payload f)) w) as [[[json|json]|e] w1]; exact H.
Qed.

Lemma one_more_class_date_create props :
  respects at_most_one_more (RegisterClassDate.create env props).
Proof.
  intros w. unfold RegisterClassDate.create, try_catch, bind.
  pose proof (at_most_one_more_fetch env (Create props) w) as H.
  destruct (fetch env (Create props) w) as [[[json|json]|e] w1]; exact H.
Qed.

Lemma one_more_register args : respects at_most_one_more (Register.main env args).
Proof.
  unfold Register.main. destruct (is_str (ow_method args) "options"); [apply one_more_ret|].
  cbv zeta.
  apply one_more_after; [apply respects_eval, _ | intros checkAvail].
  apply one_more_after; [apply respects_eval, _ | intros checkDate].
  destruct (truthy checkAvail).
  - intros w. apply same_ids_one_more, same_ids_check_availability.
  - apply one_more_after; [apply respects_eval, _ | intros f].
    unfold Register.register, Register.after_gate.
    apply one_more_after; [apply same_ids_gate | intros [r|]]; [apply one_more_ret|].
    apply one_more_after; [apply respects_eval, _ | intros [|e es]]; [|apply one_more_ret].
    apply one_more_after; [apply same_ids_upsert | intros [r|]]; [apply one_more_ret|].
    apply one_more_create.
Qed.

Lemma one_more_register_basic args : respects at_most_one_more (RegisterBasic.main env args).
Proof. intros w. apply same_ids_one_more. reflexivity. Qed.

Lemma one_more_register_class_date args :
  respects at_most_one_more (RegisterClassDate.main env args).
Proof.
  unfold RegisterClassDate.main.
  destruct (is_str (ow_method args) "options"); [apply one_more_ret|]. cbv zeta.
  repeat (apply one_more_after; [apply respects_eval, _ | intros ?]).
  match goal with |- respects _ (match ?x with _ => _ end) => destruct x end;
    [apply one_more_class_date_create | apply one_more_ret].
Qed.

Lemma same_ids_mark_each ps : forall n, respects same_ids (Webhook.mark_each env ps n).
Proof.
  induction ps as [|p ps IH]; intros n; simpl; [same_ids_steps|].
  apply respects_bind; [apply _ | | intros _; apply IH].
  unfold Webhook.markPaid. same_ids_steps.
Qed.

Lemma same_ids_stripe_mark_each sd ps :
  forall n acc, respects same_ids (StripeWebhook.mark_each env sd ps n acc).
Proof.
  induction ps as [|p ps IH]; intros n acc; simpl; [same_ids_steps|].
  apply respects_bind; [apply _ | | intros _].
  - unfold StripeWebhook.markPaidWithStripeInfo. same_ids_steps.
  - apply respects_bind; [apply _ | apply respects_eval; apply _ | intros link; apply IH].
Qed.

Lemma same_ids_webhook args : respects same_ids (Webhook.main env args).
Proof.
  unfold Webhook.main, Webhook.process, findPagesByEmail.
  respects_structure;
    first [ apply same_ids_mark_each | apply same_ids_fetch_query
          | apply same_ids_fetch_patch ].
Qed.

Lemma same_ids_stripe_webhook args : respects same_ids (StripeWebhook.main env args).
Proof.
  unfold StripeWebhook.main, StripeWebhook.process, findPagesByEmail.
  pose proof same_ids_stripe_mark_each as Hloop.
  set (loop := StripeWebhook.mark_each env) in *. clearbody loop.
  respects_structure; first [ apply Hloop | apply same_ids_fetch_query ].
Qed.

End IdFacts.

(** X13. The webhooks never add or remove a record: after any request the
    store holds the same records, by identifier and in the same order. A
    registration handler removes none and adds at most one, at the end. *)
Theorem handlers_add_at_most_one_record env :
  Forall (fun handler : Args -> M Response =>
            forall args w,
              page_id <$> store (snd (handler args w)) = page_id <$> store w)
         (webhooks env)
  /\ Forall (fun handler : Args -> M Response =>
               forall args w,
                 exists extra,
                   page_id <$> store (snd (handler args w)) = (page_id <$> store w) ++ extra
                   /\ (length extra <= 1)%nat)
            (registrations env).
Proof.
  split.
  - constructor; [intros args w; symmetry; apply same_ids_webhook|].
    constructor; [intros args w; symmetry; apply same_ids_stripe_webhook|].
    constructor.
  - constructor; [exact (one_more_register env)|].
    constructor; [exact (one_more_register_basic env)|].
    constructor; [exact (one_more_register_class_date env)|].
    constructor.
Qed.

(** ** Requests the handlers cannot read *)

Lemma field_read fs k d :
  call_trim (val (JObj fs) .> k ||| val (JStr d))
  = if truthy (lookup_field k fs)
    then match lookup_field k fs with
         | JStr s => Return (trim s)
         | _ => Throw trim_is_not_a_function
         end
    else Return (trim d).
Proof.
  unfold call_trim, or_else, member, val, obind, get.
  destruct (lookup_field k fs) as [ | | b | z | s | l | l]; simpl; try reflexivity.
  - destruct b; reflexivity.
  - destruct (negb (z =? 0)); reflexivity.
  - destruct (negb (jstring_eqb s [])); reflexivity.
Qed.

Lemma field_not_a_string fs k d :
  not_a_string (lookup_field k fs) ->
  call_trim (val (JObj fs) .> k ||| val (JStr d)) = Throw trim_is_not_a_function.
Proof.
  intros [Ht Hs]. rewrite field_read, Ht.
  destruct (lookup_field k fs); try reflexivity. destruct (Hs s). reflexivity.
Qed.

Lemma field_returns_or_throws fs k d :
  (exists s, call_trim (val (JObj fs) .> k ||| val (JStr d)) = Return s)
  \/ call_trim (val (JObj fs) .> k ||| val (JStr d)) = Throw trim_is_not_a_function.
Proof.
  rewrite field_read. destruct (truthy (lookup_field k fs)); [|eauto].
  destruct (lookup_field k fs); eauto.
Qed.

Ltac read_each_field fs :=
  repeat match goal with
         | H : not_a_string (lookup_field ?k fs)
           |- context [call_trim (val (JObj fs) .> ?k ||| val (JStr ?d))] =>
             rewrite (field_not_a_string fs k d H); reflexivity
         | |- context [call_trim (val (JObj fs) .> ?k ||| val (JStr ?d))] =>
             destruct (field_returns_or_throws fs k d) as [[? ->] | ->];
             [cbv beta iota | reflexivity]
         end.

Lemma object_has_no_check_avail fs :
  truthy (lookup_field "check-avail" fs) = false ->
  truthy (lookup_field "checkAvail" fs) = false ->
  exists v, (val (JObj fs) .> "check-avail" ||| val (JObj fs) .> "checkAvail") = Return v
            /\ truthy v = false.
Proof.
  intros H1 H2. unfold or_else, member, val, obind, get. rewrite H1. eauto.
Qed.

Lemma object_check_date fs :
  exists v, (val (JObj fs) .> "check-date" ||| val (JObj fs) .> "checkDate") = Return v.
Proof.
  unfold or_else, member, val, obind, get.
  destruct (truthy (lookup_field "check-date" fs)); eauto.
Qed.

Section UnreadableRequests.
Variable env : Env.

Lemma read_fields_not_a_string fs k :
  In k registration_fields -> not_a_string (lookup_field k fs) ->
  Register.read_fields (JObj fs) = Throw trim_is_not_a_function.
Proof.
  intros Hin H. unfold Register.read_fields, obind.
  unfold registration_fields in Hin. simpl in Hin.
  destruct Hin as [<-|[<-|[<-|[<-|[<-|[]]]]]]; read_each_field fs.
Qed.

Lemma register_not_a_string args fs k w :
  is_str (ow_method args) "options" = false ->
  Register.parseBody args = JObj fs ->
  truthy (lookup_field "check-avail" fs) = false ->
  truthy (lookup_field "checkAvail" fs) = false ->
  In k registration_fields -> not_a_string (lookup_field k fs) ->
  Register.main env args w = (Throw trim_is_not_a_function, w).
Proof.
  intros Hopt Hbody H1 H2 Hin H. unfold Register.main.
  rewrite Hopt, Hbody. cbv beta iota zeta. unfold bind, eval.
  destruct (object_has_no_check_avail fs H1 H2) as (v & -> & ->).
  destruct (object_check_date fs) as [d ->].
  rewrite (read_fields_not_a_string fs k Hin H). reflexivity.
Qed.

Lemma register_class_date_not_a_string args fs k w :
  is_str (ow_method args) "options" = false ->
  Register.parseBody args = JObj fs ->
  In k class_date_fields -> not_a_string (lookup_field k fs) ->
  RegisterClassDate.main env args w = (Throw trim_is_not_a_function, w).
Proof.
  intros Hopt Hbody Hin H. unfold RegisterClassDate.main.
  rewrite Hopt, Hbody. cbv beta iota zeta. unfold bind, eval.
  unfold class_date_fields in Hin. simpl in Hin.
  destruct Hin as [<-|[<-|[<-|[<-|[]]]]]; read_each_field fs.
Qed.

End UnreadableRequests.

(** X14. The registration handlers do not answer 400 to a field that is not
    text: when a field they read ([name], [email], [start_date], [cohort] or
    [goal] for the handler with the gate; [name], [email], [class_date] or
    [cohort] for the older handler) is a number other than zero, [true], an
    array or an object, calling [trim] on it throws a [TypeError] that
    nothing catches, before any call to the store. A body that is the JSON
    value [null] ends the same way. *)
Theorem registration_throws_on_a_field_that_is_not_text env args w :
  is_str (ow_method args) "options" = false ->
  (forall fs k,
     Register.parseBody args = JObj fs ->
     not_a_string (lookup_field k fs) ->
     (In k registration_fields ->
      truthy (lookup_field "check-avail" fs) = false ->
      truthy (lookup_field "checkAvail" fs) = false ->
      Register.main env args w = (Throw trim_is_not_a_function, w))
     /\ (In k class_date_fields ->
         RegisterClassDate.main env args w = (Throw trim_is_not_a_function, w)))
  /\ (Register.parseBody args = JNull ->
      exists e,
        kind e = TypeError
        /\ Register.main env args w = (Throw e, w)
        /\ RegisterClassDate.main env args w = (Throw e, w)).
Proof.
  intros Hopt. split.
  - intros fs k Hbody H. split.
    + intros Hin H1 H2. apply (register_not_a_string env args fs k w); assumption.
    + intros Hin. apply (register_class_date_not_a_string env args fs k w); assumption.
  - intros Hbody. eexists. split; [|split];
      [| unfold Register.main | unfold RegisterClassDate.main];
      try (rewrite Hopt, Hbody; reflexivity).
    reflexivity.
Qed.

Lemma registration_throws_on_a_field_that_is_not_text_witness :
  is_str (ow_method (post (JObj [("name", JStr (lit "Ana")); ("email", JNum 42)])))
         "options" = false
  /\ not_a_string (lookup_field "email" [("name", JStr (lit "Ana")); ("email", JNum 42)])
  /\ Register.main sample_env (post (JObj [("name", JStr (lit "Ana")); ("email", JNum 42)]))
       (world_of open_cohort)
     = (Throw trim_is_not_a_function, world_of open_cohort)
  /\ RegisterClassDate.main sample_env
       (post (JObj [("name", JStr (lit "Ana")); ("email", JNum 42)])) (world_of open_cohort)
     = (Throw trim_is_not_a_function, world_of open_cohort).
Proof.
  assert (not_a_string (lookup_field "email" [("name", JStr (lit "Ana")); ("email", JNum 42)]))
    as H by (split; [reflexivity | discriminate]).
  split; [reflexivity|]. split; [exact H|].
  destruct (proj1 (registration_throws_on_a_field_that_is_not_text sample_env
                     (post (JObj [("name", JStr (lit "Ana")); ("email", JNum 42)]))
                     (world_of open_cohort) eq_refl)
                  [("name", JStr (lit "Ana")); ("email", JNum 42)] "email"%string eq_refl H)
    as [Hgate Hold].
  split.
  - apply Hgate; [right; left; reflexivity | reflexivity | reflexivity].
  - apply Hold. right; left; reflexivity.
Defined.

Lemma unreadable_body_is_empty_object args :
  unreadable_body args -> Register.parseBody args = JObj [].
Proof.
  intros [Hpost Hbody]. unfold Register.parseBody. rewrite Hpost.
  destruct Hbody as [-> | ->]; reflexivity.
Qed.

Lemma unreadable_body_write_request args :
  unreadable_body args -> write_request args no_fields.
Proof.
  intros H. pose proof (unreadable_body_is_empty_object args H) as Hbody.
  destruct H as [Hpost _]. unfold write_request. rewrite Hbody.
  split; [apply is_str_post_not_options, Hpost|].
  split; [eexists; split; reflexivity | reflexivity].
Qed.

Lemma register_outcome_when_invalid env f e es w :
  Register.validate f = Return (e :: es) ->
  exists resp,
    fst (Register.register env f w) = Return resp
    /\ (resp = Register.invalid (e :: es) \/ resp = Register.cohort_full f)
    /\ store (snd (Register.register env f w)) = store w
    /\ calls (snd (Register.register env f w)) = calls w ++ [gate_query f].
Proof.
  intros Hv. unfold Register.register, bind.
  assert (next_reply w = Served \/ next_reply w <> Served) as [Hw|Hw]
    by (destruct (next_reply w); auto; right; discriminate).
  - destruct (Z_lt_ge_dec (paid_in_cohort f (store w)) 10) as [Hn|Hn].
    + rewrite (gate_admits env f w Hw Hn), (after_gate_invalid env f _ e es Hv).
      eexists. split; [reflexivity|]. split; [left; reflexivity|]. split; reflexivity.
    + rewrite (gate_rejects env f w Hw) by lia.
      eexists. split; [reflexivity|]. split; [right; reflexivity|]. split; reflexivity.
  - destruct (gate_fails_open env f w Hw) as [msg ->].
    rewrite (after_gate_invalid env f _ e es Hv).
    eexists. split; [reflexivity|]. split; [left; reflexivity|]. split; reflexivity.
Qed.

(** X15. A posted body that cannot be decoded or parsed is not reported as
    such: the handlers read it as the empty object, and the parameters of
    the query string are not looked at. The older handler answers 400 with
    its three errors and calls nothing; the handler with the gate first
    queries the store for the cohort [unknown], then answers 400 with the
    three errors (or 409 when that cohort is full), and writes nothing. *)
Theorem unreadable_body_is_an_empty_registration env args w :
  unreadable_body args ->
  (exists resp,
     RegisterClassDate.main env args w = (Return resp, w)
     /\ statusCode resp = 400
     /\ body_field resp "errors" = JArr (map (fun e => JStr (lit e)) class_date_errors))
  /\ (exists resp,
        fst (Register.main env args w) = Return resp
        /\ (resp = Register.invalid three_errors \/ resp = Register.cohort_full no_fields)
        /\ store (snd (Register.main env args w)) = store w
        /\ calls (snd (Register.main env args w)) = calls w ++ [gate_query no_fields]).
Proof.
  intros H. split.
  - unfold RegisterClassDate.main.
    rewrite (unreadable_body_is_empty_object args H).
    destruct H as [Hpost _]. rewrite (is_str_post_not_options _ Hpost).
    eexists. split; [reflexivity|]. split; reflexivity.
  - rewrite (main_write_request env args no_fields w (unreadable_body_write_request args H)).
    apply (register_outcome_when_invalid env no_fields). reflexivity.
Qed.

Lemma unreadable_body_is_an_empty_registration_witness :
  unreadable_body (mkArgs [("__ow_method", JStr (lit "post")); ("name", JStr (lit "Ana"));
                           ("email", JStr (lit "ana@x.com"));
                           ("start_date", JStr (lit "2024-03-01"))] Malformed)
  /\ exists resp,
       fst (Register.main sample_env
              (mkArgs [("__ow_method", JStr (lit "post")); ("name", JStr (lit "Ana"));
                       ("email", JStr (lit "ana@x.com"));
                       ("start_date", JStr (lit "2024-03-01"))] Malformed)
              (world_of open_cohort)) = Return resp
       /\ (resp = Register.invalid three_errors \/ resp = Register.cohort_full no_fields)
       /\ store (snd (Register.main sample_env
                        (mkArgs [("__ow_method", JStr (lit "post")); ("name", JStr (lit "Ana"));
                                 ("email", JStr (lit "ana@x.com"));
                                 ("start_date", JStr (lit "2024-03-01"))] Malformed)
                        (world_of open_cohort))) = store (world_of open_cohort)
       /\ calls (snd (Register.main sample_env
                        (mkArgs [("__ow_method", JStr (lit "post")); ("name", JStr (lit "Ana"));
                                 ("email", JStr (lit "ana@x.com"));
                                 ("start_date", JStr (lit "2024-03-01"))] Malformed)
                        (world_of open_cohort)))
          = calls (world_of open_cohort) ++ [gate_query no_fields].
Proof.
  assert (unreadable_body
            (mkArgs [("__ow_method", JStr (lit "post")); ("name", JStr (lit "Ana"));
                     ("email", JStr (lit "ana@x.com"));
                     ("start_date", JStr (lit "2024-03-01"))] Malformed)) as H
    by (split; [reflexivity | left; reflexivity]).
  split; [exact H|].
  apply (proj2 (unreadable_body_is_an_empty_registration sample_env _ (world_of open_cohort) H)).
Defined.

(** ** Calls that are not served on the write path *)

Lemma next_reply_first w : next_reply w = first_reply (replies w).
Proof. reflexivity. Qed.

Section FailOpen.
Variable env : Env.

Lemma find_throws f w :
  next_reply w <> Served ->
  exists msg,
    Register.findExistingRecord env (JStr (Register.email f)) (JStr (Register.cohort f))
      (JStr (Register.start_date f)) w
    = (Throw (mkError PlainError (lit "Failed to find existing record: " ++ msg)),
       after_call w (triple_query f)).
Proof.
  intros H. unfold Register.findExistingRecord, try_catch, bind, fetch.
  destruct (next_reply w) as [|json|msg]; [congruence| |]; simpl; eexists; reflexivity.
Qed.

Lemma update_throws pid g w :
  next_reply w <> Served ->
  exists msg,
    Register.updateExistingRecord env pid g w
    = (Throw (mkError PlainError (lit "Failed to update existing record: " ++ msg)),
       after_call w (Patch pid (Register.goal_patch g))).
Proof.
  intros H. unfold Register.updateExistingRecord, try_catch, bind, fetch.
  destruct (next_reply w) as [|json|msg]; [congruence| |]; simpl; eexists; reflexivity.
Qed.

Lemma upsert_lookup_fails f w :
  next_reply w <> Served ->
  exists msg,
    Register.upsert_existing env f w
    = (Return None,
       logged (after_call w (triple_query f)) "Failed to check/update existing record:" msg).
Proof.
  intros H. unfold Register.upsert_existing, try_catch, bind.
  destruct (find_throws f w H) as [msg ->]. eexists. reflexivity.
Qed.

Lemma upsert_update_fails f w p ps :
  next_reply w = Served ->
  filter (same_triple f) (store w) = p :: ps ->
  next_reply (after_call w (triple_query f)) <> Served ->
  exists msg,
    Register.upsert_existing env f w
    = (Return None,
       logged (after_call (after_call w (triple_query f)) (goal_update f p))
              "Failed to check/update existing record:" msg).
Proof.
  intros Hw Hf H. unfold Register.upsert_existing, try_catch, bind.
  rewrite (find_served env f w Hw), Hf.
  change (head (p :: ps)) with (Some p). cbv beta iota.
  destruct (update_throws (page_id p) (JStr (Register.goal f)) _ H) as [msg ->].
  eexists. reflexivity.
Qed.

Lemma create_served f w :
  next_reply w = Served ->
  Register.create env f w
  = (Return (created_response (new_record env f (store w))),
     mkWorld (store w ++ [new_record env f (store w)]) (tail (replies w))
             (calls w ++ [Create (Register.payload f)]) (console w)).
Proof.
  intros H. unfold Register.create, try_catch, bind.
  rewrite fetch_create by exact H. reflexivity.
Qed.



Lemma admissible_passes_gate args f w :
  admissible args f w -> next_reply w = Served ->
  Register.main env args w
  = bind (Register.upsert_existing env f)
         (fun existing => match existing with
                          | Some response => ret response
                          | None => Register.create env f
                          end)
         (after_call w (gate_query f)).
Proof.
  intros (Hreq & Hv & Hn) Hw.
  rewrite (main_write_request env args f w Hreq).
  unfold Register.register. unfold bind at 1.
  rewrite (gate_admits env f w Hw Hn).
  unfold Register.after_gate. unfold bind at 1. unfold eval. rewrite Hv. reflexivity.
Qed.

End FailOpen.

Lemma new_record_same_triple env f st : same_triple f (new_record env f st).
Proof. unfold same_triple, new_record. simpl. repeat split; apply payload_fields. Qed.

(** X16. The lookup of an existing record fails open, and so does its
    update. When the gate has admitted a valid registration and the lookup
    is not served, or the lookup finds a record and the update of its goal
    is not served, the handler logs the failure and creates a new record all
    the same: the answer says [created], and the store holds one more record
    with the same email, cohort and start date, next to any it held. *)
Theorem failed_upsert_creates_a_record env args f w r rest :
  admissible args f w ->
  r <> Served ->
  first_reply rest = Served ->
  (replies w = Served :: r :: rest ->
   fst (Register.main env args w) = Return (created_response (new_record env f (store w)))
   /\ store (snd (Register.main env args w)) = store w ++ [new_record env f (store w)]
   /\ calls (snd (Register.main env args w))
      = calls w ++ [gate_query f; triple_query f; Create (Register.payload f)])
  /\ (forall p ps,
        filter (same_triple f) (store w) = p :: ps ->
        replies w = Served :: Served :: r :: rest ->
        fst (Register.main env args w) = Return (created_response (new_record env f (store w)))
        /\ store (snd (Register.main env args w)) = store w ++ [new_record env f (store w)]
        /\ filter (same_triple f) (store (snd (Register.main env args w)))
           = p :: ps ++ [new_record env f (store w)]
        /\ calls (snd (Register.main env args w))
           = calls w ++ [gate_query f; triple_query f; goal_update f p;
                         Create (Register.payload f)]).
Proof.
  intros Hadm Hr Hrest. split.
  - intros Hreplies.
    assert (next_reply w = Served) as Hw by (rewrite next_reply_first, Hreplies; reflexivity).
    rewrite (admissible_passes_gate env args f w Hadm Hw). unfold bind.
    destruct (upsert_lookup_fails env f (after_call w (gate_query f))) as [msg ->].
    { rewrite next_reply_first. simpl. rewrite Hreplies. exact Hr. }
    rewrite create_served
      by (rewrite next_reply_first; simpl; rewrite Hreplies; exact Hrest).
    simpl. rewrite <- !app_assoc. auto.
  - intros p ps Hf Hreplies.
    assert (next_reply w = Served) as Hw by (rewrite next_reply_first, Hreplies; reflexivity).
    rewrite (admissible_passes_gate env args f w Hadm Hw). unfold bind.
    destruct (upsert_update_fails env f (after_call w (gate_query f)) p ps) as [msg ->].
    { rewrite next_reply_first. simpl. rewrite Hreplies. reflexivity. }
    { exact Hf. }
    { rewrite next_reply_first. simpl. rewrite Hreplies. exact Hr. }
    rewrite create_served
      by (rewrite next_reply_first; simpl; rewrite Hreplies; exact Hrest).
    simpl. rewrite <- !app_assoc. split; [reflexivity|]. split; [reflexivity|].
    split; [|reflexivity].
    rewrite filter_app, Hf, filter_cons, decide_True by apply new_record_same_triple.
    reflexivity.
Qed.

Lemma failed_upsert_creates_a_record_witness :
  admissible (post ana_request) ana (world_of open_cohort)
  /\ filter (same_triple ana) open_cohort = [ana_record]
  /\ filter (same_triple ana)
       (store (snd (Register.main sample_env (post ana_request)
                      (mkWorld open_cohort [Served; Served; Refused JNull] [] []))))
     = ana_record :: [] ++ [new_record sample_env ana open_cohort].
Proof.
  assert (admissible (post ana_request) ana (world_of open_cohort)) as Hadm.
  { split; [exact ana_is_write_request|]. split; [reflexivity | vm_compute; reflexivity]. }
  split; [exact Hadm|]. split; [vm_compute; reflexivity|].
  apply (proj2 (failed_upsert_creates_a_record sample_env (post ana_request) ana
                  (mkWorld open_cohort [Served; Served; Refused JNull] [] [])
                  (Refused JNull) [] Hadm ltac:(discriminate) eq_refl)
               ana_record [] ltac:(vm_compute; reflexivity) eq_refl).
Defined.



(** ** The availability endpoint *)

Lemma gate_filter_default_null cohort v :
  Register.gate_filter cohort match v with JUndef => JNull | _ => v end
  = Register.gate_filter cohort v.
Proof. destruct v; reflexivity. Qed.

(** X18. A request with [check-avail] is answered from one query and
    nothing else, whatever other fields it carries: the response has the
    status 200 and reports the cohort and date asked for, the number of paid
    records, the spots left out of ten and whether one is left; no record is
    written. *)
Theorem availability_endpoint_reports_the_count env args checkAvail checkDate w :
  availability_request args checkAvail checkDate ->
  next_reply w = Served ->
  exists resp,
    fst (Register.main env args w) = Return resp
    /\ statusCode resp = 200
    /\ body_field resp "ok" = JBool true
    /\ body_field resp "cohort" = checkAvail
    /\ body_field resp "startDate" = checkDate
    /\ body_field resp "paidCount" = JNum (paid_count checkAvail checkDate (store w))
    /\ body_field resp "spotsLeft"
       = JNum (Z.max 0 (10 - paid_count checkAvail checkDate (store w)))
    /\ body_field resp "isAvailable"
       = JBool (paid_count checkAvail checkDate (store w) <? 10)
    /\ store (snd (Register.main env args w)) = store w
    /\ calls (snd (Register.main env args w))
       = calls w ++ [Query (Register.gate_filter checkAvail checkDate)].
Proof.
  intros Hreq Hw. rewrite (main_availability_request env args checkAvail checkDate w Hreq).
  unfold Register.check_availability, try_catch, bind.
  rewrite (gate_served env checkAvail checkDate w Hw), gate_filter_default_null.
  eexists. split; [reflexivity|]. repeat split.
Qed.

Lemma availability_endpoint_reports_the_count_witness :
  availability_request
    (mkArgs [("__ow_method", JStr (lit "get")); ("check-avail", JStr (lit "spring"));
             ("name", JStr (lit "Ana")); ("email", JStr (lit "ana@x.com"))] NoBody)
    (JStr (lit "spring")) JUndef
  /\ next_reply (world_of open_cohort) = Served
  /\ paid_count (JStr (lit "spring")) JUndef open_cohort = 3
  /\ exists resp,
       fst (Register.main sample_env
              (mkArgs [("__ow_method", JStr (lit "get")); ("check-avail", JStr (lit "spring"));
                       ("name", JStr (lit "Ana")); ("email", JStr (lit "ana@x.com"))] NoBody)
              (world_of open_cohort)) = Return resp
       /\ statusCode resp = 200
       /\ body_field resp "ok" = JBool true
       /\ body_field resp "cohort" = JStr (lit "spring")
       /\ body_field resp "startDate" = JUndef
       /\ body_field resp "paidCount"
          = JNum (paid_count (JStr (lit "spring")) JUndef (store (world_of open_cohort)))
       /\ body_field resp "spotsLeft"
          = JNum (Z.max 0 (10 - paid_count (JStr (lit "spring")) JUndef
                                  (store (world_of open_cohort))))
       /\ body_field resp "isAvailable"
          = JBool (paid_count (JStr (lit "spring")) JUndef (store (world_of open_cohort)) <? 10)
       /\ store (snd (Register.main sample_env
              (mkArgs [("__ow_method", JStr (lit "get")); ("check-avail", JStr (lit "spring"));
                       ("name", JStr (lit "Ana")); ("email", JStr (lit "ana@x.com"))] NoBody)
              (world_of open_cohort))) = store (world_of open_cohort)
       /\ calls (snd (Register.main sample_env
              (mkArgs [("__ow_method", JStr (lit "get")); ("check-avail", JStr (lit "spring"));
                       ("name", JStr (lit "Ana")); ("email", JStr (lit "ana@x.com"))] NoBody)
              (world_of open_cohort)))
          = calls (world_of open_cohort)
            ++ [Query (Register.gate_filter (JStr (lit "spring")) JUndef)].
Proof.
  assert (availability_request
    (mkArgs [("__ow_method", JStr (lit "get")); ("check-avail", JStr (lit "spring"));
             ("name", JStr (lit "Ana")); ("email", JStr (lit "ana@x.com"))] NoBody)
    (JStr (lit "spring")) JUndef) as H by (repeat split).
  split; [exact H|]. split; [reflexivity|]. split; [vm_compute; reflexivity|].
  apply (availability_endpoint_reports_the_count sample_env _ _ _ (world_of open_cohort) H
           eq_refl).
Defined.

Lemma paid_for_any_date cohort startDate p :
  paid_for cohort startDate p -> paid_for cohort JUndef p.
Proof. intros (Hc & Hs & _). split; [exact Hc|]. split; [exact Hs | discriminate]. Qed.

Lemma dated_count_below_cohort_count cohort startDate st :
  paid_count cohort startDate st <= paid_count cohort JUndef st.
Proof.
  unfold paid_count. apply inj_le, filter_length_monotone.
  intros i p Hp. exists p. split; [exact Hp | apply paid_for_any_date].
Qed.

(** X19. The count for a cohort and a start date is never above the count
    for the cohort alone. So when the availability check without a date
    reports a free spot for a cohort, the gate admits a registration to that
    cohort whatever its start date is. *)
Theorem gate_admits_what_the_cohort_check_admits env f w a :
  next_reply w = Served ->
  fst (Register.checkCohortAvailability env (JStr (Register.cohort f)) JUndef w) = Return a ->
  Register.isAvailable a = true ->
  paid_in_cohort f (store w) <= Register.paidCount a
  /\ fst (Register.gate env f w) = Return None.
Proof.
  intros Hw Ha Havail. rewrite (gate_served env _ JUndef w Hw) in Ha.
  injection Ha as <-. simpl in *. apply Z.ltb_lt in Havail.
  pose proof (dated_count_below_cohort_count (JStr (Register.cohort f))
                (JStr (Register.start_date f)) (store w)) as Hle.
  split; [exact Hle|].
  rewrite (gate_admits env f w Hw); [reflexivity|]. unfold paid_in_cohort. lia.
Qed.

Lemma gate_admits_what_the_cohort_check_admits_witness :
  next_reply (world_of open_cohort) = Served
  /\ fst (Register.checkCohortAvailability sample_env (JStr (Register.cohort ana)) JUndef
            (world_of open_cohort))
     = Return (Register.mkAvailability true 7 3)
  /\ paid_in_cohort ana (store (world_of open_cohort)) <= 3
  /\ fst (Register.gate sample_env ana (world_of open_cohort)) = Return None.
Proof.
  split; [reflexivity|]. split; [vm_compute; reflexivity|].
  apply (gate_admits_what_the_cohort_check_admits sample_env ana (world_of open_cohort)
           (Register.mkAvailability true 7 3) eq_refl);
    [vm_compute; reflexivity | reflexivity].
Defined.

(** ** One request after another *)

Lemma goal_patch_keeps_paid_for cohort startDate pid g q :
  paid_for cohort startDate (patch_page pid (Register.goal_patch g) q)
  <-> paid_for cohort startDate q.
Proof.
  destruct (patch_goal_frame pid g q) as (_ & Hk & _).
  unfold paid_for. rewrite !Hk by discriminate. reflexivity.
Qed.

Lemma goal_patch_keeps_same_triple f pid g q :
  same_triple f (patch_page pid (Register.goal_patch g) q) <-> same_triple f q.
Proof.
  destruct (patch_goal_frame pid g q) as (_ & Hk & _).
  unfold same_triple. rewrite !Hk by discriminate. reflexivity.
Qed.

Lemma paid_count_goal_patch cohort startDate pid g st :
  paid_count cohort startDate (patch_page pid (Register.goal_patch g) <$> st)
  = paid_count cohort startDate st.
Proof.
  unfold paid_count.
  rewrite filter_fmap_preserved by (intros q; apply goal_patch_keeps_paid_for).
  rewrite length_fmap. reflexivity.
Qed.

Lemma new_record_not_paid env f st cohort startDate :
  ~ paid_for cohort startDate (new_record env f st).
Proof.
  intros (_ & Hs & _). unfold new_record in Hs. simpl in Hs.
  destruct (payload_fields f) as (_ & _ & _ & _ & _ & Hst).
  rewrite Hst in Hs. discriminate.
Qed.

Lemma paid_count_new_record env f cohort startDate st :
  paid_count cohort startDate (st ++ [new_record env f st]) = paid_count cohort startDate st.
Proof.
  unfold paid_count.
  rewrite filter_app, filter_cons, decide_False by apply new_record_not_paid.
  rewrite filter_nil, app_nil_r. reflexivity.
Qed.

Lemma reliable_after_three_calls st w cs co :
  reliable w -> reliable (mkWorld st (tail (tail (tail (replies w)))) cs co).
Proof.
  intros H.
  apply (reliable_tail st (mkWorld [] (tail (tail (replies w))) [] []) cs co),
        (reliable_tail [] (mkWorld [] (tail (replies w)) [] []) [] []),
        (reliable_tail [] w [] []), H.
Qed.

Section Composition.
Variable env : Env.

Lemma register_updates_served args f w p ps :
  admissible args f w -> reliable w ->
  filter (same_triple f) (store w) = p :: ps ->
  Register.main env args w
  = (Return (updated_response p),
     mkWorld (patch_page (page_id p) (Register.goal_patch (JStr (Register.goal f)))
                <$> store w)
             (tail (tail (tail (replies w))))
             (calls w ++ [gate_query f; triple_query f; goal_update f p])
             (console w)).
Proof.
  intros (Hreq & Hv & Hn) Hw Hf.
  rewrite (main_write_request env args f w Hreq). unfold Register.register, bind.
  rewrite (gate_admits env f w (reliable_next w Hw) Hn).
  rewrite (after_gate_updates env f _ p ps Hv (reliable_after_call w _ Hw) Hf).
  simpl. rewrite <- app_assoc. reflexivity.
Qed.

Lemma register_creates_served args f w :
  admissible args f w -> reliable w ->
  filter (same_triple f) (store w) = [] ->
  Register.main env args w
  = (Return (created_response (new_record env f (store w))),
     mkWorld (store w ++ [new_record env f (store w)])
             (tail (tail (tail (replies w))))
             (calls w ++ [gate_query f; triple_query f; Create (Register.payload f)])
             (console w)).
Proof.
  intros (Hreq & Hv & Hn) Hw Hf.
  rewrite (main_write_request env args f w Hreq). unfold Register.register, bind.
  rewrite (gate_admits env f w (reliable_next w Hw) Hn).
  rewrite (after_gate_creates env f _ Hv (reliable_after_call w _ Hw) Hf).
  simpl. rewrite <- app_assoc. reflexivity.
Qed.

(** What a served registration leaves: a store that is still reliable, with
    the same count for every cohort, and with a record of the triple. *)
Lemma registration_leaves_a_record args f w :
  admissible args f w -> reliable w ->
  reliable (snd (Register.main env args w))
  /\ (forall cohort startDate,
        paid_count cohort startDate (store (snd (Register.main env args w)))
        = paid_count cohort startDate (store w))
  /\ exists p ps,
       filter (same_triple f) (store (snd (Register.main env args w))) = p :: ps.
Proof.
  intros Hadm Hw.
  destruct (filter (same_triple f) (store w)) as [|p ps] eqn:Hf.
  - rewrite (register_creates_served args f w Hadm Hw Hf). simpl.
    split; [apply reliable_after_three_calls, Hw|].
    split; [intros; apply paid_count_new_record|].
    exists (new_record env f (store w)), [].
    rewrite filter_app, Hf, filter_cons, decide_True by apply new_record_same_triple.
    reflexivity.
  - rewrite (register_updates_served args f w p ps Hadm Hw Hf). simpl.
    split; [apply reliable_after_three_calls, Hw|].
    split; [intros; apply paid_count_goal_patch|].
    rewrite filter_fmap_preserved by (intros q; apply goal_patch_keeps_same_triple).
    rewrite Hf. eexists _, _. reflexivity.
Qed.

End Composition.

Lemma same_registration_triple f f' p :
  same_registration f f' -> same_triple f' p <-> same_triple f p.
Proof. intros (He & Hc & Hd). unfold same_triple. rewrite He, Hc, Hd. reflexivity. Qed.

(** X20. Registering twice does not make two records. After a served
    registration, a second valid registration of the same email for the same
    cohort and start date is answered [updated] with the identifier of the
    record the first one left, and the store holds the same records as
    after the first. *)
Theorem registering_again_updates_the_record env args f args' f' w :
  admissible args f w ->
  reliable w ->
  write_request args' f' ->
  Register.validate f' = Return [] ->
  same_registration f f' ->
  exists p,
    head (filter (same_triple f) (store (snd (Register.main env args w)))) = Some p
    /\ fst (Register.main env args' (snd (Register.main env args w)))
       = Return (updated_response p)
    /\ page_id <$> store (snd (Register.main env args' (snd (Register.main env args w))))
       = page_id <$> store (snd (Register.main env args w)).
Proof.
  intros Hadm Hw Hreq' Hv' Hsame.
  destruct (registration_leaves_a_record env args f w Hadm Hw) as (Hw1 & Hcount & p & ps & Hf).
  exists p. rewrite Hf. split; [reflexivity|].
  assert (admissible args' f' (snd (Register.main env args w))) as Hadm'.
  { split; [exact Hreq'|]. split; [exact Hv'|].
    destruct Hadm as (_ & _ & Hn). destruct Hsame as (_ & Hc & Hd).
    unfold paid_in_cohort in *. rewrite Hc, Hd, Hcount. exact Hn. }
  assert (filter (same_triple f') (store (snd (Register.main env args w))) = p :: ps) as Hf'.
  { rewrite <- Hf. apply list_filter_iff. intros q. apply same_registration_triple, Hsame. }
  rewrite (register_updates_served env args' f' _ p ps Hadm' Hw1 Hf'). simpl.
  split; [reflexivity | apply page_ids_patch].
Qed.

Lemma registering_again_updates_the_record_witness :
  admissible (post ana_request) ana (world_of [])
  /\ reliable (world_of [])
  /\ write_request (post ana_again_request) ana_again
  /\ Register.validate ana_again = Return []
  /\ same_registration ana ana_again
  /\ exists p,
       head (filter (same_triple ana)
               (store (snd (Register.main sample_env (post ana_request) (world_of [])))))
       = Some p
       /\ fst (Register.main sample_env (post ana_again_request)
                 (snd (Register.main sample_env (post ana_request) (world_of []))))
          = Return (updated_response p)
       /\ page_id <$> store (snd (Register.main sample_env (post ana_again_request)
                               (snd (Register.main sample_env (post ana_request)
                                       (world_of [])))))
          = page_id <$> store (snd (Register.main sample_env (post ana_request)
                                      (world_of []))).
Proof.
  assert (admissible (post ana_request) ana (world_of [])) as Hadm.
  { split; [exact ana_is_write_request|]. split; [reflexivity | vm_compute; reflexivity]. }
  assert (write_request (post ana_again_request) ana_again) as Hreq.
  { repeat split. eexists. split; reflexivity. }
  assert (same_registration ana ana_again) as Hsame by (repeat split).
  split; [exact Hadm|]. split; [apply reliable_world_of|]. split; [exact Hreq|].
  split; [reflexivity|]. split; [exact Hsame|].
  apply (registering_again_updates_the_record sample_env (post ana_request) ana
           (post ana_again_request) ana_again (world_of []) Hadm (reliable_world_of [])
           Hreq eq_refl Hsame).
Defined.

Lemma same_triple_kept f w w' i p :
  keeps identity_fields w w' -> store w !! i = Some p -> same_triple f p ->
  exists p', store w' !! i = Some p' /\ same_triple f p'.
Proof.
  intros Hk Hi (He & Hc & Hd). destruct (Hk i p Hi) as (p' & Hp' & _ & Hks).
  exists p'. split; [exact Hp'|]. unfold identity_fields in Hks.
  repeat match goal with H : Forall _ (_ :: _) |- _ => inversion H; clear H; subst end.
  unfold same_triple. repeat split; congruence.
Qed.

Lemma paid_record_after_marking f w w0 w' props :
  keeps identity_fields w w' ->
  store w0 = store w ->
  props !! "status" = Some paid_status ->
  store w' = store (all_marked w0 props
                      (filter (has_email (JStr (Register.email f))) (store w))) ->
  (exists p ps, filter (same_triple f) (store w) = p :: ps) ->
  holds_paid_record f w'.
Proof.
  intros Hk H0 Hprops Hst (p & ps & Hf).
  assert (p ∈ filter (same_triple f) (store w)) as Hin by (rewrite Hf; left).
  apply list_elem_of_filter in Hin as [Htriple Hin].
  apply list_elem_of_lookup in Hin as [i Hi].
  destruct (same_triple_kept f w w' i p Hk Hi Htriple) as (p' & Hp' & Htriple').
  destruct (all_marked_status w0 w props (JStr (Register.email f)) H0 Hprops i p Hi)
    as (q' & Hq' & _ & Hpaid); [apply Htriple|].
  rewrite <- Hst, Hp' in Hq'. injection Hq' as <-.
  exists i, p'. split; [exact Hp'|]. split; [exact Htriple'|]. split; [exact Hpaid|].
  destruct Htriple' as (_ & Hc & Hd). split; [exact Hc|]. split; [exact Hpaid|].
  intros _. exact Hd.
Qed.

(** X21. Registering and then paying takes a place in the cohort. After a
    served registration, a payment event with the email of the registration
    leaves in the store a record with its email, cohort and start date whose
    status is paid, which is a record the availability gate counts. This
    holds for the minimal webhook, and for the webhook that records the
    Stripe session when the session converts; when its identifier or amount
    does not convert, that webhook leaves the store as the registration left
    it. *)
Theorem paid_registration_counts_for_the_gate env args f pay session w :
  admissible args f w ->
  reliable w ->
  payment_event pay session (JStr (Register.email f)) ->
  holds_paid_record f (snd (Webhook.main env pay (snd (Register.main env args w))))
  /\ (convertible_session env session ->
      holds_paid_record f
        (snd (StripeWebhook.main env pay (snd (Register.main env args w)))))
  /\ (forall sd e,
        StripeWebhook.extract env session = Return sd ->
        StripeWebhook.stripe_properties env sd = Throw e ->
        store (snd (StripeWebhook.main env pay (snd (Register.main env args w))))
        = store (snd (Register.main env args w))).
Proof.
  intros Hadm Hw Hev.
  destruct (registration_leaves_a_record env args f w Hadm Hw) as (Hw1 & _ & Hrec).
  set (w1 := snd (Register.main env args w)) in *. split; [|split].
  - eapply (paid_record_after_marking f w1 (after_call w1 _) _ {[ "status" := paid_status ]});
      [apply identity_kept_webhook | reflexivity | apply status_patch_status | | exact Hrec].
    rewrite (webhook_main_payment env pay session _ w1 Hev),
      (webhook_process_served env _ w1 Hw1). reflexivity.
  - intros Hc.
    destruct (extract_convertible env pay session _ Hev Hc) as (sd & props & Hsd & Hprops).
    destruct (stripe_properties_link env sd props Hprops) as [link Hlink].
    destruct (stripe_amount_text env sd props Hprops) as [amount Hamount].
    eapply (paid_record_after_marking f w1 (after_call w1 _) _ props);
      [apply identity_kept_stripe_webhook | reflexivity
      | eapply stripe_properties_status, Hprops | | exact Hrec].
    rewrite (stripe_main_extracted env pay session _ sd w1 Hev Hsd).
    rewrite (stripe_process_served env _ sd props link amount w1 Hprops Hlink Hamount Hw1).
    reflexivity.
  - intros sd e Hsd Hprops.
    rewrite (stripe_main_extracted env pay session _ sd w1 Hev Hsd).
    destruct (filter (has_email (JStr (Register.email f))) (store w1)) as [|p ps] eqn:E.
    + rewrite (stripe_process_no_match env _ sd w1 (reliable_next w1 Hw1) E). reflexivity.
    + rewrite (stripe_process_unbuilt env _ sd e w1 Hprops (reliable_next w1 Hw1))
        by (rewrite E; discriminate).
      reflexivity.
Qed.

Lemma paid_registration_counts_for_the_gate_witness :
  admissible (post ana_request) ana (world_of [])
  /\ reliable (world_of [])
  /\ payment_event (post ana_paid) ana_session (JStr (Register.email ana))
  /\ holds_paid_record ana
       (snd (Webhook.main sample_env (post ana_paid)
               (snd (Register.main sample_env (post ana_request) (world_of []))))).
Proof.
  assert (admissible (post ana_request) ana (world_of [])) as Hadm.
  { split; [exact ana_is_write_request|]. split; [reflexivity | vm_compute; reflexivity]. }
  split; [exact Hadm|]. split; [apply reliable_world_of|].
  split; [exact ana_paid_is_payment_event|].
  apply (proj1 (paid_registration_counts_for_the_gate sample_env (post ana_request) ana
                  (post ana_paid) ana_session (world_of []) Hadm (reliable_world_of [])
                  ana_paid_is_payment_event)).
Defined.

(** *** The handler without lookup *)

Section OlderHandler.
Variable env : Env.

Lemma class_date_main_request args name email class_date cohort w :
  class_date_request args name email class_date cohort ->
  RegisterClassDate.main env args w
  = bind (eval (RegisterClassDate.validate name email class_date))
         (fun errors =>
            match errors with
            | _ :: _ =>
                ret (mkResponse 400 (json_header ++ corsHeaders)
                       (Some (JObj [("ok", JBool false);
                                    ("errors", JArr (map (fun e => JStr (lit e)) errors))])))
            | [] => RegisterClassDate.create env
                      (RegisterClassDate.payload name email class_date cohort)
            end) w.
Proof.
  intros (Hopt & Hn & He & Hd & Hc). unfold RegisterClassDate.main.
  rewrite Hopt. cbv zeta. rewrite Hn, He, Hd, Hc. reflexivity.
Qed.

Lemma class_date_create_served props w :
  next_reply w = Served ->
  RegisterClassDate.create env props w
  = (Return (mkResponse 200 (json_header ++ corsHeaders)
               (Some (JObj [("ok", JBool true);
                            ("pageId", JStr (new_id env (store w)))]))),
     mkWorld (store w ++ [mkPage (new_id env (store w)) props]) (tail (replies w))
             (calls w ++ [Create props]) (console w)).
Proof.
  intros H. unfold RegisterClassDate.create, try_catch, bind.
  rewrite fetch_create by exact H. reflexivity.
Qed.

Lemma class_date_main_served args name email class_date cohort w :
  class_date_request args name email class_date cohort ->
  RegisterClassDate.validate name email class_date = Return [] ->
  next_reply w = Served ->
  RegisterClassDate.main env args w
  = (Return (mkResponse 200 (json_header ++ corsHeaders)
               (Some (JObj [("ok", JBool true);
                            ("pageId", JStr (new_id env (store w)))]))),
     mkWorld (store w ++ [class_date_record env name email class_date cohort (store w)])
             (tail (replies w))
             (calls w ++ [Create (RegisterClassDate.payload name email class_date cohort)])
             (console w)).
Proof.
  intros Hreq Hv Hw. rewrite (class_date_main_request args _ _ _ _ w Hreq).
  unfold bind, eval. rewrite Hv. apply class_date_create_served, Hw.
Qed.

End OlderHandler.

(** X22. The older registration handler looks nothing up. It contacts the
    store only to create a record, and a valid request that is sent twice
    makes two records with the same properties. *)
Theorem older_handler_registers_twice env args name email class_date cohort w :
  class_date_request args name email class_date cohort ->
  RegisterClassDate.validate name email class_date = Return [] ->
  reliable w ->
  store (snd (RegisterClassDate.main env args (snd (RegisterClassDate.main env args w))))
  = store w
    ++ [class_date_record env name email class_date cohort (store w);
        class_date_record env name email class_date cohort
          (store w ++ [class_date_record env name email class_date cohort (store w)])]
  /\ calls (snd (RegisterClassDate.main env args (snd (RegisterClassDate.main env args w))))
     = calls w ++ [Create (RegisterClassDate.payload name email class_date cohort);
                   Create (RegisterClassDate.payload name email class_date cohort)].
Proof.
  intros Hreq Hv Hw.
  rewrite (class_date_main_served env args _ _ _ _ w Hreq Hv (reliable_next w Hw)).
  rewrite (class_date_main_served env args _ _ _ _ _ Hreq Hv)
    by (apply reliable_next, reliable_tail, Hw).
  simpl. rewrite <- !app_assoc. split; reflexivity.
Qed.

Lemma older_handler_registers_twice_witness :
  class_date_request (post ana_class_date_request)
    (lit "Ana") (lit "ana@x.com") (lit "2024-03-01") (lit "spring")
  /\ RegisterClassDate.validate (lit "Ana") (lit "ana@x.com") (lit "2024-03-01") = Return []
  /\ reliable (world_of [])
  /\ length (store (snd (RegisterClassDate.main sample_env (post ana_class_date_request)
                           (snd (RegisterClassDate.main sample_env
                                   (post ana_class_date_request) (world_of []))))))
     = 2%nat
  /\ calls (snd (RegisterClassDate.main sample_env (post ana_class_date_request)
                   (snd (RegisterClassDate.main sample_env
                           (post ana_class_date_request) (world_of [])))))
     = [Create (RegisterClassDate.payload (lit "Ana") (lit "ana@x.com") (lit "2024-03-01")
                  (lit "spring"));
        Create (RegisterClassDate.payload (lit "Ana") (lit "ana@x.com") (lit "2024-03-01")
                  (lit "spring"))].
Proof.
  assert (class_date_request (post ana_class_date_request)
            (lit "Ana") (lit "ana@x.com") (lit "2024-03-01") (lit "spring")) as Hreq
    by (repeat split).
  split; [exact Hreq|]. split; [reflexivity|]. split; [apply reliable_world_of|].
  destruct (older_handler_registers_twice sample_env (post ana_class_date_request)
              (lit "Ana") (lit "ana@x.com") (lit "2024-03-01") (lit "spring") (world_of [])
              Hreq eq_refl (reliable_world_of [])) as [Hstore Hcalls].
  split; [rewrite Hstore; reflexivity | exact Hcalls].
Defined.

(** ** The email of a payment *)

Lemma email_of_object fs :
  email_of (JObj fs)
  = Return (first_truthy (details_email fs) (lookup_field "customer_email" fs)).
Proof.
  unfold email_of, first_truthy, details_email, and_then, or_else, member, val, obind, get.
  destruct (lookup_field "customer_details" fs) as [ | | b | z | s | l | d]; simpl;
    repeat (match goal with
            | |- context [if ?c then _ else _] => destruct c eqn:?
            end; simpl);
    congruence.
Qed.

(** X23. The email a webhook looks records up by is [customer_details.email]
    of the session when that is there and truthy, and otherwise
    [customer_email]; the session of an event the webhooks act on is always
    an object. *)
Theorem payment_email_is_details_email_first args session email :
  payment_event args session email ->
  exists fs,
    session = JObj fs
    /\ email = first_truthy (details_email fs) (lookup_field "customer_email" fs)
    /\ (truthy (details_email fs) = true -> email = details_email fs)
    /\ (truthy (details_email fs) = false -> email = lookup_field "customer_email" fs).
Proof.
  intros (_ & _ & _ & _ & (paid & Hp & Hpaid) & He & Hemail).
  destruct (paid_session_is_object session paid Hp Hpaid) as [fs ->].
  rewrite email_of_object in He. injection He as <-.
  exists fs. split; [reflexivity|]. split; [reflexivity|].
  unfold first_truthy in *. split; intros H; rewrite H in *; [reflexivity|].
  destruct (truthy (lookup_field "customer_email" fs)); [reflexivity | discriminate].
Qed.

Lemma payment_email_is_details_email_first_witness :
  payment_event (post ana_paid) ana_session (JStr (lit "ana@x.com"))
  /\ exists fs,
       ana_session = JObj fs
       /\ JStr (lit "ana@x.com")
          = first_truthy (details_email fs) (lookup_field "customer_email" fs)
       /\ (truthy (details_email fs) = true -> JStr (lit "ana@x.com") = details_email fs)
       /\ (truthy (details_email fs) = false ->
           JStr (lit "ana@x.com") = lookup_field "customer_email" fs).
Proof.
  split; [exact ana_paid_is_payment_event|].
  apply (payment_email_is_details_email_first (post ana_paid) ana_session
           (JStr (lit "ana@x.com")) ana_paid_is_payment_event).
Defined.

(** ** What the webhook records of a Stripe session *)

Lemma extract_object env fs :
  StripeWebhook.extract env (JObj fs)
  = obind (to_number env (lookup_field "created" fs)) (fun seconds =>
    obind (StripeWebhook.payment_day env seconds) (fun day =>
    Return (StripeWebhook.mkStripeData
              (lookup_field "id" fs) (session_amount fs) day
              (first_truthy
                 match lookup_field "customer_details" fs with
                 | JUndef | JNull => JUndef
                 | JObj d => lookup_field "name" d
                 | _ => JUndef
                 end JNull)
              (if truthy (lookup_field "currency" fs)
               then lookup_field "currency" fs else JStr (lit "usd"))))).
Proof.
  unfold StripeWebhook.extract, session_amount, first_truthy, or_else, member, val, obind, get.
  destruct (truthy (lookup_field "amount_total" fs));
    destruct (to_number env (lookup_field "created" fs)) as [seconds|]; try reflexivity;
    destruct (StripeWebhook.payment_day env seconds); try reflexivity;
    destruct (lookup_field "customer_details" fs) as [ | | b | z | s | l | d]; simpl;
    repeat (match goal with
            | |- context [if ?c then _ else _] => destruct c eqn:?
            end; simpl);
    congruence.
Qed.

Lemma Qred_integer z :
  Qreduction.Qred (QArith_base.Qmake z 1) = QArith_base.Qmake z 1.
Proof.
  unfold Qreduction.Qred.
  pose proof (Z.ggcd_gcd z 1) as Hg. pose proof (Z.ggcd_correct_divisors z 1) as Hd.
  destruct (Z.ggcd z 1) as [g [aa bb]]. simpl in *.
  rewrite Z.gcd_1_r in Hg. subst g. destruct Hd as [Ha Hb].
  rewrite Z.mul_1_l in Ha, Hb. subst. reflexivity.
Qed.

(** Seconds to milliseconds. *)
Lemma times1000_of_int z : times1000 (of_int z) = of_int (z * 1000).
Proof.
  unfold times1000, of_int, QArith_base.inject_Z, QArith_base.Qmult. simpl.
  rewrite Qred_integer. reflexivity.
Qed.

(** Cents to dollars. *)
Lemma div100_of_int z :
  exists q, div100 (of_int z) = Rat q
            /\ QArith_base.Qeq q (QArith_base.Qmake z 100)
            /\ Qreduction.Qred q = q.
Proof.
  eexists. split; [reflexivity|]. split.
  - rewrite Qreduction.Qred_correct.
    unfold QArith_base.Qeq, QArith_base.Qdiv, QArith_base.Qmult, QArith_base.Qinv,
      QArith_base.inject_Z. simpl. lia.
  - apply Qreduction.Qred_complete, Qreduction.Qred_correct.
Qed.

Lemma amount_in_cents_session_amount fs cents :
  amount_in_cents fs cents -> session_amount fs = JNum cents.
Proof.
  unfold session_amount.
  intros [[-> Hne] | [[-> | [-> | ->]] Hs]]; simpl; try exact Hs.
  destruct (Z.eqb_spec cents 0); [contradiction | reflexivity].
Qed.

(** X24. What the webhook writes on a record for a session of Stripe, whose
    identifier is a text, whose amount is a whole number of cents and whose
    creation time is a whole number of seconds: the status paid; the
    identifier and the link to the Stripe dashboard that ends with it; the
    amount in dollars, that is the cents divided by 100 (49.99 for 4999),
    where the cents are [amount_total] unless that is zero or absent, in
    which case they are [amount_subtotal]; and the day of the creation time,
    taken in milliseconds. *)
Theorem stripe_patch_of_a_session env fs id cents seconds day :
  lookup_field "id" fs = JStr id -> id <> [] ->
  amount_in_cents fs cents ->
  lookup_field "created" fs = JNum seconds ->
  iso_day env (QArith_base.inject_Z (seconds * 1000)) = Some day -> day <> [] ->
  exists sd dollars,
    StripeWebhook.extract env (JObj fs) = Return sd
    /\ QArith_base.Qeq dollars (QArith_base.Qmake cents 100)
    /\ Qreduction.Qred dollars = dollars
    /\ StripeWebhook.stripe_properties env sd
       = Return {[ "status" := paid_status;
                   "stripe_session_id" := rich (JStr id);
                   "stripe_link" :=
                     PUrl (JStr (lit "https://dashboard.stripe.com/payments/" ++ id));
                   "amount_paid" := PNumber (Rat dollars);
                   "payment_date" := PDate (JStr day) ]}.
Proof.
  intros Hid Hne Hcents Hcreated Hday Hdne.
  destruct (div100_of_int cents) as (dollars & Hdiv & Heq & Hred).
  eexists _, dollars. split; [|split; [exact Heq|split; [exact Hred|]]].
  - rewrite extract_object, Hcreated. simpl to_number. cbn [obind].
    unfold StripeWebhook.payment_day. rewrite times1000_of_int. unfold of_int.
    rewrite Hday. reflexivity.
  - unfold StripeWebhook.stripe_properties, StripeWebhook.stripe_url.
    cbn [StripeWebhook.sessionId StripeWebhook.amountPaid StripeWebhook.paymentDate].
    rewrite Hid, (amount_in_cents_session_amount fs cents Hcents).
    change (to_number env (JNum cents)) with (Return (of_int cents)).
    change (to_text env (JStr id)) with (Return id).
    cbn [obind]. rewrite Hdiv.
    destruct id as [|c id]; [contradiction|]. destruct day as [|d day]; [contradiction|].
    cbn [truthy jval_eqb negb jstring_eqb].
    change (jstring_eqb (d :: day) []) with false.
    cbn [negb obind]. reflexivity.
Qed.

(** A session of 4999 cents created on 2 March 2024: 4999/100 dollars. *)
Lemma stripe_patch_of_a_session_witness :
  lookup_field "id" odd_cents_session = JStr (lit "cs_test_3")
  /\ amount_in_cents odd_cents_session 4999
  /\ lookup_field "created" odd_cents_session = JNum 1709337600
  /\ iso_day sample_env (QArith_base.inject_Z (1709337600 * 1000)) = Some (lit "2024-03-02")
  /\ exists sd dollars,
       StripeWebhook.extract sample_env (JObj odd_cents_session) = Return sd
       /\ QArith_base.Qeq dollars (QArith_base.Qmake 4999 100)
       /\ Qreduction.Qred dollars = dollars
       /\ StripeWebhook.stripe_properties sample_env sd
          = Return {[ "status" := paid_status;
                      "stripe_session_id" := rich (JStr (lit "cs_test_3"));
                      "stripe_link" :=
                        PUrl (JStr (lit "https://dashboard.stripe.com/payments/"
                                    ++ lit "cs_test_3"));
                      "amount_paid" := PNumber (Rat dollars);
                      "payment_date" := PDate (JStr (lit "2024-03-02")) ]}.
Proof.
  assert (amount_in_cents odd_cents_session 4999) as Hcents
    by (left; split; [reflexivity | discriminate]).
  split; [reflexivity|]. split; [exact Hcents|]. split; [reflexivity|].
  split; [reflexivity|].
  apply (stripe_patch_of_a_session sample_env odd_cents_session (lit "cs_test_3") 4999
           1709337600 (lit "2024-03-02") eq_refl ltac:(discriminate) Hcents eq_refl eq_refl
           ltac:(discriminate)).
Defined.

(** The same session, evaluated: the amount recorded is the fraction
    4999/100, and the response spells it [$49.99]. *)
Example odd_cents_are_kept :
  StripeWebhook.stripe_properties sample_env
    (StripeWebhook.mkStripeData (JStr (lit "cs_test_3")) (JNum 4999) (lit "2024-03-02")
       JNull (JStr (lit "usd")))
  = Return {[ "status" := paid_status;
              "stripe_session_id" := rich (JStr (lit "cs_test_3"));
              "stripe_link" :=
                PUrl (JStr (lit "https://dashboard.stripe.com/payments/cs_test_3"));
              "amount_paid" := PNumber (Rat (QArith_base.Qmake 4999 100));
              "payment_date" := PDate (JStr (lit "2024-03-02")) ]}
  /\ StripeWebhook.amount_text sample_env (JNum 4999) = Return (lit "$49.99").
Proof. split; reflexivity. Qed.

Lemma payment_day_throws env seconds e :
  StripeWebhook.payment_day env seconds = Throw e ->
  e = mkError RangeError (lit "Invalid time value").
Proof.
  unfold StripeWebhook.payment_day.
  destruct (times1000 seconds) as [ms| |negative];
    [destruct (iso_day env ms); [discriminate|] | |]; intros [= <-]; reflexivity.
Qed.

(** X25. A paid session whose creation time does not convert to a date
    stops the webhook that records the Stripe session, with an exception that
    nothing catches, before any call to the store: the [TypeError] of the
    multiplication [session.created * 1000] when the creation time is an
    object that does not convert to a number, and otherwise the [RangeError]
    of [toISOString]. The minimal webhook handles the same event and answers
    200 or 502. *)
Theorem undated_session_stops_the_stripe_webhook env args session email w :
  payment_event args session email ->
  ~ dated_session env session ->
  (exists created,
     val session .> "created" = Return created
     /\ match to_number env created with
        | Throw e =>
            e = cannot_convert
            /\ StripeWebhook.main env args w = (Throw cannot_convert, w)
        | Return seconds =>
            StripeWebhook.main env args w
            = (Throw (mkError RangeError (lit "Invalid time value")), w)
        end)
  /\ exists resp,
       fst (Webhook.main env args w) = Return resp /\ In (statusCode resp) [200; 502].
Proof.
  intros Hev Hd. split.
  - rewrite (stripe_main_payment env args session email w Hev).
    destruct Hev as (_ & _ & _ & _ & (paid & Hp & Hpaid) & _).
    destruct (paid_session_is_object session paid Hp Hpaid) as [fs ->].
    exists (lookup_field "created" fs). split; [reflexivity|].
    rewrite extract_object. unfold bind, eval.
    destruct (to_number env (lookup_field "created" fs)) as [seconds|e] eqn:En.
    + cbn [obind].
      destruct (StripeWebhook.payment_day env seconds) as [day|e] eqn:Ed.
      * destruct Hd. exists (lookup_field "created" fs), seconds, day.
        split; [reflexivity|]. split; assumption.
      * rewrite (payment_day_throws env seconds e Ed). reflexivity.
    + pose proof (to_number_throws env _ e En) as ->. split; reflexivity.
  - rewrite (webhook_main_payment env args session email w Hev).
    apply webhook_process_returns.
Qed.

Lemma undated_paid_is_payment_event :
  payment_event (post undated_paid) undated_session (JStr (lit "ana@x.com")).
Proof.
  split; [reflexivity|]. split; [reflexivity|].
  split; [eexists; split; reflexivity|]. split; [reflexivity|].
  split; [eexists; split; reflexivity|]. split; reflexivity.
Defined.

Lemma undated_session_is_not_dated : ~ dated_session sample_env undated_session.
Proof.
  intros (created & seconds & day & Hc & Hn & Hday).
  assert (Return created = Return JUndef) as [= ->] by (rewrite <- Hc; reflexivity).
  injection Hn as <-. discriminate Hday.
Defined.

(** With no creation time the multiplication gives [NaN], and [toISOString]
    throws. *)
Lemma undated_session_stops_the_stripe_webhook_witness :
  payment_event (post undated_paid) undated_session (JStr (lit "ana@x.com"))
  /\ ~ dated_session sample_env undated_session
  /\ exists created,
       val undated_session .> "created" = Return created
       /\ match to_number sample_env created with
          | Throw e =>
              e = cannot_convert
              /\ StripeWebhook.main sample_env (post undated_paid) (world_of open_cohort)
                 = (Throw cannot_convert, world_of open_cohort)
          | Return seconds =>
              StripeWebhook.main sample_env (post undated_paid) (world_of open_cohort)
              = (Throw (mkError RangeError (lit "Invalid time value")), world_of open_cohort)
          end.
Proof.
  split; [exact undated_paid_is_payment_event|].
  split; [exact undated_session_is_not_dated|].
  apply (proj1 (undated_session_stops_the_stripe_webhook sample_env (post undated_paid)
                  undated_session (JStr (lit "ana@x.com")) (world_of open_cohort)
                  undated_paid_is_payment_event undated_session_is_not_dated)).
Defined.

(** A creation time that is an object with [valueOf] and [toString] of its
    own, neither of them a function: the multiplication throws the
    [TypeError]; no creation time at all: [toISOString] throws the
    [RangeError]. *)
Example creation_times_that_do_not_convert :
  (forall env,
     StripeWebhook.main env (post object_created_paid) (world_of open_cohort)
     = (Throw cannot_convert, world_of open_cohort))
  /\ kind cannot_convert = TypeError
  /\ (forall env,
        StripeWebhook.main env (post undated_paid) (world_of open_cohort)
        = (Throw (mkError RangeError (lit "Invalid time value")), world_of open_cohort)).
Proof. repeat split; reflexivity. Qed.

(** ** Every outcome of the write path *)

Section WritePath.
Variable env : Env.







End WritePath.


